(** * Packing-slip / shipping-label sorter: a shallow embedding of [app.py]

    The development follows the pipeline of [process_packing_slips_and_labels]:
    page text is parsed into line items ([extract_product_details]), every item
    is resolved to a warehouse area ([get_warehouse_area]), the areas of a page
    are composed into a label ([determine_area_identifier]), kept pages are
    sorted with [sort_key], the label deck is replayed through the sorted
    indices, and the manifest is aggregated by [generate_summary] and
    [create_summary_pdf_page].  Beside the pipeline stand the loader of the
    warehouse map ([load_warehouse_map_dict]) and [extract_first_product].

    Text is modelled as [string] (a sequence of 8-bit characters).  The
    Python string methods and the patterns are modelled for ASCII text, the
    characters below 128: there [strip], [lower], [upper], [int], [\s] and
    [\d] are as in Python.  Outside ASCII Python strips further white space
    (the no-break space and others), changes the case of further letters and
    reads further digits, which this model does not: the statements that rest
    on these methods carry the hypothesis that the text is ASCII
    ([ascii_text]).  Byte-wise lexicographic comparison ([String.compare]) is
    the code-point order of Python on such text. *)

From Stdlib Require Import ZArith Ascii String List Bool Lia Sorted Permutation.
From stdpp Require Import base decidable option list sorting gmap strings pretty.

#[local] Set Warnings "-clear-no-such-hyp".

Local Open Scope string_scope.
Local Open Scope list_scope.

(** ** Python string methods *)

Module Py.

Definition code (c : ascii) : N := N_of_ascii c.

Definition in_range (lo hi : N) (c : ascii) : bool :=
  (lo <=? code c)%N && (code c <=? hi)%N.

(** [str.isspace] on the ASCII range: TAB..CR, FS..US and the blank. *)
Definition is_space (c : ascii) : bool := in_range 9 13 c || in_range 28 32 c.

Definition is_digit (c : ascii) : bool := in_range 48 57 c.

Definition lower_char (c : ascii) : ascii :=
  if in_range 65 90 c then ascii_of_N (code c + 32) else c.

Definition upper_char (c : ascii) : ascii :=
  if in_range 97 122 c then ascii_of_N (code c - 32) else c.

Fixpoint map_chars (f : ascii -> ascii) (s : string) : string :=
  match s with
  | EmptyString => EmptyString
  | String c s' => String (f c) (map_chars f s')
  end.

(** [s.lower()], [s.upper()] *)
Definition lower : string -> string := map_chars lower_char.
Definition upper : string -> string := map_chars upper_char.

Fixpoint lstrip (s : string) : string :=
  match s with
  | String c s' => if is_space c then lstrip s' else s
  | EmptyString => EmptyString
  end.

Definition rstrip (s : string) : string := String.rev (lstrip (String.rev s)).

(** [s.strip()] *)
Definition strip (s : string) : string := rstrip (lstrip s).

(** [needle in hay] *)
Fixpoint contains (needle hay : string) : bool :=
  String.prefix needle hay ||
  match hay with
  | EmptyString => false
  | String _ hay' => contains needle hay'
  end.

(** [s.split(sep)] for a one-character separator: never the empty list. *)
Fixpoint split (sep : ascii) (s : string) : list string :=
  match s with
  | EmptyString => [EmptyString]
  | String c s' =>
      if Ascii.eqb c sep then EmptyString :: split sep s'
      else match split sep s' with
           | w :: ws => String c w :: ws
           | [] => [String c EmptyString]
           end
  end.

(** [sep.join(l)] *)
Definition join (sep : string) (l : list string) : string := String.concat sep l.

(** [s.replace(old, new)] for a non-empty [old]: the occurrences are replaced
    from the left and do not overlap; [skip] counts the characters of a
    matched occurrence that are still to be dropped. *)
Fixpoint replace_go (old new : string) (skip : nat) (s : string) : string :=
  match s with
  | EmptyString => EmptyString
  | String c s' =>
      match skip with
      | S n => replace_go old new n s'
      | O =>
          if String.prefix old s
          then new ++ replace_go old new (String.length old - 1) s'
          else String c (replace_go old new 0 s')
      end
  end.

Definition replace (old new s : string) : string := replace_go old new 0 s.

Definition digit_value (c : ascii) : Z := Z.of_N (code c - 48).

(** The digits of a decimal literal, where single underscores may separate
    digits: [prev] tells whether the previous character was a digit. *)
Fixpoint int_digits (acc : Z) (prev : bool) (s : string) : option Z :=
  match s with
  | EmptyString => if prev then Some acc else None
  | String c s' =>
      if is_digit c then int_digits (10 * acc + digit_value c) true s'
      else if Ascii.eqb c "_" then (if prev then int_digits acc false s' else None)
      else None
  end.

(** The white space that [int] skips around an ASCII numeral: TAB..CR and
    the blank, but not FS..US, which [strip] removes. *)
Definition is_int_space (c : ascii) : bool := in_range 9 13 c || in_range 32 32 c.

Fixpoint skip (p : ascii -> bool) (s : string) : string :=
  match s with
  | String c s' => if p c then skip p s' else s
  | EmptyString => EmptyString
  end.

Definition int_strip (s : string) : string :=
  String.rev (skip is_int_space (String.rev (skip is_int_space s))).

Fixpoint count_digits (s : string) : Z :=
  match s with
  | EmptyString => 0
  | String c s' => (if is_digit c then 1 else 0) + count_digits s'
  end.

(** [sys.int_info.default_max_str_digits]: a numeral with more digits is
    refused. *)
Definition max_str_digits : Z := 4300.

(** [int(s)]: [None] stands for [ValueError]. *)
Definition int (s : string) : option Z :=
  let numeral := int_strip s in
  if (max_str_digits <? count_digits numeral)%Z then None
  else
    match numeral with
    | String "+" d => int_digits 0 false d
    | String "-" d => Z.opp <$> int_digits 0 false d
    | d => int_digits 0 false d
    end.

(** [str(n)] for an integer *)
Definition str (n : Z) : string := pretty n.

(** [x in l] for a list of strings *)
Definition mem (x : string) (l : list string) : bool := bool_decide (x ∈ l).

(** [l.index(x)], [None] when absent *)
Fixpoint index (x : string) (l : list string) : option nat :=
  match l with
  | [] => None
  | y :: l' => if String.eqb y x then Some 0 else S <$> index x l'
  end.

End Py.

(** ** The fragment of [re] the parser uses *)

Module Re.

Inductive regex : Type :=
| Lit (s : string)                 (* literal text *)
| Plus (p : ascii -> bool)         (* greedy [c+] over a character class *)
| Seq (r1 r2 : regex)
| Opt (r : regex)                  (* greedy [(?:r)?] *)
| Group (n : nat) (r : regex).     (* capturing group number [n] *)

Definition captures := list (nat * string).

Definition consumed (s rest : string) : string :=
  String.substring 0 (String.length s - String.length rest) s.

Section Matcher.
Context {A : Type}.

(** One or more characters of the class, longest first. *)
Fixpoint plus (p : ascii -> bool) (s : string) (k : string -> option A) : option A :=
  match s with
  | String c s' =>
      if p c
      then match plus p s' k with
           | Some a => Some a
           | None => k s'
           end
      else None
  | EmptyString => None
  end.

Fixpoint drop_prefix (l s : string) : option string :=
  match l, s with
  | EmptyString, _ => Some s
  | String a l', String b s' => if Ascii.eqb a b then drop_prefix l' s' else None
  | String _ _, EmptyString => None
  end.

(** Backtracking matcher in continuation-passing style: [k] receives the
    rest of the subject and the groups captured so far. *)
Fixpoint run (r : regex) (s : string) (cs : captures)
    (k : string -> captures -> option A) : option A :=
  match r with
  | Lit l => match drop_prefix l s with Some s' => k s' cs | None => None end
  | Plus p => plus p s (fun s' => k s' cs)
  | Seq r1 r2 => run r1 s cs (fun s' cs' => run r2 s' cs' k)
  | Opt r' =>
      match run r' s cs k with
      | Some a => Some a
      | None => k s cs
      end
  | Group n r' => run r' s cs (fun s' cs' => k s' ((n, consumed s s') :: cs'))
  end.
End Matcher.

(** [re.match(r, s)]: anchored at the start of [s]. *)
Definition match_ (r : regex) (s : string) : option captures :=
  run r s [] (fun _ cs => Some cs).

(** [re.search(r, s)]: the leftmost match. *)
Fixpoint search (r : regex) (s : string) : option captures :=
  match match_ r s with
  | Some cs => Some cs
  | None => match s with
            | EmptyString => None
            | String _ s' => search r s'
            end
  end.

(** [m.group(n)] of a group that took part in the match *)
Definition group (n : nat) (cs : captures) : string :=
  match List.find (fun c => Nat.eqb (fst c) n) cs with
  | Some c => snd c
  | None => EmptyString
  end.

Definition space : ascii -> bool := Py.is_space.
Definition nonspace (c : ascii) : bool := negb (Py.is_space c).
Definition digit : ascii -> bool := Py.is_digit.

End Re.

Infix "⋅" := Re.Seq (at level 41, right associativity).

(** ** Configuration *)

(** The desired order of areas. *)
Definition AREA_SORT_ORDER : list string :=
  ["A13"; "D16"; "B11"; "B12"; "B13"; "B14"; "B16"; "B17"; "B18"; "B19"; "garage"].

(** A line item: [(product_title, size, quantity)], all three as text. *)
Definition item : Type := string * string * string.

Definition item_title (it : item) : string := fst (fst it).
Definition item_size (it : item) : string := snd (fst it).
Definition item_quantity (it : item) : string := snd it.

(** ** Line-oriented product parser: [extract_product_details] *)

Definition acceptable_sizes : list string :=
  ["1"; "2"; "S"; "M"; "L"; "SM"; "ML"; "LG"; "Size 1"; "Size 2"; "Sample"]
  ++ map (fun n => Py.str (Z.of_nat n)) (seq 30 21).

Definition stop_phrases : list string :=
  ["Please note our return window";
   "Thank you for shopping with us!";
   "If you have any questions";
   "NOTES";
   "SIGNATURE REQUIRED SHIPPING";
   "please visit our returns portal";
   "yourcompany.com"].

(** [(\S+(?:\s+\d+)?)\s+(\d+)\s+of\s+\d+] *)
Definition size_quantity_re : Re.regex :=
  Re.Group 1 (Re.Plus Re.nonspace ⋅ Re.Opt (Re.Plus Re.space ⋅ Re.Plus Re.digit))
  ⋅ Re.Plus Re.space ⋅ Re.Group 2 (Re.Plus Re.digit)
  ⋅ Re.Plus Re.space ⋅ Re.Lit "of" ⋅ Re.Plus Re.space ⋅ Re.Plus Re.digit.

(** [size\s+(\d+)] *)
Definition title_size_re : Re.regex :=
  Re.Lit "size" ⋅ Re.Plus Re.space ⋅ Re.Group 1 (Re.Plus Re.digit).

(** [^LB] *)
Definition sku_prefix_re : Re.regex := Re.Lit "LB".

Definition is_stop (product_title : string) : bool :=
  match product_title with
  | EmptyString => true
  | _ => existsb (fun stop_phrase => Py.contains stop_phrase product_title) stop_phrases
  end.

(** The size and quantity read off the size line, [None] when neither the
    pattern nor the bare-size test gives a size. *)
Definition size_of_line (size_line : string) : option (string * string) :=
  match Re.match_ size_quantity_re size_line with
  | Some m =>
      let size_candidate := Re.group 1 m in
      let quantity_candidate := Re.group 2 m in
      if Py.mem size_candidate acceptable_sizes
      then Some (size_candidate, quantity_candidate) else None
  | None =>
      if Py.mem size_line acceptable_sizes then Some (size_line, "1") else None
  end.

(** The fallback for sample products whose size line gave nothing. *)
Definition size_of_sample_title (product_title_normalized : string) : string * string :=
  match Re.search title_size_re product_title_normalized with
  | Some m => (Re.group 1 m, "1")
  | None => ("Sample", "1")
  end.

Definition is_sku_line (line : string) : bool :=
  Py.contains "SKU" line || bool_decide (is_Some (Re.match_ sku_prefix_re (Py.strip line))).

Definition nonempty (s : string) : bool :=
  match s with EmptyString => false | _ => true end.

(** The inner loop over the lines that follow the ITEMS marker; the argument
    is [lines[i:]]. *)
Fixpoint items_section (warehouse_map : gmap string string) (lines : list string)
    : list item :=
  match lines with
  | [] => []
  | title_line :: after_title =>
      let product_title := Py.strip title_line in
      if is_stop product_title then []
      else
        let product_title_normalized := Py.strip (Py.lower product_title) in
        let is_sample := Py.contains "sample" product_title_normalized in
        if negb (bool_decide (is_Some (warehouse_map !! product_title_normalized)))
           && negb is_sample
        then items_section warehouse_map after_title
        else
          match after_title with
          | [] => []
          | raw_size_line :: after_size =>
              let size_line := Py.strip raw_size_line in
              let found :=
                match size_of_line size_line with
                | Some sq => Some sq
                | None =>
                    if is_sample then Some (size_of_sample_title product_title_normalized)
                    else None
                end in
              match found with
              | None => items_section warehouse_map after_size
              | Some (size, quantity) =>
                  let keep :=
                    nonempty product_title && nonempty size && nonempty quantity in
                  let this := if keep then [(product_title, size, quantity)] else [] in
                  match after_size with
                  | sku :: after_sku =>
                      if is_sku_line sku
                      then this ++ items_section warehouse_map after_sku
                      else this ++ items_section warehouse_map after_size
                  | [] => this
                  end
              end
          end
  end.

(** The outer loop: only the first line that contains ITEMS opens a section. *)
Fixpoint find_items_section (warehouse_map : gmap string string) (lines : list string)
    : list item :=
  match lines with
  | [] => []
  | line :: rest =>
      if Py.contains "ITEMS" (Py.strip line)
      then items_section warehouse_map rest
      else find_items_section warehouse_map rest
  end.

Definition extract_product_details (text : string) (warehouse_map : gmap string string)
    : list item :=
  find_items_section warehouse_map (Py.split "010" text).

(** ** Area resolver: [get_warehouse_area] *)

Definition get_warehouse_area (product : string) (warehouse_map : gmap string string)
    : string :=
  if Py.contains "sample" (Py.lower product) then "garage"
  else match warehouse_map !! product with
       | Some area => area
       | None => "Unknown Area"
       end.

(** ** Python's [sorted(l, key=...)]

    [sorted] is a stable sort on the keys.  A stable sort of a list by a total
    order of the keys has one possible result ([sorted_is_the_stable_sort]
    below), which insertion from the right computes: an element goes in front
    of the first later element whose key is not smaller. *)

Section Sorted.
Context {A K : Type} (leb : K -> K -> bool) (key : A -> K).

Fixpoint insert_by (x : A) (l : list A) : list A :=
  match l with
  | [] => [x]
  | y :: l' => if leb (key x) (key y) then x :: l else y :: insert_by x l'
  end.

Fixpoint sorted (l : list A) : list A :=
  match l with
  | [] => []
  | x :: l' => insert_by x (sorted l')
  end.

(** The order of two elements by their keys. *)
Definition key_le (x y : A) : Prop := leb (key x) (key y) = true.
End Sorted.

(** [x] has the key [k]. *)
Definition same_key {A K : Type} `{EqDecision K} (key : A -> K) (k : K) (x : A) : bool :=
  bool_decide (key x = k).

(** Order of [(int, str)] and [(str, int)] tuples: lexicographic. *)
Definition nat_str_leb (a b : nat * string) : bool :=
  (fst a <? fst b)%nat || ((fst a =? fst b)%nat && String.leb (snd a) (snd b)).

Definition str_int_leb (a b : string * Z) : bool :=
  String.ltb (fst a) (fst b) || (String.eqb (fst a) (fst b) && (snd a <=? snd b)%Z).

(** ** Area identifier composer: [determine_area_identifier] *)

(** [sorted(s)] for a set of strings *)
Definition sorted_set (s : gset string) : list string :=
  sorted String.leb id (elements s).

Definition determine_area_identifier (product_areas : gset string) : string :=
  if bool_decide ("B16" ∈ product_areas) && (1 <? size product_areas)%nat
  then
    let other_areas := product_areas ∖ {["B16"]} in
    Py.join ", " (sorted_set other_areas)
  else Py.join ", " (sorted_set product_areas).

(** ** Multi-key sort engine: [get_primary_area] and [sort_key] *)

Definition get_primary_area (area_identifier : string) : string :=
  Py.strip (hd EmptyString (Py.split "," area_identifier)).

Definition area_sort_value (primary_area : string) : nat :=
  match Py.index primary_area AREA_SORT_ORDER with
  | Some i => i
  | None => length AREA_SORT_ORDER
  end.

(** An entry of [pages_with_info]:
    [(page, area_identifier, index, product_title)]. *)
Definition page_info (Page : Type) : Type := Page * string * nat * string.

Section PageInfo.
Context {Page : Type}.

Definition info_page (it : page_info Page) : Page := fst (fst (fst it)).
Definition info_area_identifier (it : page_info Page) : string := snd (fst (fst it)).
Definition info_index (it : page_info Page) : nat := snd (fst it).
Definition info_product_title (it : page_info Page) : string := snd it.

Definition sort_key (it : page_info Page) : nat * string :=
  let primary_area := get_primary_area (info_area_identifier it) in
  (area_sort_value primary_area, info_product_title it).
End PageInfo.

(** ** Summary aggregator *)

Definition letter_sizes_order : list (string * Z) :=
  [("XS", 1); ("S", 2); ("M", 3); ("L", 4); ("XL", 5); ("XXL", 6)]%Z.

Definition size_sort_key (size : string) : Z :=
  let size_clean := Py.strip (Py.lower size) in
  let as_size_n :=
    if String.prefix "size " size_clean
    then Py.int (Py.strip (Py.replace "size " "" size_clean))
    else None in
  match as_size_n with
  | Some num => num
  | None =>
      match Py.int size_clean with
      | Some num => num
      | None =>
          let size_upper := Py.upper size in
          match List.find (fun e => String.eqb (fst e) size_upper) letter_sizes_order with
          | Some e => snd e
          | None => 100%Z
          end
      end
  end.

(** [unique_products]: a dict keyed by [(product_title, size)]; Python dicts
    keep insertion order and [+=] on a present key keeps its place. *)
Definition unique_products_t : Type := list ((string * string) * Z).

Fixpoint add_quantity (k : string * string) (q : Z) (d : unique_products_t)
    : unique_products_t :=
  match d with
  | [] => [(k, q)]
  | (k', q') :: d' =>
      if bool_decide (k' = k) then (k', (q' + q)%Z) :: d'
      else (k', q') :: add_quantity k q d'
  end.

(** The loop over [sorted_products]: an entry whose quantity is not an integer
    literal is skipped. *)
Fixpoint merge_products (sorted_products : list item) (unique_products : unique_products_t)
    : unique_products_t :=
  match sorted_products with
  | [] => unique_products
  | (product_title, size, quantity) :: rest =>
      match Py.int quantity with
      | None => merge_products rest unique_products
      | Some quantity_int =>
          merge_products rest (add_quantity (product_title, size) quantity_int unique_products)
      end
  end.

Definition product_sort_key (x : item) : string * Z :=
  (Py.lower (item_title x), size_sort_key (item_size x)).

Definition unique_products_of (products : list item) : unique_products_t :=
  merge_products (sorted str_int_leb product_sort_key products) [].

(** The table of one area: the header row, then one row per merged product. *)
Definition area_table (products : list item) : list (list string) :=
  ["Product Title"; "Size"; "Quantity"]
  :: map (fun e => [fst (fst e); snd (fst e); Py.str (snd e)]) (unique_products_of products).

(** A manifest section: the area it is for, its heading and its table. *)
Record area_section : Type := AreaSection {
  section_area : string;
  section_title : string;
  section_table : list (list string)
}.

Definition area_title (area : string) : string :=
  if String.eqb (Py.lower area) "garage" then "Garage" else "Locker: " ++ area.

(** The [elements] that [create_summary_pdf_page] hands to the document
    builder: one section per area of [AREA_SORT_ORDER] that has a bucket and
    a non-empty table. *)
Definition summary_elements (summary_data : gmap string (list item)) : list area_section :=
  flat_map (fun area =>
    match summary_data !! area with
    | Some products =>
        let data := area_table products in
        if (1 <? length data)%nat
        then [AreaSection area (area_title area) data]
        else []
    | None => []
    end) AREA_SORT_ORDER.

(** ** The run: [process_packing_slips_and_labels]

    A run is modelled by what it does to the outside: the error pop-ups it
    shows, the files it writes and the files it opens, in order.  The page
    objects of the PDF library, the overlay of the area identifier on a page
    and the rendering of the manifest are collaborators and stay abstract.
    Both input files are taken to be readable; the packing-slip deck comes
    with the text of every page, the label deck is a list of pages.  Status
    lines and log records are left out.  So are the pop-ups that
    [extract_text_from_page] and [add_area_identifier_to_page] show when
    they fail, and the print dialogue that follows the opening of the two
    files: of a run the model tells which files it writes and opens, with
    which pages and in which order, and the pop-ups of the run's own checks. *)

Definition nl : string := String "010" EmptyString.

(** What the operating system answers during one run. *)
Record environment : Type := Environment {
  save_path : string;                      (* [window['-SAVE_PATH-'].get()] *)
  save_path_exists : bool;                 (* [os.path.exists(save_path)] *)
  makedirs_error : option string;          (* the exception of [os.makedirs], if any *)
  slips_write_error : option string;       (* the exception of the first write, if any *)
  labels_write_error : option string       (* the exception of the second write, if any *)
}.

(** [os.path.join(directory, name)] for a relative [name] *)
Definition path_join (directory name : string) : string :=
  match directory with
  | EmptyString => name
  | _ =>
      if String.prefix "/" (String.rev directory)
      then directory ++ name
      else directory ++ "/" ++ name
  end.

(** [str(l)] for a list of page indices *)
Definition str_indices (l : list nat) : string :=
  "[" ++ Py.join ", " (map (fun i => Py.str (Z.of_nat i)) l) ++ "]".

Section Pipeline.
Context {Page : Type}.

(** [add_area_identifier_to_page(page, area_identifier)]: the page it
    returns, which is the page as it was when the overlay fails; the pop-up
    of a failed overlay is not an event of the model. *)
Variable add_area_identifier_to_page : Page -> string -> Page.

(** [doc.build(elements)] followed by reading the pages back: the pages of
    the manifest, or the message of the exception. *)
Variable build_summary_pdf : list area_section -> list Page + string.

Inductive event : Type :=
| PopupError (message : string)
| MakeDirs (path : string)
| WriteFile (path : string) (pages : list Page)
| WriteFailed (path : string)
| OpenFile (path : string).

(** How a step ends: it falls through to the next statement, executes
    [return], or raises. *)
Inductive flow (A : Type) : Type :=
| Next (a : A)
| Return
| Raise (e : string).
Global Arguments Next {A} a.
Global Arguments Return {A}.
Global Arguments Raise {A} e.

Definition Proc (A : Type) : Type := flow A * list event.

Definition proc_ret {A} (a : A) : Proc A := (Next a, []).

Definition proc_bind {A B} (m : Proc A) (k : A -> Proc B) : Proc B :=
  match fst m with
  | Next a => (fst (k a), snd m ++ snd (k a))
  | Return => (Return, snd m)
  | Raise e => (Raise e, snd m)
  end.

Definition emit (ev : event) : Proc unit := (Next tt, [ev]).
Definition popup_error (message : string) : Proc unit := emit (PopupError message).
Definition return_ {A} : Proc A := (Return, []).
Definition raise {A} (e : string) : Proc A := (Raise e, []).

(** [try: m except Exception as e: handler(e)] *)
Definition try_except {A} (m : Proc A) (handler : string -> Proc A) : Proc A :=
  match fst m with
  | Raise e => (fst (handler e), snd m ++ snd (handler e))
  | _ => m
  end.

(** [with open(path, 'wb') as f: writer.write(f)] *)
Definition write_pdf (path : string) (pages : list Page) (error : option string)
    : Proc unit :=
  match error with
  | None => emit (WriteFile path pages)
  | Some e => proc_bind (emit (WriteFailed path)) (fun _ => raise e)
  end.

Definition open_file_mac (file_path : string) : Proc unit := emit (OpenFile file_path).

#[local] Instance proc_mret : MRet Proc := @proc_ret.
#[local] Instance proc_mbind : MBind Proc := fun A B k m => proc_bind m k.

(** [save_pdf(writer, output_path)]: the exception of a failed write is
    caught here, shown in a pop-up and logged; the caller goes on. *)
Definition save_pdf (pages : list Page) (output_path : string) (error : option string)
    : Proc unit :=
  try_except (write_pdf output_path pages error)
    (fun e => popup_error ("Error saving PDF:" ++ nl ++ e)).

(** The packing-slip deck: every page with the text that
    [extract_text_from_page] returns for it.  A failed extraction returns
    the empty text; the pop-up it shows is not an event of the model. *)
Abbreviation slip_deck := (list (Page * string)).

Definition extract_text_from_page (deck : slip_deck) (page_number : nat) : string :=
  match deck !! page_number with
  | Some p => snd p
  | None => EmptyString
  end.

Definition normalized_title (it : item) : string := Py.strip (Py.lower (item_title it)).

(** *** Step 2: which pages are kept *)

Definition page_areas (warehouse_map : gmap string string) (product_details : list item)
    : gset string :=
  foldl (fun product_areas it =>
           product_areas ∪ {[get_warehouse_area (normalized_title it) warehouse_map]})
        ∅ product_details.

Definition has_samples (product_details : list item) : bool :=
  existsb (fun detail => Py.contains "sample" (Py.lower (item_title detail))) product_details.

(** The three lists the loop appends to. *)
Record selection : Type := Selection {
  pages_to_keep : list Page;
  indices_to_keep : list nat;
  page_areas_list : list (gset string)
}.

(** One iteration of [for idx in range(total_pages)]. *)
Definition select_page (warehouse_map : gmap string string) (deck : slip_deck)
    (sel : selection) (idx : nat) : selection :=
  match deck !! idx with
  | None => sel
  | Some (page, text) =>
      let product_details := extract_product_details text warehouse_map in
      match product_details with
      | [] => sel                                       (* no valid products *)
      | _ =>
          let product_areas := page_areas warehouse_map product_details in
          if bool_decide (product_areas = ∅) && negb (has_samples product_details)
          then sel                                      (* no areas, no samples *)
          else Selection (pages_to_keep sel ++ [page])
                         (indices_to_keep sel ++ [idx])
                         (page_areas_list sel ++ [product_areas])
      end
  end.

Definition select_pages (warehouse_map : gmap string string) (deck : slip_deck)
    : selection :=
  foldl (select_page warehouse_map deck) (Selection [] [] []) (seq 0 (length deck)).

(** *** Step 3: [generate_summary] and [create_summary_pdf_page] *)

Definition add_to_summary (warehouse_map : gmap string string)
    (summary_data : gmap string (list item)) (it : item) : gmap string (list item) :=
  let area := get_warehouse_area (normalized_title it) warehouse_map in
  <[area := default [] (summary_data !! area) ++ [it]]> summary_data.

Definition collect_summary_data (warehouse_map : gmap string string) (deck : slip_deck)
    (indices_to_keep : list nat) : gmap string (list item) :=
  foldl (fun summary_data idx =>
           let text := extract_text_from_page deck idx in
           foldl (add_to_summary warehouse_map) summary_data
                 (extract_product_details text warehouse_map))
        ∅ indices_to_keep.

Definition create_summary_pdf_page (summary_data : gmap string (list item))
    : Proc (list Page) :=
  let elements := summary_elements summary_data in
  match elements with
  | [] => mret []
  | _ =>
      match build_summary_pdf elements with
      | inl summary_pages => mret summary_pages
      | inr e => popup_error ("Error generating summary PDF:" ++ nl ++ e);; mret []
      end
  end.

Definition generate_summary (warehouse_map : gmap string string) (deck : slip_deck)
    (indices_to_keep : list nat) : Proc (list Page) :=
  create_summary_pdf_page (collect_summary_data warehouse_map deck indices_to_keep).

(** *** Steps 4 and 5: annotation and sorting *)

Definition area_identifiers_of (page_areas_list : list (gset string)) : list string :=
  map determine_area_identifier page_areas_list.

Definition annotate_pages (pages_to_keep : list Page) (page_areas_list : list (gset string))
    : list Page :=
  map (fun pa => add_area_identifier_to_page (fst pa) (determine_area_identifier (snd pa)))
      (zip pages_to_keep page_areas_list).

Definition primary_product (warehouse_map : gmap string string) (deck : slip_deck)
    (idx : nat) : string :=
  match extract_product_details (extract_text_from_page deck idx) warehouse_map with
  | first :: _ => normalized_title first
  | [] => EmptyString
  end.

Definition zip4 (pages : list Page) (areas : list string) (indices : list nat)
    (titles : list string) : list (page_info Page) :=
  zip (zip (zip pages areas) indices) titles.

Definition pages_with_info (warehouse_map : gmap string string) (deck : slip_deck)
    (sel : selection) : list (page_info Page) :=
  zip4 (annotate_pages (pages_to_keep sel) (page_areas_list sel))
       (area_identifiers_of (page_areas_list sel))
       (indices_to_keep sel)
       (map (primary_product warehouse_map deck) (indices_to_keep sel)).

Definition pages_with_info_sorted (warehouse_map : gmap string string) (deck : slip_deck)
    (sel : selection) : list (page_info Page) :=
  sorted nat_str_leb sort_key (pages_with_info warehouse_map deck sel).

(** *** Step 7: the label deck replayed through the sorted indices *)

Definition pick_labels (labels : list Page) (sorted_indices : list nat) : list Page :=
  omap (fun page_index =>
          if bool_decide (page_index < length labels) then labels !! page_index else None)
       sorted_indices.

Definition sorted_packing_slips_path (env : environment) : string :=
  path_join (save_path env) "sorted_packing_slips.pdf".

Definition sorted_shipping_labels_path (env : environment) : string :=
  path_join (save_path env) "sorted_shipping_labels.pdf".

(** The message of line 568; its characters outside ASCII are held as their
    UTF-8 bytes. *)
Definition no_valid_products_message : string :=
  "No valid products found. This could mean:" ++ nl
  ++ "â€¢ No products in warehouse map" ++ nl
  ++ "â€¢ No sample products detected" ++ nl
  ++ "â€¢ All pages filtered out due to parsing errors".

(** *** The body of the [try] block *)

Definition process_body (env : environment) (deck : slip_deck) (labels : list Page)
    (warehouse_map : gmap string string) : Proc unit :=
  (if negb (nonempty (save_path env))
   then popup_error "Please select a directory to save the output files.";; return_
   else mret tt);;
  (if negb (save_path_exists env)
   then match makedirs_error env with
        | None => emit (MakeDirs (save_path env))
        | Some e =>
            popup_error ("Failed to create directory " ++ save_path env ++ ":" ++ nl ++ e);;
            return_
        end
   else mret tt);;
  (* Step 1 *)
  let total_pages := length deck in
  (if (total_pages =? 0)%nat
   then popup_error "The packing slips PDF is empty.";; return_
   else mret tt);;
  (* Step 2 *)
  let sel := select_pages warehouse_map deck in
  (match pages_to_keep sel with
   | [] => popup_error no_valid_products_message;; return_
   | _ => mret tt
   end);;
  (* Step 3 *)
  summary_pages ← generate_summary warehouse_map deck (indices_to_keep sel);
  (* Steps 4 and 5 *)
  let info_sorted := pages_with_info_sorted warehouse_map deck sel in
  let sorted_pages := map info_page info_sorted in
  let sorted_indices := map info_index info_sorted in
  (* Step 6 *)
  save_pdf (summary_pages ++ sorted_pages) (sorted_packing_slips_path env)
           (slips_write_error env);;
  (* Step 7 *)
  (if negb (length labels =? total_pages)%nat
   then popup_error
          "The number of shipping labels does not match the number of packing slips.";;
        return_
   else mret tt);;
  let invalid_indices :=
    List.filter (fun i => negb (i <? length labels)%nat) sorted_indices in
  (match invalid_indices with
   | [] => mret tt
   | _ =>
       popup_error ("Error processing shipping labels:" ++ nl
                    ++ "Invalid shipping label indices found: "
                    ++ str_indices invalid_indices ++ ". Max valid index: "
                    ++ Py.str (Z.of_nat (length labels) - 1));;
       return_
   end);;
  write_pdf (sorted_shipping_labels_path env) (pick_labels labels sorted_indices)
            (labels_write_error env);;
  open_file_mac (sorted_packing_slips_path env);;
  open_file_mac (sorted_shipping_labels_path env).

(** The whole function: what the run shows, writes and opens.  The print
    dialogue that follows the opening of the two files is not modelled. *)
Definition process_packing_slips_and_labels (env : environment) (deck : slip_deck)
    (labels : list Page) (warehouse_map : gmap string string) : list event :=
  snd (try_except (process_body env deck labels warehouse_map)
         (fun e => popup_error ("An error occurred during processing:" ++ nl ++ e))).

End Pipeline.

(** ** Warehouse map loader: [load_warehouse_map_dict]

    The argument is the list of rows that [csv.reader] yields for a readable
    file; the first row is the header. *)

Definition load_row (warehouse_map : gmap string string) (row : list string)
    : gmap string string :=
  match row with
  | product :: area :: _ =>
      let product_normalized := Py.lower (Py.strip product) in
      <[product_normalized := Py.strip area]> warehouse_map
  | _ => warehouse_map
  end.

Definition load_warehouse_map_dict (rows : list (list string)) : gmap string string :=
  foldl load_row ∅ (tail rows).

(** ** First product of a packing slip: [extract_first_product] *)

Fixpoint first_product_loop (product_section_started : bool) (lines : list string)
    : option string :=
  match lines with
  | [] => None
  | line :: rest =>
      let line := Py.strip line in
      if Py.contains "ITEMS" line then first_product_loop true rest
      else if product_section_started && nonempty line
           then Some (Py.strip (Py.lower line))
           else first_product_loop product_section_started rest
  end.

Definition extract_first_product (text : string) : option string :=
  first_product_loop false (Py.split "010" text).

(** ** Notions used in the statements *)

(** The areas that are written on a page with the area set [s]. *)
Definition composed_areas (s : gset string) : gset string :=
  if decide ("B16" ∈ s /\ 1 < size s) then s ∖ {["B16"]} else s.




Section Kept.
Context {Page : Type}.

(** What one iteration of the selection loop appends: the page, its index
    and its area set, or nothing when the page is dropped. *)
Definition kept_entry (warehouse_map : gmap string string) (deck : list (Page * string))
    (idx : nat) : option (Page * nat * gset string) :=
  match deck !! idx with
  | None => None
  | Some (page, text) =>
      let product_details := extract_product_details text warehouse_map in
      match product_details with
      | [] => None
      | _ =>
          let product_areas := page_areas warehouse_map product_details in
          if bool_decide (product_areas = ∅) && negb (has_samples product_details)
          then None
          else Some (page, idx, product_areas)
      end
  end.

Definition kept (warehouse_map : gmap string string) (deck : list (Page * string))
    : list (Page * nat * gset string) :=
  omap (kept_entry warehouse_map deck) (seq 0 (length deck)).

(** The items parsed from page [idx], and the label written on it. *)
Definition page_items (warehouse_map : gmap string string) (deck : list (Page * string))
    (idx : nat) : list item :=
  extract_product_details (extract_text_from_page deck idx) warehouse_map.

Definition page_label (warehouse_map : gmap string string) (deck : list (Page * string))
    (idx : nat) : string :=
  determine_area_identifier (page_areas warehouse_map (page_items warehouse_map deck idx)).
End Kept.

Section Plan.
Context {Page : Type}.
Variable add_area_identifier_to_page : Page -> string -> Page.

(** The entry of [pages_with_info] that a kept page gives. *)
Definition info_of (warehouse_map : gmap string string) (deck : list (Page * string))
    (e : Page * nat * gset string) : page_info Page :=
  (add_area_identifier_to_page (fst (fst e)) (determine_area_identifier (snd e)),
   determine_area_identifier (snd e),
   snd (fst e),
   primary_product warehouse_map deck (snd (fst e))).
End Plan.

(** Every entry of the manifest data sits in the bucket of its own area and
    satisfies [Φ]. *)
Definition bucketed (warehouse_map : gmap string string) (Φ : item -> Prop)
    (summary_data : gmap string (list item)) : Prop :=
  forall area products it,
    summary_data !! area = Some products -> it ∈ products ->
    get_warehouse_area (normalized_title it) warehouse_map = area /\ Φ it.

(** The key under which a manifest entry is merged. *)
Definition item_key (it : item) : string * string := (item_title it, item_size it).

(** The quantities of the entries of [products] with the key [k] whose
    quantity text is an integer literal, in order. *)
Definition valid_quantities (k : string * string) (products : list item) : list Z :=
  omap (fun it => if decide (item_key it = k) then Py.int (item_quantity it) else None)
       products.

Definition sum_Z (l : list Z) : Z := foldr Z.add 0%Z l.

(** [d] is the merge of the entries [seen]. *)
Definition merged (d : unique_products_t) (seen : list item) : Prop :=
  NoDup (map fst d) /\
  forall k q, (k, q) ∈ d <->
              valid_quantities k seen <> [] /\ q = sum_Z (valid_quantities k seen).

Definition table_header : list string := ["Product Title"; "Size"; "Quantity"].

Definition table_row (e : (string * string) * Z) : list string :=
  [fst (fst e); snd (fst e); Py.str (snd e)].

Section Trace.
Context {Page : Type}.

Definition is_popup (ev : @event Page) : Prop := exists message, ev = PopupError message.

(** The events that write or open a file. *)
Definition touches_file (ev : @event Page) : bool :=
  match ev with
  | WriteFile _ _ | WriteFailed _ | OpenFile _ => true
  | PopupError _ | MakeDirs _ => false
  end.

(** What step 6 does. *)
Definition slips_events (env : environment) (pages : list Page) : list (@event Page) :=
  match slips_write_error env with
  | None => [WriteFile (sorted_packing_slips_path env) pages]
  | Some e =>
      [WriteFailed (sorted_packing_slips_path env);
       PopupError ("Error saving PDF:" ++ nl ++ e)]
  end.

(** What step 7 does once the sorted indices are known to be in range. *)
Definition labels_events (env : environment) (total_pages : nat) (labels : list Page)
    (sorted_indices : list nat) : list (@event Page) :=
  if negb (length labels =? total_pages)%nat
  then [PopupError
          "The number of shipping labels does not match the number of packing slips."]
  else
    match labels_write_error env with
    | None =>
        [WriteFile (sorted_shipping_labels_path env) (pick_labels labels sorted_indices);
         OpenFile (sorted_packing_slips_path env);
         OpenFile (sorted_shipping_labels_path env)]
    | Some e =>
        [WriteFailed (sorted_shipping_labels_path env);
         PopupError ("An error occurred during processing:" ++ nl ++ e)]
    end.
End Trace.

Section Prepend.
Context {Page : Type} {A : Type}.

(** [m] after the events [evs]. *)
Definition prepend (evs : list (@event Page)) (m : @Proc Page A) : @Proc Page A :=
  (fst m, evs ++ snd m).
End Prepend.

Definition mismatch_message : string :=
  "The number of shipping labels does not match the number of packing slips.".
(** ** Further notions used in the statements *)

(** Every character of [s] is in the class [p]. *)
Fixpoint all_chars (p : ascii -> bool) (s : string) : bool :=
  match s with
  | EmptyString => true
  | String c s' => p c && all_chars p s'
  end.

(** A non-empty string of decimal digits. *)
Definition digit_string (s : string) : Prop :=
  s <> EmptyString /\ all_chars Py.is_digit s = true.

(** ASCII text: every character is below 128.  On such text the string
    methods and the patterns of this file are those of Python. *)
Definition ascii_text (s : string) : Prop :=
  all_chars (fun c => (Py.code c <? 128)%N) s = true.

(** What the patterns mean: [r] matches the part of [s] in front of [rest],
    and [new] are the groups it captures, the last one first. *)
Fixpoint re_matches (r : Re.regex) (s rest : string) (new : Re.captures) : Prop :=
  match r with
  | Re.Lit l => s = (l ++ rest)%string /\ new = []
  | Re.Plus p =>
      exists pre, pre <> EmptyString /\ all_chars p pre = true /\
                  s = (pre ++ rest)%string /\ new = []
  | Re.Seq r1 r2 =>
      exists mid n1 n2, re_matches r1 s mid n1 /\ re_matches r2 mid rest n2 /\
                        new = n2 ++ n1
  | Re.Opt r' => re_matches r' s rest new \/ (rest = s /\ new = [])
  | Re.Group n r' =>
      exists n1, re_matches r' s rest n1 /\ new = (n, Re.consumed s rest) :: n1
  end.

(** Behind [pre], [title] goes on with the word "size", white space and the
    number [size], which no further digit follows. *)
Definition size_named_at (title pre size : string) : Prop :=
  exists ws post,
    title = (pre ++ "size" ++ ws ++ size ++ post)%string /\
    ws <> EmptyString /\ all_chars Py.is_space ws = true /\
    digit_string size /\
    forall c t, post = String c t -> Py.is_digit c = false.

(** The size and the quantity that a sample product takes from its title: the
    number behind the leftmost "size", or "Sample" when the title names no
    size; the quantity is 1. *)
Definition sample_size (title size quantity : string) : Prop :=
  quantity = "1" /\
  ((size = "Sample" /\ forall pre size', ~ size_named_at title pre size') \/
   (exists pre,
      size_named_at title pre size /\
      forall pre' size', size_named_at title pre' size' ->
                         String.length pre <= String.length pre')).

(** What the parser guarantees of every item it returns. *)
Definition parsed_item_ok (warehouse_map : gmap string string) (it : item) : Prop :=
  is_stop (item_title it) = false /\
  Py.strip (item_title it) = item_title it /\
  (is_Some (warehouse_map !! normalized_title it) \/
   Py.contains "sample" (normalized_title it) = true) /\
  digit_string (item_quantity it) /\
  (item_size it ∈ acceptable_sizes \/
   (Py.contains "sample" (normalized_title it) = true /\
    sample_size (normalized_title it) (item_size it) (item_quantity it))).


(** The entries of [items] that resolve to [area], in order. *)
Definition items_of_area (warehouse_map : gmap string string) (area : string)
    (items : list item) : list item :=
  filter (fun it => get_warehouse_area (normalized_title it) warehouse_map = area) items.

(** The bucket of a list of entries: an area without entries has none. *)
Definition bucket_of (items : list item) : option (list item) :=
  match items with
  | [] => None
  | _ => Some items
  end.

(** The ascending order of the keys [(title.lower(), size_sort_key(size))] of
    two manifest keys [(product_title, size)]. *)
Definition row_key_le (k1 k2 : string * string) : Prop :=
  String.ltb (Py.lower (fst k1)) (Py.lower (fst k2)) = true \/
  (Py.lower (fst k1) = Py.lower (fst k2) /\
   (size_sort_key (snd k1) <= size_sort_key (snd k2))%Z).

(** The integer quantities of a list of entries; the others are left out. *)
Definition integer_quantities (products : list item) : list Z :=
  omap (fun it => Py.int (item_quantity it)) products.

(** The entry that a row of the warehouse-map file stands for: none for a
    row with fewer than two columns. *)
Definition row_entry (row : list string) : option (string * string) :=
  match row with
  | product :: area :: _ => Some (Py.lower (Py.strip product), Py.strip area)
  | _ => None
  end.

(** [line] is blank, or is a line with the marker "ITEMS". *)
Definition blank_or_marker (line : string) : Prop :=
  Py.strip line = "" \/ Py.contains "ITEMS" (Py.strip line) = true.

(** A block of an ITEMS section: the title line, the size line and, when
    there is one, the SKU line. *)
Record block : Type := Block {
  block_title : string;
  block_size_line : string;
  block_sku : option string
}.

Definition block_lines (b : block) : list string :=
  block_title b :: block_size_line b :: option_list (block_sku b).

(** [b] is a block for the item [it]: the title is that of a product the
    parser accepts, the size line gives the size and quantity, the title line
    does not look like a SKU line and the third line, if any, does. *)
Definition well_formed_block (warehouse_map : gmap string string) (b : block) (it : item)
    : Prop :=
  item_title it = Py.strip (block_title b) /\
  is_stop (item_title it) = false /\
  (is_Some (warehouse_map !! normalized_title it) \/
   Py.contains "sample" (normalized_title it) = true) /\
  size_of_line (Py.strip (block_size_line b)) = Some (item_size it, item_quantity it) /\
  is_sku_line (block_title b) = false /\
  forall sku, block_sku b = Some sku -> is_sku_line sku = true.

Definition no_newline (line : string) : Prop :=
  all_chars (fun c => negb (Ascii.eqb c "010")) line = true.

(** ** Sample decks for the concrete checks *)

Module Sample.

(** Pages are named; the overlay appends the identifier to the name; the
    manifest has one page per section, named by the heading. *)
Definition add_area_identifier_to_page (page area_identifier : string) : string :=
  page ++ " @ " ++ area_identifier.

Definition build_summary_pdf (elements : list area_section) : list string + string :=
  inl (map section_title elements).

Definition warehouse_map : gmap string string :=
  <["tee" := "B11"]> (<["hat" := "A13"]> (<["mystery" := "Unknown Area"]> ∅)).

Definition slip (lines : list string) : string := Py.join nl lines.

(** Page 0 is for B11, page 1 for A13, page 2 has no items. *)
Definition deck : list (string * string) :=
  [("slip 0", slip ["Order 1001"; "ITEMS QUANTITY"; "Tee"; "M 2 of 2"]);
   ("slip 1", slip ["Order 1002"; "ITEMS QUANTITY"; "Hat"; "Size 1 1 of 1"]);
   ("slip 2", slip ["Order 1003"; "Thank you for shopping with us!"])].

Definition labels : list string := ["label 0"; "label 1"; "label 2"].

Definition short_labels : list string := ["label 0"; "label 1"].

Definition env : environment :=
  {| save_path := "/out"; save_path_exists := true; makedirs_error := None;
     slips_write_error := None; labels_write_error := None |}.

Definition env_slips_write_fails : environment :=
  {| save_path := "/out"; save_path_exists := true; makedirs_error := None;
     slips_write_error := Some "disk full"; labels_write_error := None |}.

Definition env_labels_write_fails : environment :=
  {| save_path := "/out"; save_path_exists := true; makedirs_error := None;
     slips_write_error := None; labels_write_error := Some "disk full" |}.

(** A deck whose first page holds only a product of an unlisted area. *)
Definition unlisted_deck : list (string * string) :=
  [("slip 0", slip ["ITEMS QUANTITY"; "Mystery"; "M 1 of 1"]);
   ("slip 1", slip ["ITEMS QUANTITY"; "Tee"; "M 1 of 1"])].

(** A bucket with two entries to merge and one without a quantity. *)
Definition summary_data : gmap string (list item) :=
  {["B11" := [("Tee", "M", "2"); ("Cap", "S", "many"); ("Tee", "M", "3")]]}.

(** A warehouse map with an area code that contains a comma. *)
Definition comma_map : gmap string string :=
  <["tee" := "B11, B12"]> (<["hat" := "D16"]> ∅).

Definition comma_page : string :=
  slip ["ITEMS QUANTITY"; "Tee"; "M 1 of 1"; "Hat"; "S 1 of 1"].

(** The lines of the first page of [deck], in blocks. *)
Definition page0_before : list string := ["Order 1001"].

Definition page0_blocks : list block := [Block "Tee" "M 2 of 2" None].

(** A warehouse-map file: the header, and a product entered twice. *)
Definition rows : list (list string) :=
  [["Product Name"; "Area"]; ["Tee"; "B11"]; [" TEE "; " B12 "]].

(** A page with a sample whose size line gives nothing. *)
Definition sample_page : string :=
  slip ["ITEMS QUANTITY"; "Free Sample Size 7"; "n/a"].



End Sample.


(** * Properties *)

(** ** Stable sorting *)

Section SortedFacts.
Context {A K : Type} (leb : K -> K -> bool) (key : A -> K).
Hypothesis leb_total : forall a b, leb a b = true \/ leb b a = true.
Hypothesis leb_trans : forall a b c, leb a b = true -> leb b c = true -> leb a c = true.

Lemma insert_by_perm x l : insert_by leb key x l ≡ₚ x :: l.
Proof.
  induction l as [|y l IH]; simpl; [done|].
  destruct (leb (key x) (key y)); [done|].
  rewrite IH. apply Permutation_swap.
Qed.

Lemma sorted_perm l : sorted leb key l ≡ₚ l.
Proof.
  induction l as [|x l IH]; simpl; [done|].
  by rewrite insert_by_perm, IH.
Qed.

Lemma insert_by_sorted x l :
  StronglySorted (key_le leb key) l -> StronglySorted (key_le leb key) (insert_by leb key x l).
Proof.
  induction 1 as [|y l Hl IH Hy]; simpl.
  - repeat constructor.
  - destruct (leb (key x) (key y)) eqn:Hxy.
    + constructor; [by constructor|].
      constructor; [done|].
      eapply Forall_impl; [exact Hy|].
      intros z Hz. unfold key_le in *. eauto.
    + constructor; [done|].
      rewrite insert_by_perm. constructor; [|done].
      unfold key_le. destruct (leb_total (key x) (key y)); congruence.
Qed.

Lemma sorted_sorted l : StronglySorted (key_le leb key) (sorted leb key l).
Proof.
  induction l; simpl; [constructor|]. by apply insert_by_sorted.
Qed.

(** Stability: elements that are pairwise in order (such as those of one
    key) keep their relative positions. *)
Lemma insert_by_filter (p : A -> bool) x l :
  (forall a b, p a = true -> p b = true -> leb (key a) (key b) = true) ->
  List.filter p (insert_by leb key x l) = List.filter p (x :: l).
Proof.
  intros Hp. induction l as [|y l IH]; [done|].
  cbn [insert_by]. destruct (leb (key x) (key y)) eqn:Hxy; [done|].
  cbn [List.filter] in *. rewrite IH.
  destruct (p x) eqn:Hx, (p y) eqn:Hy; try done.
  rewrite (Hp x y Hx Hy) in Hxy. done.
Qed.

Lemma sorted_filter (p : A -> bool) l :
  (forall a b, p a = true -> p b = true -> leb (key a) (key b) = true) ->
  List.filter p (sorted leb key l) = List.filter p l.
Proof.
  intros Hp. induction l as [|x l IH]; [done|].
  cbn [sorted]. rewrite insert_by_filter by done.
  cbn [List.filter]. by rewrite IH.
Qed.
End SortedFacts.

(** *** The result of a stable sort is unique *)

Section StableUnique.
Context {A K : Type} `{EqDecision K} (leb : K -> K -> bool) (key : A -> K).
Hypothesis leb_antisym : forall a b, leb a b = true -> leb b a = true -> a = b.
Hypothesis leb_total : forall a b, leb a b = true \/ leb b a = true.
Hypothesis leb_trans : forall a b c, leb a b = true -> leb b c = true -> leb a c = true.

Lemma sorted_head_least x l y :
  StronglySorted (key_le leb key) (x :: l) -> y ∈ x :: l -> leb (key x) (key y) = true.
Proof.
  intros Hs [->|Hy]%elem_of_cons.
  - by destruct (leb_total (key x) (key x)).
  - apply StronglySorted_inv in Hs as [_ Hall]. by eapply Forall_forall in Hall.
Qed.

Lemma same_key_intro x l : x ∈ l -> x ∈ List.filter (same_key key (key x)) l.
Proof.
  rewrite !list_elem_of_In, filter_In. unfold same_key.
  rewrite bool_decide_eq_true. tauto.
Qed.

Lemma same_key_elim k x l : x ∈ List.filter (same_key key k) l -> x ∈ l.
Proof. rewrite !list_elem_of_In, filter_In. tauto. Qed.

(** Two sorted lists with the same elements of every key, in the same
    order, are equal: the result of a stable sort does not depend on the
    algorithm. *)
Lemma stable_sorted_unique (l1 l2 : list A) :
  StronglySorted (key_le leb key) l1 -> StronglySorted (key_le leb key) l2 ->
  (forall k, List.filter (same_key key k) l1 = List.filter (same_key key k) l2) ->
  l1 = l2.
Proof.
  intros H1. revert l2. induction H1 as [|x l1 Hs1 IH Hx]; intros l2 H2 Hf.
  - destruct l2 as [|y l2]; [done|]. exfalso.
    assert (y ∈ List.filter (same_key key (key y)) (y :: l2)) as Hy.
    { apply same_key_intro. left. }
    rewrite <- Hf in Hy. by apply elem_of_nil in Hy.
  - assert (StronglySorted (key_le leb key) (x :: l1)) as Hs by (by constructor).
    destruct l2 as [|y l2].
    { exfalso. assert (x ∈ List.filter (same_key key (key x)) (x :: l1)) as Hin.
      { apply same_key_intro. left. }
      rewrite Hf in Hin. by apply elem_of_nil in Hin. }
    assert (key x = key y) as Hk.
    { apply leb_antisym.
      - apply (sorted_head_least x l1 y Hs).
        apply (same_key_elim (key y)). rewrite Hf. apply same_key_intro. left.
      - apply (sorted_head_least y l2 x H2).
        apply (same_key_elim (key x)). rewrite <- Hf. apply same_key_intro. left. }
    assert (forall k z, same_key key k z = true <-> key z = k) as Hsame.
    { intros k z. apply bool_decide_eq_true. }
    assert (forall k z, same_key key k z = false <-> key z <> k) as Hdiff.
    { intros k z. apply bool_decide_eq_false. }
    pose proof (Hf (key x)) as Hfx. cbn [List.filter] in Hfx.
    rewrite (proj2 (Hsame (key x) x)), (proj2 (Hsame (key x) y)) in Hfx by done.
    injection Hfx as -> Hfx. f_equal.
    apply StronglySorted_inv in H2 as [H2 _]. apply IH; [done|].
    intros k. destruct (decide (key y = k)) as [<-|Hne]; [done|].
    specialize (Hf k). cbn [List.filter] in Hf.
    by rewrite (proj2 (Hdiff k y)) in Hf by done.
Qed.

Lemma sorted_is_the_stable_sort (l l' : list A) :
  StronglySorted (key_le leb key) l' ->
  (forall k, List.filter (same_key key k) l' = List.filter (same_key key k) l) ->
  l' = sorted leb key l.
Proof.
  intros Hs Hf. apply stable_sorted_unique; [done|by apply sorted_sorted|].
  intros k. rewrite Hf. symmetry. apply sorted_filter.
  intros a b Ha%bool_decide_eq_true Hb%bool_decide_eq_true.
  rewrite Ha, Hb. by destruct (leb_total k k).
Qed.
End StableUnique.

(** ** The orders of the two kinds of sort keys *)

Lemma string_leb_refl a : String.leb a a = true.
Proof. apply Is_true_true. change (String.le a a). done. Qed.

Lemma string_leb_trans a b c :
  String.leb a b = true -> String.leb b c = true -> String.leb a c = true.
Proof.
  intros H1%Is_true_true H2%Is_true_true. apply Is_true_true.
  change (String.le a c). by trans b.
Qed.

Lemma string_ltb_leb a b :
  String.ltb a b = true <-> String.leb a b = true /\ a <> b.
Proof.
  unfold String.ltb, String.leb.
  destruct (String.compare a b) eqn:Hc.
  - apply String.compare_eq_iff in Hc. naive_solver.
  - split; [|done]. intros _. split; [done|]. intros ->.
    pose proof (string_leb_refl b) as Hr. unfold String.leb in Hr.
    rewrite String.compare_antisym in Hc.
    destruct (String.compare b b); simpl in *; congruence.
  - naive_solver.
Qed.

Lemma string_ltb_total a b :
  String.ltb a b = true \/ a = b \/ String.ltb b a = true.
Proof.
  destruct (decide (a = b)) as [->|Hne]; [auto|].
  destruct (String.leb_total a b) as [H|H].
  - left. by apply string_ltb_leb.
  - right; right. apply string_ltb_leb. split; [done|congruence].
Qed.

Lemma string_ltb_trans a b c :
  String.ltb a b = true -> String.ltb b c = true -> String.ltb a c = true.
Proof.
  rewrite !string_ltb_leb. intros [H1 N1] [H2 N2]. split.
  - by eapply string_leb_trans.
  - intros ->. apply N1. by apply String.leb_antisym.
Qed.

Lemma nat_str_leb_spec a b :
  nat_str_leb a b = true <->
  (fst a < fst b)%nat \/ (fst a = fst b /\ String.leb (snd a) (snd b) = true).
Proof.
  unfold nat_str_leb.
  rewrite orb_true_iff, andb_true_iff, Nat.ltb_lt, Nat.eqb_eq. done.
Qed.

Lemma nat_str_leb_total a b : nat_str_leb a b = true \/ nat_str_leb b a = true.
Proof.
  rewrite !nat_str_leb_spec.
  destruct (String.leb_total (snd a) (snd b)); destruct (lt_eq_lt_dec (fst a) (fst b)) as [[?|?]|?];
    auto.
Qed.

Lemma nat_str_leb_trans a b c :
  nat_str_leb a b = true -> nat_str_leb b c = true -> nat_str_leb a c = true.
Proof.
  rewrite !nat_str_leb_spec.
  intros [?|[? ?]] [?|[? ?]]; [left; lia|left; lia|left; lia|].
  right. split; [congruence|]. by eapply string_leb_trans.
Qed.

Lemma nat_str_leb_antisym a b :
  nat_str_leb a b = true -> nat_str_leb b a = true -> a = b.
Proof.
  rewrite !nat_str_leb_spec. destruct a as [n s], b as [m t]; simpl.
  intros [?|[? ?]] [?|[? ?]]; try lia.
  f_equal; [done|]. by apply String.leb_antisym.
Qed.

Lemma str_int_leb_spec a b :
  str_int_leb a b = true <->
  String.ltb (fst a) (fst b) = true \/ (fst a = fst b /\ (snd a <= snd b)%Z).
Proof.
  unfold str_int_leb.
  rewrite orb_true_iff, andb_true_iff, String.eqb_eq, Z.leb_le. done.
Qed.

Lemma str_int_leb_total a b : str_int_leb a b = true \/ str_int_leb b a = true.
Proof.
  rewrite !str_int_leb_spec.
  destruct (string_ltb_total (fst a) (fst b)) as [?|[?|?]]; auto.
  destruct (Z.le_ge_cases (snd a) (snd b)); auto.
Qed.

Lemma str_int_leb_trans a b c :
  str_int_leb a b = true -> str_int_leb b c = true -> str_int_leb a c = true.
Proof.
  rewrite !str_int_leb_spec.
  intros [H1|[H1 ?]] [H2|[H2 ?]].
  - left. by eapply string_ltb_trans.
  - left. by rewrite <- H2.
  - left. by rewrite H1.
  - right. split; [congruence|lia].
Qed.

(** ** Strings *)

Lemma string_app_cons (c : ascii) (s t : string) :
  (String c s ++ t)%string = String c (s ++ t)%string.
Proof. reflexivity. Qed.

Lemma string_app_nil_l (s : string) : ("" ++ s)%string = s.
Proof. reflexivity. Qed.

Lemma string_app_nil_r (s : string) : (s ++ "")%string = s.
Proof. induction s; [done|]. rewrite string_app_cons. congruence. Qed.

Lemma string_app_assoc (a b c : string) : ((a ++ b) ++ c)%string = (a ++ b ++ c)%string.
Proof. induction a; [done|]. rewrite !string_app_cons. congruence. Qed.

Lemma prefix_spec (p s : string) :
  String.prefix p s = true <-> exists post, s = (p ++ post)%string.
Proof.
  revert s. induction p as [|a p IH]; intros s.
  - split; [by exists s|]. by destruct s.
  - destruct s as [|b s]; [split; [done|intros [? ?]; done]|].
    cbn [String.prefix]. destruct (ascii_dec a b) as [->|Hne].
    + rewrite IH. split; intros [post H]; exists post.
      * rewrite string_app_cons. congruence.
      * rewrite string_app_cons in H. congruence.
    + split; [done|]. intros [post H]. rewrite string_app_cons in H. congruence.
Qed.

(** [needle in hay] holds exactly when [needle] occurs somewhere in [hay]. *)
Lemma contains_spec (needle hay : string) :
  Py.contains needle hay = true <->
  exists pre post, hay = (pre ++ needle ++ post)%string.
Proof.
  induction hay as [|c hay IH]; cbn [Py.contains]; rewrite orb_true_iff, prefix_spec.
  - split.
    + intros [[post H]|?]; [|done]. by exists ""%string, post.
    + intros ([|? ?] & post & H); [|done]. left. by exists post.
  - rewrite IH. split.
    + intros [[post H]|(pre & post & H)].
      * by exists ""%string, post.
      * exists (String c pre), post. rewrite string_app_cons. congruence.
    + intros ([|a pre] & post & H).
      * left. by exists post.
      * right. exists pre, post. rewrite string_app_cons in H. congruence.
Qed.

(** ** The area resolver *)

(** C4.  A title whose lower-cased text contains "sample" resolves to
    "garage" whatever the warehouse map holds for it; any other title resolves
    to the area of its own exact entry in the map, and to "Unknown Area" when
    it has no entry of its own (no other entry is consulted). *)
Theorem get_warehouse_area_cases (product : string) (warehouse_map : gmap string string) :
  let is_sample := exists pre post, Py.lower product = (pre ++ "sample" ++ post)%string in
  (is_sample -> get_warehouse_area product warehouse_map = "garage") /\
  (~ is_sample -> forall area, warehouse_map !! product = Some area ->
     get_warehouse_area product warehouse_map = area) /\
  (~ is_sample -> warehouse_map !! product = None ->
     get_warehouse_area product warehouse_map = "Unknown Area").
Proof.
  intros is_sample. unfold get_warehouse_area.
  destruct (Py.contains "sample" (Py.lower product)) eqn:Hc.
  - apply contains_spec in Hc. by repeat split.
  - assert (~ is_sample) as Hn.
    { intros H%contains_spec. congruence. }
    repeat split; [done|..]; intros _.
    + by intros area ->.
    + by intros ->.
Qed.

(** ** The area identifier composer *)

Lemma sorted_set_perm (s : gset string) : sorted_set s ≡ₚ elements s.
Proof. apply sorted_perm. Qed.

Lemma elem_of_sorted_set (s : gset string) a : a ∈ sorted_set s <-> a ∈ s.
Proof. by rewrite sorted_set_perm, elem_of_elements. Qed.

Lemma sorted_set_NoDup (s : gset string) : NoDup (sorted_set s).
Proof. rewrite sorted_set_perm. apply NoDup_elements. Qed.

Lemma sorted_set_ascending (s : gset string) :
  StronglySorted (fun a b => String.leb a b = true) (sorted_set s).
Proof.
  apply (sorted_sorted String.leb id).
  - apply String.leb_total.
  - apply string_leb_trans.
Qed.

Lemma strictly_ascending (l : list string) :
  StronglySorted (fun a b => String.leb a b = true) l -> NoDup l ->
  StronglySorted (fun a b => String.ltb a b = true) l.
Proof.
  induction 1 as [|a l Hl IH Ha]; intros Hnd; [constructor|].
  apply NoDup_cons in Hnd as [Hnotin Hnd].
  constructor; [by apply IH|].
  apply Forall_forall. intros b Hb.
  apply string_ltb_leb. split.
  - by eapply Forall_forall in Ha.
  - intros ->. done.
Qed.

Lemma determine_area_identifier_composed (s : gset string) :
  determine_area_identifier s = Py.join ", " (sorted_set (composed_areas s)).
Proof.
  unfold determine_area_identifier, composed_areas.
  destruct (decide ("B16" ∈ s /\ 1 < size s)) as [[H1 H2]|Hn].
  - rewrite bool_decide_eq_true_2 by done.
    apply Nat.ltb_lt in H2. by rewrite H2.
  - destruct (bool_decide ("B16" ∈ s)) eqn:Hb; [|done].
    destruct (1 <? size s)%nat eqn:Hs; [|done].
    apply bool_decide_eq_true in Hb. apply Nat.ltb_lt in Hs. tauto.
Qed.

(** C5.  The label of an area set is its members in strictly ascending
    order joined by ", ", where "B16" is left out exactly when the set has
    another member besides it; with the three examples of the specification. *)
Theorem determine_area_identifier_spec (s : gset string) :
  (exists l : list string,
      determine_area_identifier s = Py.join ", " l /\
      StronglySorted (fun a b => String.ltb a b = true) l /\
      forall a, a ∈ l <-> a ∈ s /\ ~ (a = "B16" /\ 1 < size s)) /\
  determine_area_identifier {["B16"]} = "B16" /\
  determine_area_identifier {["B16"; "D16"]} = "D16" /\
  determine_area_identifier {["A13"; "D16"]} = "A13, D16".
Proof.
  split; [|by vm_compute].
  exists (sorted_set (composed_areas s)). split; [|split].
  - apply determine_area_identifier_composed.
  - apply strictly_ascending; [apply sorted_set_ascending|apply sorted_set_NoDup].
  - intros a. rewrite elem_of_sorted_set. unfold composed_areas.
    destruct (decide ("B16" ∈ s /\ 1 < size s)) as [[H1 H2]|Hn].
    + rewrite elem_of_difference, elem_of_singleton. naive_solver.
    + split; [|naive_solver]. intros Ha. split; [done|].
      intros [-> ?]. tauto.
Qed.

(** ** The sort of the kept pages *)


Lemma split_nonempty sep s : Py.split sep s <> [].
Proof.
  destruct s as [|c s]; cbn [Py.split]; [done|].
  destruct (Ascii.eqb c sep); [done|]. by destruct (Py.split sep s).
Qed.

Lemma contains_char_cons (sep c : ascii) (s : string) :
  Py.contains (String sep "") (String c s)
  = Ascii.eqb sep c || Py.contains (String sep "") s.
Proof.
  cbn [Py.contains String.prefix].
  destruct (ascii_dec sep c) as [->|Hne].
  - rewrite Ascii.eqb_refl. by destruct s.
  - apply Ascii.eqb_neq in Hne. rewrite Hne. done.
Qed.

Lemma split_hd sep s :
  let tok := hd ""%string (Py.split sep s) in
  Py.contains (String sep "") tok = false /\
  (s = tok \/ exists rest, s = (tok ++ String sep rest)%string).
Proof.
  induction s as [|c s IH]; cbn [Py.split].
  - split; [done|by left].
  - destruct (Ascii.eqb c sep) eqn:Hc.
    + apply Ascii.eqb_eq in Hc as ->. split; [done|]. right. by exists s.
    + destruct (Py.split sep s) as [|w ws] eqn:Hs; [by apply split_nonempty in Hs|].
      cbn [hd] in *. destruct IH as [Hw Hrest]. split.
      * rewrite contains_char_cons, Hw, Ascii.eqb_sym, Hc. done.
      * destruct Hrest as [->|[rest ->]]; [by left|].
        right. by exists rest.
Qed.


Lemma index_spec x l :
  match Py.index x l with
  | Some i => l !! i = Some x /\ forall j, j < i -> l !! j <> Some x
  | None => x ∉ l
  end.
Proof.
  induction l as [|y l IH]; cbn [Py.index].
  - apply not_elem_of_nil.
  - destruct (String.eqb y x) eqn:Hy.
    + apply String.eqb_eq in Hy as ->. split; [done|]. intros j Hj. lia.
    + apply String.eqb_neq in Hy.
      destruct (Py.index x l) as [i|]; cbn.
      * destruct IH as [Hi Hlt]. split; [done|].
        intros [|j] Hj; cbn; [congruence|]. apply Hlt. lia.
      * rewrite elem_of_cons. naive_solver.
Qed.




(** ** The selection of pages *)

Section SelectionFacts.
Context {Page : Type}.
Implicit Types (deck : list (Page * string)) (warehouse_map : gmap string string).

Lemma elem_of_page_areas warehouse_map (product_details : list item) area :
  area ∈ page_areas warehouse_map product_details <->
  exists it, it ∈ product_details /\
             area = get_warehouse_area (normalized_title it) warehouse_map.
Proof.
  unfold page_areas.
  assert (forall acc : gset string,
    area ∈ foldl (fun product_areas it =>
              product_areas ∪ {[get_warehouse_area (normalized_title it) warehouse_map]})
            acc product_details <->
    area ∈ acc \/ exists it, it ∈ product_details /\
             area = get_warehouse_area (normalized_title it) warehouse_map) as H.
  { induction product_details as [|x l IH]; intros acc; cbn [foldl].
    - split; [auto|]. intros [?|(it & Hit & _)]; [done|]. by apply elem_of_nil in Hit.
    - rewrite IH, elem_of_union, elem_of_singleton. split.
      + intros [[?|?]|(it & Hit & ?)]; [by left| |].
        * right. exists x. split; [left|done].
        * right. exists it. split; [by right|done].
      + intros [?|(it & Hit & ?)]; [by left; left|].
        apply elem_of_cons in Hit as [->|Hit]; [by left; right|].
        right. by exists it. }
  rewrite H. split; [|auto]. intros [Hin|?]; [|done]. by apply elem_of_empty in Hin.
Qed.

Lemma page_areas_nonempty warehouse_map (product_details : list item) :
  product_details <> [] -> page_areas warehouse_map product_details <> ∅.
Proof.
  destruct product_details as [|it l]; [done|]. intros _ Hempty.
  assert (get_warehouse_area (normalized_title it) warehouse_map
            ∈ page_areas warehouse_map (it :: l)) as Hin.
  { apply elem_of_page_areas. exists it. split; [left|done]. }
  rewrite Hempty in Hin. by apply elem_of_empty in Hin.
Qed.

Lemma page_areas_empty warehouse_map (product_details : list item) :
  page_areas warehouse_map product_details <> ∅ -> product_details <> [].
Proof. by intros H ->. Qed.

Lemma kept_entry_Some warehouse_map deck idx e :
  kept_entry warehouse_map deck idx = Some e <->
  exists page text,
    deck !! idx = Some (page, text) /\
    extract_product_details text warehouse_map <> [] /\
    e = (page, idx, page_areas warehouse_map (extract_product_details text warehouse_map)).
Proof.
  unfold kept_entry. destruct (deck !! idx) as [[page text]|]; [|naive_solver].
  destruct (extract_product_details text warehouse_map) as [|it l] eqn:Hpd.
  - naive_solver.
  - pose proof (page_areas_nonempty warehouse_map (it :: l)) as Hne.
    rewrite bool_decide_eq_false_2 by (by apply Hne). cbn [andb].
    split.
    + intros [= <-]. exists page, text. by rewrite Hpd.
    + intros (page' & text' & [= <- <-] & _ & ->). by rewrite Hpd.
Qed.

Lemma select_page_kept_entry warehouse_map deck sel idx :
  select_page warehouse_map deck sel idx =
  match kept_entry warehouse_map deck idx with
  | Some (page, i, areas) =>
      Selection (pages_to_keep sel ++ [page]) (indices_to_keep sel ++ [i])
                (page_areas_list sel ++ [areas])
  | None => sel
  end.
Proof.
  unfold select_page, kept_entry.
  destruct (deck !! idx) as [[page text]|]; [|done].
  destruct (extract_product_details text warehouse_map) as [|it l]; [done|].
  cbv zeta. by destruct (_ && _).
Qed.

Lemma foldl_select_page warehouse_map deck sel idxs :
  let K := omap (kept_entry warehouse_map deck) idxs in
  foldl (select_page warehouse_map deck) sel idxs =
  Selection (pages_to_keep sel ++ map (fun e => fst (fst e)) K)
            (indices_to_keep sel ++ map (fun e => snd (fst e)) K)
            (page_areas_list sel ++ map snd K).
Proof.
  revert sel. induction idxs as [|idx idxs IH]; intros sel; simpl.
  - rewrite !app_nil_r. by destruct sel.
  - rewrite IH, select_page_kept_entry.
    destruct (kept_entry warehouse_map deck idx) as [[[page i] areas]|]; [|done].
    simpl. by rewrite <- !app_assoc.
Qed.

Lemma select_pages_kept warehouse_map deck :
  select_pages warehouse_map deck =
  Selection (map (fun e => fst (fst e)) (kept warehouse_map deck))
            (map (fun e => snd (fst e)) (kept warehouse_map deck))
            (map snd (kept warehouse_map deck)).
Proof. unfold select_pages. by rewrite foldl_select_page. Qed.

Lemma elem_of_kept warehouse_map deck e :
  e ∈ kept warehouse_map deck <->
  exists page text,
    deck !! snd (fst e) = Some (page, text) /\
    extract_product_details text warehouse_map <> [] /\
    e = (page, snd (fst e),
         page_areas warehouse_map (extract_product_details text warehouse_map)).
Proof.
  unfold kept. rewrite list_elem_of_omap. split.
  - intros (idx & _ & He). apply kept_entry_Some in He as (page & text & H1 & H2 & ->).
    by exists page, text.
  - intros (page & text & H1 & H2 & He). exists (snd (fst e)). split.
    + apply elem_of_seq. apply lookup_lt_Some in H1. lia.
    + apply kept_entry_Some. by exists page, text.
Qed.

Lemma elem_of_indices_to_keep warehouse_map deck idx :
  idx ∈ indices_to_keep (select_pages warehouse_map deck) <->
  idx < length deck /\ page_items warehouse_map deck idx <> [].
Proof.
  rewrite select_pages_kept. cbn [indices_to_keep].
  change (map ?f ?l) with (f <$> l). rewrite list_elem_of_fmap.
  unfold page_items, extract_text_from_page. split.
  - intros (e & -> & He). apply elem_of_kept in He as (page & text & H1 & H2 & _).
    rewrite H1. split; [by apply lookup_lt_Some in H1|done].
  - intros [Hlt Hne]. destruct (deck !! idx) as [[page text]|] eqn:Hd.
    + exists (page, idx, page_areas warehouse_map (extract_product_details text warehouse_map)).
      split; [done|]. apply elem_of_kept. by exists page, text.
    + apply lookup_ge_None in Hd. lia.
Qed.
End SelectionFacts.

(** ** The sorted page plan *)

Section PlanFacts.
Context {Page : Type}.
Variable add_area_identifier_to_page : Page -> string -> Page.
Implicit Types (deck : list (Page * string)) (warehouse_map : gmap string string).

Lemma zip_map_map {A B C} (f : A -> B) (g : A -> C) (l : list A) :
  zip (map f l) (map g l) = map (fun x => (f x, g x)) l.
Proof. induction l; simpl; congruence. Qed.

Lemma pages_with_info_kept warehouse_map deck :
  pages_with_info add_area_identifier_to_page warehouse_map deck
    (select_pages warehouse_map deck)
  = map (info_of add_area_identifier_to_page warehouse_map deck) (kept warehouse_map deck).
Proof.
  rewrite select_pages_kept.
  unfold pages_with_info, zip4, annotate_pages, area_identifiers_of.
  cbn [pages_to_keep indices_to_keep page_areas_list].
  rewrite !map_map, !zip_map_map, map_map. rewrite !zip_map_map. done.
Qed.

Lemma sorted_info_perm warehouse_map deck :
  pages_with_info_sorted add_area_identifier_to_page warehouse_map deck
    (select_pages warehouse_map deck)
  ≡ₚ map (info_of add_area_identifier_to_page warehouse_map deck) (kept warehouse_map deck).
Proof.
  unfold pages_with_info_sorted. by rewrite sorted_perm, pages_with_info_kept.
Qed.

Lemma sorted_indices_perm warehouse_map deck :
  map info_index
    (pages_with_info_sorted add_area_identifier_to_page warehouse_map deck
       (select_pages warehouse_map deck))
  ≡ₚ indices_to_keep (select_pages warehouse_map deck).
Proof.
  change (map info_index ?l) with (info_index <$> l).
  rewrite sorted_info_perm, select_pages_kept. cbn [indices_to_keep].
  change (info_index <$> ?l) with (map info_index l). by rewrite map_map.
Qed.

(** Every entry of the sorted plan is the annotated slip page of its own
    original index. *)
Lemma sorted_info_origin warehouse_map deck it :
  it ∈ pages_with_info_sorted add_area_identifier_to_page warehouse_map deck
         (select_pages warehouse_map deck) ->
  exists page text,
    deck !! info_index it = Some (page, text) /\
    extract_product_details text warehouse_map <> [] /\
    info_area_identifier it = page_label warehouse_map deck (info_index it) /\
    info_page it = add_area_identifier_to_page page
                     (page_label warehouse_map deck (info_index it)) /\
    info_product_title it = primary_product warehouse_map deck (info_index it).
Proof.
  rewrite sorted_info_perm. change (map ?f ?l) with (f <$> l).
  rewrite list_elem_of_fmap. intros (e & -> & He).
  apply elem_of_kept in He as (page & text & Hd & Hne & ->).
  exists page, text. cbn. unfold page_label, page_items, extract_text_from_page.
  rewrite Hd. done.
Qed.

Lemma sorted_indices_lt warehouse_map deck idx :
  idx ∈ map info_index
          (pages_with_info_sorted add_area_identifier_to_page warehouse_map deck
             (select_pages warehouse_map deck)) ->
  idx < length deck.
Proof.
  rewrite sorted_indices_perm, elem_of_indices_to_keep. tauto.
Qed.
End PlanFacts.

(** ** The manifest data *)

Section SummaryFacts.
Context {Page : Type}.
Implicit Types (deck : list (Page * string)) (warehouse_map : gmap string string)
  (summary_data : gmap string (list item)).

Lemma bucketed_add warehouse_map Φ summary_data it :
  bucketed warehouse_map Φ summary_data -> Φ it ->
  bucketed warehouse_map Φ (add_to_summary warehouse_map summary_data it).
Proof.
  intros Hb Hit area products x. unfold add_to_summary.
  destruct (decide (get_warehouse_area (normalized_title it) warehouse_map = area))
    as [<-|Hne].
  - rewrite lookup_insert_eq. intros [= <-] Hx.
    apply elem_of_app in Hx as [Hx|Hx].
    + destruct (summary_data !! _) as [ps|] eqn:Hps; cbn in Hx.
      * by eapply Hb.
      * by apply elem_of_nil in Hx.
    + apply list_elem_of_singleton in Hx as ->. done.
  - rewrite lookup_insert_ne by done. apply Hb.
Qed.

Lemma bucketed_foldl warehouse_map Φ summary_data (items : list item) :
  bucketed warehouse_map Φ summary_data -> (forall it, it ∈ items -> Φ it) ->
  bucketed warehouse_map Φ (foldl (add_to_summary warehouse_map) summary_data items).
Proof.
  revert summary_data. induction items as [|it items IH]; intros sd Hb HΦ; [done|].
  cbn [foldl]. apply IH.
  - apply bucketed_add; [done|]. apply HΦ. left.
  - intros x Hx. apply HΦ. by right.
Qed.

Lemma collect_summary_data_bucketed warehouse_map deck (indices : list nat) :
  bucketed warehouse_map
    (fun it => exists idx, idx ∈ indices /\ it ∈ page_items warehouse_map deck idx)
    (collect_summary_data warehouse_map deck indices).
Proof.
  unfold collect_summary_data.
  set (Φ := fun it => exists idx, idx ∈ indices /\ it ∈ page_items warehouse_map deck idx).
  assert (forall (l : list nat) sd,
    (forall idx, idx ∈ l -> idx ∈ indices) ->
    bucketed warehouse_map Φ sd ->
    bucketed warehouse_map Φ
      (foldl (fun summary_data idx =>
                let text := extract_text_from_page deck idx in
                foldl (add_to_summary warehouse_map) summary_data
                      (extract_product_details text warehouse_map)) sd l)) as H.
  { induction l as [|idx l IH]; intros sd Hl Hb; [done|].
    cbn [foldl]. apply IH.
    - intros i Hi. apply Hl. by right.
    - apply bucketed_foldl; [done|]. intros it Hit. exists idx. split; [|done].
      apply Hl. left. }
  apply H; [done|]. intros area products it Hl. by rewrite lookup_empty in Hl.
Qed.
End SummaryFacts.

(** ** Merging the entries of one area *)

Lemma sum_Z_app l1 l2 : sum_Z (l1 ++ l2) = (sum_Z l1 + sum_Z l2)%Z.
Proof. induction l1 as [|x l1 IH]; cbn [sum_Z foldr app]; [done|]. fold (sum_Z (l1 ++ l2)). fold (sum_Z l1). lia. Qed.

Lemma sum_Z_perm l1 l2 : l1 ≡ₚ l2 -> sum_Z l1 = sum_Z l2.
Proof.
  induction 1 as [|x l1 l2 _ IH|x y l|l1 l2 l3 _ IH1 _ IH2]; cbn [sum_Z foldr] in *;
    [done| |lia|congruence].
  fold (sum_Z l1) in *. fold (sum_Z l2) in *. lia.
Qed.

Lemma valid_quantities_snoc k seen it :
  valid_quantities k (seen ++ [it]) =
  valid_quantities k seen ++
  (if decide (item_key it = k) then option_list (Py.int (item_quantity it)) else []).
Proof.
  unfold valid_quantities. rewrite omap_app. f_equal.
  cbn. destruct (decide (item_key it = k)); [|done]. by destruct (Py.int _).
Qed.

Lemma valid_quantities_perm k l1 l2 :
  l1 ≡ₚ l2 -> valid_quantities k l1 ≡ₚ valid_quantities k l2.
Proof. intros H. unfold valid_quantities. by rewrite H. Qed.

Lemma add_quantity_keys k q d :
  map fst (add_quantity k q d) =
  if bool_decide (k ∈ map fst d) then map fst d else map fst d ++ [k].
Proof.
  induction d as [|[k' q'] d IH]; cbn [add_quantity map fst].
  - by rewrite bool_decide_eq_false_2 by apply not_elem_of_nil.
  - destruct (decide (k' = k)) as [->|Hne].
    + rewrite bool_decide_eq_true_2 by done.
      rewrite (bool_decide_eq_true_2 (k ∈ k :: _)) by left. done.
    + rewrite bool_decide_eq_false_2 by done. cbn [map fst]. rewrite IH.
      destruct (decide (k ∈ map fst d)) as [Hin|Hnin].
      * rewrite !bool_decide_eq_true_2; [done| by right |done].
      * rewrite !bool_decide_eq_false_2; [done| |done].
        rewrite not_elem_of_cons. split; [congruence|done].
Qed.

Lemma add_quantity_NoDup k q d : NoDup (map fst d) -> NoDup (map fst (add_quantity k q d)).
Proof.
  intros Hnd. rewrite add_quantity_keys.
  destruct (decide (k ∈ map fst d)).
  - by rewrite bool_decide_eq_true_2.
  - rewrite bool_decide_eq_false_2 by done.
    apply NoDup_app. split; [done|]. split; [|apply NoDup_singleton].
    intros x Hx Hx'. apply list_elem_of_singleton in Hx' as ->. done.
Qed.

Lemma elem_of_add_quantity k q d k' q' :
  NoDup (map fst d) ->
  (k', q') ∈ add_quantity k q d <->
  (k' <> k /\ (k', q') ∈ d) \/
  (k' = k /\ ((exists q0, (k, q0) ∈ d /\ q' = (q0 + q)%Z) \/ ((k ∉ map fst d) /\ q' = q))).
Proof.
  induction d as [|[k1 q1] d IH]; intros Hnd; cbn [add_quantity].
  - rewrite list_elem_of_singleton. split.
    + intros [= -> ->]. right. split; [done|]. right. split; [apply not_elem_of_nil|done].
    + intros [[_ H]|[-> [(q0 & H & _)|[_ ->]]]]; [by apply elem_of_nil in H| |done].
      by apply elem_of_nil in H.
  - cbn [map fst] in Hnd. apply NoDup_cons in Hnd as [Hk1 Hnd].
    assert (forall x, (k1, x) ∈ d -> False) as Hk1'.
    { intros x Hx. apply Hk1. change (k1 ∈ fst <$> d). apply list_elem_of_fmap.
      by exists (k1, x). }
    destruct (decide (k1 = k)) as [->|Hne].
    + rewrite bool_decide_eq_true_2 by done. split.
      * intros [[= -> ->]|Hin]%elem_of_cons.
        -- right. split; [done|]. left. exists q1. split; [left|done].
        -- left. split; [|by right]. intros ->. by eapply Hk1'.
      * intros [[Hne Hin]|[-> [(q0 & Hin & ->)|[Hnin _]]]]; apply elem_of_cons.
        -- apply elem_of_cons in Hin as [[= -> _]|Hin]; [done|by right].
        -- apply elem_of_cons in Hin as [[= ->]|Hin]; [by left|]. by apply Hk1' in Hin.
        -- exfalso. apply Hnin. cbn. left.
    + rewrite bool_decide_eq_false_2 by done. split.
      * intros [[= -> ->]|Hin]%elem_of_cons.
        { left. split; [done|left]. }
        apply (IH Hnd) in Hin as [[Hne' Hin]|[-> [(q0 & Hin & ->)|[Hnin ->]]]].
        -- left. split; [done|by right].
        -- right. split; [done|]. left. exists q0. split; [by right|done].
        -- right. split; [done|]. right. split; [|done].
           cbn [map fst]. rewrite not_elem_of_cons. done.
      * intros H. apply elem_of_cons. rewrite (IH Hnd).
        destruct H as [[Hne' Hin]|[-> [(q0 & Hin & ->)|[Hnin ->]]]].
        -- apply elem_of_cons in Hin as [[= -> ->]|Hin]; [by left|].
           right. left. done.
        -- apply elem_of_cons in Hin as [[= -> _]|Hin]; [done|].
           right. right. split; [done|]. left. by exists q0.
        -- cbn [map fst] in Hnin. apply not_elem_of_cons in Hnin as [_ Hnin].
           right. right. split; [done|]. by right.
Qed.

Lemma merged_keys d seen k :
  merged d seen -> (k ∈ map fst d <-> valid_quantities k seen <> []).
Proof.
  intros [_ H]. change (map fst d) with (fst <$> d). rewrite list_elem_of_fmap. split.
  - intros ([k' q] & -> & Hin). by apply H in Hin as [? _].
  - intros Hne. exists (k, sum_Z (valid_quantities k seen)). split; [done|].
    by apply H.
Qed.

Lemma merged_add d seen it q :
  merged d seen -> Py.int (item_quantity it) = Some q ->
  merged (add_quantity (item_key it) q d) (seen ++ [it]).
Proof.
  intros Hm Hq. pose proof Hm as [Hnd H]. split; [by apply add_quantity_NoDup|].
  intros k q'. rewrite elem_of_add_quantity by done.
  rewrite valid_quantities_snoc, Hq. change (option_list (Some q)) with [q].
  rewrite (merged_keys d seen (item_key it) Hm).
  destruct (decide (item_key it = k)) as [<-|Hne].
  - rewrite sum_Z_app. cbn [sum_Z foldr]. split.
    + intros [[? _]|[_ [(q0 & Hin & ->)|[Hnin ->]]]]; [done| |].
      * apply H in Hin as [_ ->]. split; [by destruct (valid_quantities _ _)|lia].
      * split; [by destruct (valid_quantities _ _)|].
        destruct (valid_quantities (item_key it) seen); [cbn; lia|]. by destruct Hnin.
    + intros [_ ->]. right. split; [done|].
      destruct (valid_quantities (item_key it) seen) as [|z l] eqn:Hv.
      * right. split; [by intros ?|cbn; lia].
      * left. exists (sum_Z (z :: l)). split; [|lia].
        apply H. rewrite Hv. done.
  - rewrite app_nil_r, H. split.
    + intros [[_ ?]|[-> _]]; done.
    + intros ?. left. split; [congruence|done].
Qed.

Lemma merged_skip d seen it :
  merged d seen -> Py.int (item_quantity it) = None -> merged d (seen ++ [it]).
Proof.
  intros [Hnd H] Hq. split; [done|]. intros k q.
  rewrite valid_quantities_snoc, Hq. change (option_list None) with (@nil Z).
  destruct (decide (item_key it = k)); rewrite app_nil_r; apply H.
Qed.

Lemma merge_products_merged l d seen :
  merged d seen -> merged (merge_products l d) (seen ++ l).
Proof.
  revert d seen. induction l as [|[[title size] quantity] l IH]; intros d seen Hm.
  - by rewrite app_nil_r.
  - cbn [merge_products]. rewrite (cons_middle _ seen l), app_assoc.
    destruct (Py.int quantity) as [q|] eqn:Hq.
    + apply IH. by apply (merged_add d seen (title, size, quantity) q).
    + apply IH. by apply merged_skip.
Qed.

Lemma unique_products_of_merged products : merged (unique_products_of products) products.
Proof.
  unfold unique_products_of.
  pose proof (merge_products_merged
                (sorted str_int_leb product_sort_key products) [] []) as [Hnd H].
  { split; [constructor|]. intros k q. cbn. split; [by intros ?%elem_of_nil|by intros [? _]]. }
  rewrite app_nil_l in H. split; [done|]. intros k q. rewrite H.
  pose proof (valid_quantities_perm k _ _ (sorted_perm str_int_leb product_sort_key products))
    as Hp.
  rewrite (sum_Z_perm _ _ Hp). split; intros [Hne ->]; (split; [|done]); intros Hnil.
  - rewrite Hnil in Hp. by apply Permutation_nil_r in Hp.
  - rewrite Hnil in Hp. by apply Permutation_nil_l in Hp.
Qed.

(** ** The manifest sections *)

Lemma elem_of_summary_elements (summary_data : gmap string (list item)) (sec : area_section) :
  sec ∈ summary_elements summary_data <->
  exists area products,
    area ∈ AREA_SORT_ORDER /\ summary_data !! area = Some products /\
    1 < length (area_table products) /\
    sec = AreaSection area (area_title area) (area_table products).
Proof.
  unfold summary_elements. rewrite list_elem_of_In, in_flat_map. split.
  - intros (area & Harea%list_elem_of_In & Hsec).
    destruct (summary_data !! area) as [products|] eqn:Hp; [|by destruct Hsec].
    destruct (1 <? length (area_table products))%nat eqn:Hlen; [|by destruct Hsec].
    destruct Hsec as [<-|[]]. exists area, products. by apply Nat.ltb_lt in Hlen.
  - intros (area & products & Harea & Hp & Hlen & ->).
    exists area. split; [by apply list_elem_of_In|].
    rewrite Hp. apply Nat.ltb_lt in Hlen. rewrite Hlen. by left.
Qed.

(** C7.  The table of every manifest section is the header followed by the
    merged rows of the area's bucket: no two rows share a (product_title, size)
    pair, a pair has a row exactly when one of its entries has an integer
    quantity, and the quantity of the row is the sum of the integer quantities
    of its entries; entries whose quantity is not an integer add nothing, not
    even a row of zero. *)
Theorem manifest_rows_merged (summary_data : gmap string (list item)) (sec : area_section) :
  sec ∈ summary_elements summary_data ->
  exists products,
    summary_data !! section_area sec = Some products /\
    let rows := unique_products_of products in
    section_table sec = table_header :: map table_row rows /\
    NoDup (map fst rows) /\
    forall k q, (k, q) ∈ rows <->
                valid_quantities k products <> [] /\
                q = sum_Z (valid_quantities k products).
Proof.
  intros (area & products & _ & Hp & _ & ->)%elem_of_summary_elements.
  exists products. split; [done|]. split; [done|].
  apply unique_products_of_merged.
Qed.

(** ** Kept and dropped pages *)

Lemma StronglySorted_lookup_lt {A} (R : A -> A -> Prop) (l : list A) i j x y :
  StronglySorted R l -> l !! i = Some x -> l !! j = Some y -> i < j -> R x y.
Proof.
  intros Hs. revert i j. induction Hs as [|a l Hl IH Ha]; intros i j Hi Hj Hlt.
  - by rewrite lookup_nil in Hi.
  - destruct j as [|j]; [lia|]. cbn in Hj. destruct i as [|i]; cbn in Hi.
    + injection Hi as ->. eapply Forall_forall in Ha; [exact Ha|].
      by eapply list_elem_of_lookup_2.
    + eapply IH; [exact Hi|exact Hj|lia].
Qed.

Section PageFacts.
Context {Page : Type}.
Variable add_area_identifier_to_page : Page -> string -> Page.
Implicit Types (deck : list (Page * string)) (warehouse_map : gmap string string).

(** C6.  A page of the packing-slip deck is kept exactly when its area set
    is not empty or one of its items is a sample; a page without items is
    not kept, is not among the sorted pages, and every entry of the manifest
    data comes from another, kept page. *)
Theorem page_kept_iff warehouse_map deck idx page text :
  deck !! idx = Some (page, text) ->
  let items := extract_product_details text warehouse_map in
  let sel := select_pages warehouse_map deck in
  (idx ∈ indices_to_keep sel <->
     page_areas warehouse_map items <> ∅ \/
     exists it, it ∈ items /\ Py.contains "sample" (normalized_title it) = true) /\
  (items = [] ->
     (idx ∉ indices_to_keep sel) /\
     (idx ∉ map info_index
              (pages_with_info_sorted add_area_identifier_to_page warehouse_map deck sel)) /\
     forall area products it,
       collect_summary_data warehouse_map deck (indices_to_keep sel) !! area = Some products ->
       it ∈ products ->
       exists idx', idx' <> idx /\ idx' ∈ indices_to_keep sel /\
                    it ∈ page_items warehouse_map deck idx').
Proof.
  intros Hd items sel.
  assert (page_items warehouse_map deck idx = items) as Hitems.
  { unfold page_items, extract_text_from_page. by rewrite Hd. }
  assert (idx ∈ indices_to_keep sel <-> items <> []) as Hkept.
  { unfold sel. rewrite elem_of_indices_to_keep, Hitems.
    apply lookup_lt_Some in Hd. tauto. }
  split.
  - rewrite Hkept. split.
    + intros Hne. left. by apply page_areas_nonempty.
    + intros [Hne|(it & Hit & _)].
      * by apply page_areas_empty in Hne.
      * intros Hnil. rewrite Hnil in Hit. by apply elem_of_nil in Hit.
  - intros Hnil. assert (idx ∉ indices_to_keep sel) as Hnot by (rewrite Hkept; tauto).
    split; [done|]. split.
    + unfold sel. by rewrite sorted_indices_perm.
    + intros area products it Hp Hit.
      destruct (collect_summary_data_bucketed warehouse_map deck (indices_to_keep sel)
                  area products it Hp Hit) as (_ & idx' & Hin & Hfrom).
      exists idx'. split; [|done]. by intros ->.
Qed.
End PageFacts.

(** ** Pages of unlisted areas *)

Lemma area_sort_value_listed (area : string) :
  area ∈ AREA_SORT_ORDER -> area_sort_value area < length AREA_SORT_ORDER.
Proof.
  intros Hin. unfold area_sort_value.
  pose proof (index_spec area AREA_SORT_ORDER) as H.
  destruct (Py.index area AREA_SORT_ORDER) as [i|]; [|done].
  destruct H as [H _]. by apply lookup_lt_Some in H.
Qed.

Lemma valid_quantities_nonempty k (products : list item) :
  valid_quantities k products <> [] -> exists entry, entry ∈ products /\ item_key entry = k.
Proof.
  unfold valid_quantities. intros Hne.
  destruct (omap _ products) as [|z l] eqn:Ho; [done|].
  assert (z ∈ omap (fun it => if decide (item_key it = k)
                              then Py.int (item_quantity it) else None) products) as Hz.
  { rewrite Ho. left. }
  apply list_elem_of_omap in Hz as (entry & Hin & Hq).
  exists entry. split; [done|]. by destruct (decide (item_key entry = k)).
Qed.

Lemma unknown_area_unlisted : "Unknown Area" ∉ AREA_SORT_ORDER.
Proof. apply (proj1 (bool_decide_eq_false _)). by vm_compute. Qed.

Section UnknownAreaFacts.
Context {Page : Type}.
Variable add_area_identifier_to_page : Page -> string -> Page.
Implicit Types (deck : list (Page * string)) (warehouse_map : gmap string string).

(** C9.  A kept page has items, hence a non-empty area set.  When all its
    items resolve to "Unknown Area", its label is "Unknown Area", its rank
    is the length of [AREA_SORT_ORDER], it stands after every page whose
    primary area is listed, and no bucket of a listed area (the only ones
    the manifest prints) holds one of its items or a row for one of them. *)
Theorem unknown_area_page_kept_but_not_in_manifest warehouse_map deck idx :
  idx ∈ indices_to_keep (select_pages warehouse_map deck) ->
  let items := page_items warehouse_map deck idx in
  let sel := select_pages warehouse_map deck in
  let plan := pages_with_info_sorted add_area_identifier_to_page warehouse_map deck sel in
  let summary_data := collect_summary_data warehouse_map deck (indices_to_keep sel) in
  items <> [] /\
  page_areas warehouse_map items <> ∅ /\
  ((forall it, it ∈ items ->
      get_warehouse_area (normalized_title it) warehouse_map = "Unknown Area") ->
   page_label warehouse_map deck idx = "Unknown Area" /\
   (exists i e, plan !! i = Some e /\ info_index e = idx) /\
   (forall i e, plan !! i = Some e -> info_index e = idx ->
      fst (sort_key e) = length AREA_SORT_ORDER /\
      forall j e', plan !! j = Some e' ->
                   get_primary_area (info_area_identifier e') ∈ AREA_SORT_ORDER ->
                   j < i) /\
   (forall sec, sec ∈ summary_elements summary_data ->
      section_area sec ∈ AREA_SORT_ORDER /\ section_area sec <> "Unknown Area") /\
   (forall area products,
      area ∈ AREA_SORT_ORDER -> summary_data !! area = Some products ->
      forall it, it ∈ items ->
        (it ∉ products) /\ forall q, (item_key it, q) ∉ unique_products_of products)).
Proof.
  intros Hkept items sel plan summary_data.
  pose proof Hkept as [Hlt Hne]%elem_of_indices_to_keep.
  fold items in Hne. split; [done|]. split; [by apply page_areas_nonempty|].
  intros Hunknown.
  assert (page_areas warehouse_map items = {["Unknown Area"]}) as Hareas.
  { apply set_eq. intros a. rewrite elem_of_page_areas, elem_of_singleton. split.
    - intros (it & Hit & ->). by apply Hunknown.
    - intros ->. destruct items as [|it l] eqn:Hi; [done|].
      exists it. split; [left|]. symmetry. apply Hunknown. left. }
  assert (page_label warehouse_map deck idx = "Unknown Area") as Hlabel.
  { unfold page_label. fold items. rewrite Hareas. by vm_compute. }
  assert (forall e, e ∈ plan -> info_index e = idx ->
                    sort_key e = (length AREA_SORT_ORDER, info_product_title e)) as Hkey.
  { intros e He Hidx. apply sorted_info_origin in He as (page & text & _ & _ & Hid & _ & _).
    unfold sort_key. rewrite Hid, Hidx, Hlabel. by vm_compute. }
  split; [done|]. split; [|split; [|split]].
  - assert (idx ∈ map info_index plan) as Hin.
    { unfold plan, sel. by rewrite sorted_indices_perm. }
    change (idx ∈ info_index <$> plan) in Hin.
    apply list_elem_of_fmap in Hin as (e & -> & [i Hi]%list_elem_of_lookup).
    by exists i, e.
  - intros i e Hi Hidx.
    pose proof (Hkey e (list_elem_of_lookup_2 _ _ _ Hi) Hidx) as Hk.
    split; [by rewrite Hk|].
    intros j e' Hj Hlisted.
    apply area_sort_value_listed in Hlisted.
    destruct (decide (j < i)) as [|Hge]; [done|exfalso].
    destruct (decide (i = j)) as [->|Hij].
    + rewrite Hi in Hj. injection Hj as <-.
      apply (f_equal fst) in Hk. cbn [sort_key fst] in Hk. lia.
    + assert (nat_str_leb (sort_key e) (sort_key e') = true) as Hle.
      { apply (StronglySorted_lookup_lt (key_le nat_str_leb sort_key) plan i j);
          [|done|done|lia].
        apply sorted_sorted; [apply nat_str_leb_total|apply nat_str_leb_trans]. }
      apply nat_str_leb_spec in Hle. rewrite Hk in Hle.
      cbn [sort_key fst snd] in Hle. lia.
  - intros sec (area & products & Harea & _ & _ & ->)%elem_of_summary_elements.
    cbn [section_area]. split; [done|]. intros ->. by apply unknown_area_unlisted.
  - intros area products Harea Hp it Hit.
    pose proof (collect_summary_data_bucketed warehouse_map deck (indices_to_keep sel))
      as Hb.
    assert (area <> "Unknown Area") as Hua.
    { intros ->. by apply unknown_area_unlisted. }
    split.
    + intros Hin. destruct (Hb area products it Hp Hin) as [Hres _].
      rewrite (Hunknown it Hit) in Hres. congruence.
    + intros q Hrow.
      apply (unique_products_of_merged products) in Hrow as [Hv _].
      apply valid_quantities_nonempty in Hv as (entry & Hentry & Hk).
      destruct (Hb area products entry Hp Hentry) as [Hres _].
      assert (normalized_title entry = normalized_title it) as Ht.
      { unfold normalized_title. unfold item_key in Hk. congruence. }
      rewrite Ht, (Hunknown it Hit) in Hres. congruence.
Qed.
End UnknownAreaFacts.

(** ** The events of a run *)

Section RunFacts.
Context {Page : Type}.
Variable add_area_identifier_to_page : Page -> string -> Page.
Variable build_summary_pdf : list area_section -> list Page + string.
Implicit Types (deck : list (Page * string)) (warehouse_map : gmap string string)
  (env : environment) (labels : list Page).

Lemma generate_summary_next warehouse_map deck (indices : list nat) :
  exists summary_pages summary_events,
    generate_summary build_summary_pdf warehouse_map deck indices
    = (Next summary_pages, summary_events) /\
    Forall is_popup summary_events.
Proof.
  unfold generate_summary, create_summary_pdf_page.
  destruct (summary_elements _) as [|sec secs]; [by exists [], []|].
  destruct (build_summary_pdf (sec :: secs)) as [pages|e].
  - by exists pages, [].
  - eexists [], [_]. split; [reflexivity|]. repeat constructor. by eexists.
Qed.

Lemma invalid_indices_none warehouse_map deck labels :
  length labels = length deck ->
  List.filter (fun i => negb (i <? length labels)%nat)
    (map info_index
       (pages_with_info_sorted add_area_identifier_to_page warehouse_map deck
          (select_pages warehouse_map deck))) = [].
Proof.
  intros Hlen.
  pose proof (sorted_indices_lt add_area_identifier_to_page warehouse_map deck) as Hlt.
  induction (map info_index _) as [|i l IH]; [done|].
  cbn [List.filter].
  assert (i < length labels) as Hi. { rewrite Hlen. apply Hlt. left. }
  apply Nat.ltb_lt in Hi. rewrite Hi. cbn [negb]. apply IH.
  intros idx Hidx. apply Hlt. by right.
Qed.

Lemma bind_ret_l {A B} (a : A) (k : A -> @Proc Page B) : proc_bind (Next a, []) k = k a.
Proof. unfold proc_bind. cbn. by destruct (k a). Qed.

Lemma bind_next {A B} (a : A) evs (k : A -> @Proc Page B) :
  proc_bind (Next a, evs) k = prepend evs (k a).
Proof. reflexivity. Qed.

Lemma bind_return {A B} evs (k : A -> @Proc Page B) :
  proc_bind (Return, evs) k = (Return, evs).
Proof. reflexivity. Qed.

Lemma bind_raise {A B} e evs (k : A -> @Proc Page B) :
  proc_bind (Raise e, evs) k = (Raise e, evs).
Proof. reflexivity. Qed.

Lemma abort_step {A} (ev : @event Page) :
  proc_bind (Next tt, [ev]) (fun _ : unit => (@Return A, [])) = (Return, [ev]).
Proof. reflexivity. Qed.

Lemma raise_step {A} (ev : @event Page) e :
  proc_bind (Next tt, [ev]) (fun _ : unit => (@Raise A e, [])) = (Raise e, [ev]).
Proof. reflexivity. Qed.

Lemma bind_prepend {A B} evs (m : @Proc Page A) (k : A -> @Proc Page B) :
  proc_bind (prepend evs m) k = prepend evs (proc_bind m k).
Proof.
  destruct m as [[a| |e] evs']; unfold proc_bind, prepend; cbn [fst snd];
    by rewrite ?app_assoc.
Qed.

Lemma try_except_prepend {A} evs (m : @Proc Page A) h :
  try_except (prepend evs m) h = prepend evs (try_except m h).
Proof.
  destruct m as [[a| |e] evs']; unfold try_except, prepend; cbn [fst snd];
    by rewrite ?app_assoc.
Qed.

Lemma trace_prepend {A} evs (m : @Proc Page A) : snd (prepend evs m) = evs ++ snd m.
Proof. reflexivity. Qed.

Lemma process_trace env deck labels warehouse_map :
  let trace := process_packing_slips_and_labels add_area_identifier_to_page
                 build_summary_pdf env deck labels warehouse_map in
  let sel := select_pages warehouse_map deck in
  let plan := pages_with_info_sorted add_area_identifier_to_page warehouse_map deck sel in
  (exists pre message,
      trace = pre ++ [PopupError message] /\
      (pre = [] \/ pre = [MakeDirs (save_path env)]) /\
      (save_path env = "" \/
       (save_path_exists env = false /\ is_Some (makedirs_error env)) \/
       deck = [] \/ pages_to_keep sel = []))
  \/
  (exists dirs summary_pages summary_events,
      save_path env <> "" /\ deck <> [] /\ pages_to_keep sel <> [] /\
      (dirs = [] \/ dirs = [MakeDirs (save_path env)]) /\
      Forall is_popup summary_events /\
      trace = dirs ++ summary_events
              ++ slips_events env (summary_pages ++ map info_page plan)
              ++ labels_events env (length deck) labels (map info_index plan)).
Proof.
  intros trace sel plan. unfold trace, process_packing_slips_and_labels, process_body.
  destruct (generate_summary_next warehouse_map deck (indices_to_keep sel))
    as (summary_pages & summary_events & Hgs & Hpop).
  fold sel. rewrite Hgs. fold plan.
  cbv beta delta [mbind proc_mbind mret proc_mret proc_ret popup_error emit return_].
  destruct (save_path env) as [|c sp] eqn:Hsp; cbn [nonempty negb].
  { left. eexists [], _. split; [reflexivity|]. split; [by left|by left]. }
  rewrite bind_ret_l.
  set (dirstep := if negb (save_path_exists env) then _ else _).
  assert (exists dirs,
    (dirs = [] \/ dirs = [MakeDirs (save_path env)]) /\
    (dirstep = (Next tt, dirs) \/
     (save_path_exists env = false /\ is_Some (makedirs_error env)) /\
     exists message, dirstep = (Return, [PopupError message]))) as (dirs & Hdirs & Hstep).
  { unfold dirstep. destruct (save_path_exists env); cbn [negb].
    - exists []. split; [by left|by left].
    - destruct (makedirs_error env) as [e|].
      + exists []. split; [by left|]. right. split; [|by eexists].
        split; [done|by eexists].
      + exists [MakeDirs (save_path env)]. split; [by right|]. left. by rewrite Hsp. }
  clearbody dirstep. rewrite Hsp in Hdirs.
  destruct Hstep as [->|(Hmk & message & ->)].
  2:{ left. rewrite bind_return. exists [], message. split; [done|]. split; [by left|auto]. }
  rewrite bind_next, try_except_prepend, trace_prepend.
  destruct (length deck =? 0)%nat eqn:Hzero.
  { left. rewrite abort_step, bind_return.
    eexists dirs, _. split; [reflexivity|]. split; [done|].
    right; right; left. by apply Nat.eqb_eq, nil_length_inv in Hzero. }
  assert (deck <> []) as Hdeck by (by intros ->).
  rewrite bind_ret_l.
  destruct (pages_to_keep sel) as [|kp kps] eqn:Hkeep.
  { left. rewrite abort_step, bind_return.
    eexists dirs, _. split; [reflexivity|]. split; [done|auto]. }
  rewrite bind_ret_l, bind_next, try_except_prepend, trace_prepend.
  right. exists dirs, summary_pages, summary_events.
  split; [done|]. split; [done|]. split; [done|]. split; [done|].
  split; [done|]. f_equal. f_equal.
  unfold slips_events, labels_events, save_pdf, write_pdf.
  cbv beta delta [emit raise popup_error].
  assert (forall (rest : @Proc Page unit) X,
    snd (try_except rest (fun e => (Next tt, [PopupError
           ("An error occurred during processing:" ++ nl ++ e)]))) = X ->
    snd (try_except
      (proc_bind
        (try_except
          match slips_write_error env with
          | Some e => proc_bind (Next (), [WriteFailed (sorted_packing_slips_path env)])
                        (fun _ : () => (Raise e, []))
          | None => (Next (), [WriteFile (sorted_packing_slips_path env)
                                 (summary_pages ++ map info_page plan)])
          end
          (fun e => (Next (), [PopupError ("Error saving PDF:" ++ nl ++ e)])))
        (fun _ : () => rest))
      (fun e => (Next tt, [PopupError
           ("An error occurred during processing:" ++ nl ++ e)])))
    = match slips_write_error env with
      | Some e => [WriteFailed (sorted_packing_slips_path env);
                   PopupError ("Error saving PDF:" ++ nl ++ e)]
      | None => [WriteFile (sorted_packing_slips_path env)
                   (summary_pages ++ map info_page plan)]
      end ++ X) as Hslips.
  { intros rest X <-. destruct (slips_write_error env) as [e|].
    - change (try_except (proc_bind (Next (), [WriteFailed (sorted_packing_slips_path env)])
                (fun _ : () => (Raise e, [])))
                (fun e0 => (Next (), [PopupError ("Error saving PDF:" ++ nl ++ e0)])))
        with (@Next unit tt, [@WriteFailed Page (sorted_packing_slips_path env);
                           PopupError ("Error saving PDF:" ++ nl ++ e)]).
      by rewrite bind_next, try_except_prepend, trace_prepend.
    - change (try_except (Next (), [WriteFile (sorted_packing_slips_path env)
                                 (summary_pages ++ map info_page plan)]) _)
        with (@Next unit tt, [@WriteFile Page (sorted_packing_slips_path env)
                                 (summary_pages ++ map info_page plan)]).
      by rewrite bind_next, try_except_prepend, trace_prepend. }
  apply Hslips. clear Hslips.
  destruct (length labels =? length deck)%nat eqn:Hlen; cbn [negb].
  2:{ by rewrite abort_step, bind_return. }
  rewrite bind_ret_l. apply Nat.eqb_eq in Hlen.
  unfold plan, sel. rewrite (invalid_indices_none warehouse_map deck labels Hlen).
  rewrite bind_ret_l.
  destruct (labels_write_error env) as [e|].
  - by rewrite raise_step, bind_raise.
  - by rewrite !bind_next.
Qed.
End RunFacts.

(** ** The two output files *)

Lemma output_paths_distinct (env : environment) :
  sorted_packing_slips_path env <> sorted_shipping_labels_path env.
Proof.
  unfold sorted_packing_slips_path, sorted_shipping_labels_path, path_join.
  destruct (save_path env) as [|c d]; [done|].
  destruct (String.prefix "/" (String.rev (String c d))).
  - by intros H%(inj (String.append _)).
  - by intros H%(inj (String.append _)).
Qed.

Lemma pick_labels_lookup {Page : Type} (labels : list Page) (sorted_indices : list nat) :
  Forall (fun idx => idx < length labels) sorted_indices ->
  length (pick_labels labels sorted_indices) = length sorted_indices /\
  forall i idx, sorted_indices !! i = Some idx ->
    exists label_page, labels !! idx = Some label_page /\
                       pick_labels labels sorted_indices !! i = Some label_page.
Proof.
  unfold pick_labels. induction 1 as [|idx l Hidx Hl [IHlen IH]]; [done|].
  destruct (lookup_lt_is_Some_2 labels idx Hidx) as [label_page Hlp].
  cbn [omap list_omap]. rewrite bool_decide_eq_true_2 by done. rewrite Hlp.
  split; [cbn; by rewrite IHlen|].
  intros [|i] idx' Hi; cbn in Hi.
  - injection Hi as <-. by exists label_page.
  - by apply IH.
Qed.

Section RunTheorems.
Context {Page : Type}.
Variable add_area_identifier_to_page : Page -> string -> Page.
Variable build_summary_pdf : list area_section -> list Page + string.
Implicit Types (deck : list (Page * string)) (warehouse_map : gmap string string)
  (env : environment) (labels : list Page).

Lemma not_popup_in (evs : list (@event Page)) ev :
  Forall is_popup evs -> ev ∈ evs -> is_popup ev.
Proof. intros H Hin. by eapply Forall_forall in H. Qed.

(** A run that has written both files went through all the steps. *)
Lemma both_files_written env deck labels warehouse_map slips_out labels_out :
  let trace := process_packing_slips_and_labels add_area_identifier_to_page
                 build_summary_pdf env deck labels warehouse_map in
  let plan := pages_with_info_sorted add_area_identifier_to_page warehouse_map deck
                (select_pages warehouse_map deck) in
  WriteFile (sorted_packing_slips_path env) slips_out ∈ trace ->
  WriteFile (sorted_shipping_labels_path env) labels_out ∈ trace ->
  length labels = length deck /\
  (exists summary_pages, slips_out = summary_pages ++ map info_page plan) /\
  labels_out = pick_labels labels (map info_index plan).
Proof.
  intros trace plan Hslips Hlabels.
  pose proof (output_paths_distinct env) as Hpaths.
  destruct (process_trace add_area_identifier_to_page build_summary_pdf
              env deck labels warehouse_map)
    as [(pre & message & Htrace & Hpre & _)
       |(dirs & summary_pages & summary_events & _ & _ & _ & Hdirs & Hpop & Htrace)];
    fold trace in Htrace; rewrite Htrace in Hslips, Hlabels.
  - exfalso. apply elem_of_app in Hlabels as [Hin|Hin].
    + destruct Hpre as [-> | ->]; [by apply elem_of_nil in Hin|].
      by apply list_elem_of_singleton in Hin.
    + by apply list_elem_of_singleton in Hin.
  - fold plan in Hslips, Hlabels.
    assert (forall path pages, WriteFile path pages ∉ dirs ++ summary_events) as Hnone.
    { intros path pages [Hin|Hin]%elem_of_app.
      - destruct Hdirs as [-> | ->]; [by apply elem_of_nil in Hin|].
        by apply list_elem_of_singleton in Hin.
      - by destruct (not_popup_in _ _ Hpop Hin). }
    rewrite app_assoc in Hslips, Hlabels.
    apply elem_of_app in Hslips as [Hin|Hslips]; [by apply Hnone in Hin|].
    apply elem_of_app in Hlabels as [Hin|Hlabels]; [by apply Hnone in Hin|].
    unfold slips_events, labels_events in *.
    apply elem_of_app in Hlabels as [Hin|Hlabels].
    { exfalso. destruct (slips_write_error env).
      - apply elem_of_cons in Hin as [?|Hin]; [done|].
        by apply list_elem_of_singleton in Hin.
      - apply list_elem_of_singleton in Hin. congruence. }
    destruct (length labels =? length deck)%nat eqn:Hlen; cbn [negb] in *;
      [|by apply list_elem_of_singleton in Hlabels].
    apply Nat.eqb_eq in Hlen. split; [done|].
    destruct (labels_write_error env).
    { exfalso. apply elem_of_cons in Hlabels as [?|Hin]; [done|].
      by apply list_elem_of_singleton in Hin. }
    apply elem_of_cons in Hlabels as [[= <-]|Hin].
    2:{ exfalso. apply elem_of_cons in Hin as [?|Hin]; [done|].
        by apply list_elem_of_singleton in Hin. }
    split; [|done].
    apply elem_of_app in Hslips as [Hin|Hin].
    + destruct (slips_write_error env).
      * exfalso. apply elem_of_cons in Hin as [?|Hin]; [done|].
        by apply list_elem_of_singleton in Hin.
      * apply list_elem_of_singleton in Hin. injection Hin as ->. by exists summary_pages.
    + exfalso. apply elem_of_cons in Hin as [[= ? _]|Hin]; [congruence|].
      apply elem_of_cons in Hin as [?|Hin]; [done|].
      by apply list_elem_of_singleton in Hin.
Qed.

(** C1.  When a run has written both output files, the sorted list of kept
    original indices rules both of them: after the manifest pages, the slip
    page at position [i] is the annotated slip page of original index
    [sorted_indices !! i], the label page at position [i] is the label page
    of the same original index, and both lists of pages are as long as the
    list of sorted indices, which is a rearrangement of the kept indices. *)
Theorem decks_share_permutation env deck labels warehouse_map slips_out labels_out :
  let trace := process_packing_slips_and_labels add_area_identifier_to_page
                 build_summary_pdf env deck labels warehouse_map in
  WriteFile (sorted_packing_slips_path env) slips_out ∈ trace ->
  WriteFile (sorted_shipping_labels_path env) labels_out ∈ trace ->
  exists (summary_pages : list Page) (sorted_indices : list nat),
    sorted_indices
      = map info_index
          (pages_with_info_sorted add_area_identifier_to_page warehouse_map deck
             (select_pages warehouse_map deck)) /\
    sorted_indices ≡ₚ indices_to_keep (select_pages warehouse_map deck) /\
    length slips_out = length summary_pages + length sorted_indices /\
    length labels_out = length sorted_indices /\
    forall i idx, sorted_indices !! i = Some idx ->
      exists slip_page text label_page,
        deck !! idx = Some (slip_page, text) /\
        labels !! idx = Some label_page /\
        slips_out !! (length summary_pages + i)
          = Some (add_area_identifier_to_page slip_page
                    (page_label warehouse_map deck idx)) /\
        labels_out !! i = Some label_page.
Proof.
  intros trace Hslips Hlabels.
  destruct (both_files_written env deck labels warehouse_map slips_out labels_out
              Hslips Hlabels) as (Hlen & (summary_pages & ->) & ->).
  set (plan := pages_with_info_sorted add_area_identifier_to_page warehouse_map deck
                 (select_pages warehouse_map deck)).
  exists summary_pages, (map info_index plan).
  assert (Forall (fun idx => idx < length labels) (map info_index plan)) as Hrange.
  { apply Forall_forall. intros idx Hidx. rewrite Hlen.
    by eapply sorted_indices_lt. }
  destruct (pick_labels_lookup labels (map info_index plan) Hrange) as [Hpl Hpick].
  split; [done|]. split; [apply sorted_indices_perm|].
  split; [by rewrite length_app, !length_map|]. split; [done|].
  intros i idx Hi.
  destruct (Hpick i idx Hi) as (label_page & Hlp & Hout).
  change (map info_index plan) with (info_index <$> plan) in Hi.
  apply list_lookup_fmap_Some in Hi as (e & -> & He).
  destruct (sorted_info_origin add_area_identifier_to_page warehouse_map deck e)
    as (slip_page & text & Hd & _ & _ & Hpage & _).
  { by eapply list_elem_of_lookup_2. }
  exists slip_page, text, label_page. split; [done|]. split; [done|]. split; [|done].
  rewrite lookup_app_r by lia.
  replace (length summary_pages + i - length summary_pages) with i by lia.
  change (map info_page plan) with (info_page <$> plan).
  by rewrite list_lookup_fmap, He, <- Hpage.
Qed.
End RunTheorems.

(** ** Aborted runs and failed writes *)

Section AbortTheorems.
Context {Page : Type}.
Variable add_area_identifier_to_page : Page -> string -> Page.
Variable build_summary_pdf : list area_section -> list Page + string.
Implicit Types (deck : list (Page * string)) (warehouse_map : gmap string string)
  (env : environment) (labels : list Page).

Lemma labels_events_mismatch env deck labels (sorted_indices : list nat) :
  length labels <> length deck ->
  labels_events env (length deck) labels sorted_indices
  = [@PopupError Page mismatch_message].
Proof.
  intros Hne. unfold labels_events.
  apply Nat.eqb_neq in Hne. by rewrite Hne.
Qed.

(** C2, as the code has it.  When the label deck and the packing-slip deck
    differ in their page counts, the run ends with an error pop-up, the
    sorted shipping-labels PDF is not written and no file is opened; but the
    count is only compared in step 7, so a run that has kept a page has by
    then gone through step 6, and the sorted packing-slips PDF is written
    (when that write succeeds) just before the mismatch is reported. *)
Theorem label_count_mismatch_aborts env deck labels warehouse_map :
  length labels <> length deck ->
  let trace := process_packing_slips_and_labels add_area_identifier_to_page
                 build_summary_pdf env deck labels warehouse_map in
  let sel := select_pages warehouse_map deck in
  (exists pre message, trace = pre ++ [PopupError message]) /\
  (forall pages, WriteFile (sorted_shipping_labels_path env) pages ∉ trace) /\
  (forall path, OpenFile path ∉ trace) /\
  (save_path env <> "" ->
   save_path_exists env = true \/ makedirs_error env = None ->
   pages_to_keep sel <> [] ->
   slips_write_error env = None ->
   exists pre summary_pages,
     trace = pre ++ [WriteFile (sorted_packing_slips_path env)
                       (summary_pages
                        ++ map info_page
                             (pages_with_info_sorted add_area_identifier_to_page
                                warehouse_map deck sel));
                     PopupError mismatch_message]).
Proof.
  intros Hne trace sel.
  pose proof (output_paths_distinct env) as Hpaths.
  destruct (process_trace add_area_identifier_to_page build_summary_pdf
              env deck labels warehouse_map)
    as [(pre & message & Htrace & Hpre & Hwhy)
       |(dirs & summary_pages & summary_events & Hsp & _ & Hkeep & Hdirs & Hpop & Htrace)];
    fold trace in Htrace; fold sel in Hwhy || fold sel in Htrace.
  - assert (forall ev, ev ∈ trace -> is_popup ev \/ ev = MakeDirs (save_path env)) as Hevs.
    { intros ev. rewrite Htrace. intros [Hin|Hin]%elem_of_app.
      - destruct Hpre as [-> | ->]; [by apply elem_of_nil in Hin|].
        apply list_elem_of_singleton in Hin. by right.
      - apply list_elem_of_singleton in Hin. left. by eexists. }
    split; [by exists pre, message|]. split; [|split].
    + intros pages Hin. by destruct (Hevs _ Hin) as [[? ?]|?].
    + intros path Hin. by destruct (Hevs _ Hin) as [[? ?]|?].
    + intros Hsp Hdir Hkeep _. exfalso.
      destruct Hwhy as [?|[[Hex [e He]]|[->|?]]]; [done| |done|done].
      destruct Hdir; congruence.
  - rewrite (labels_events_mismatch env deck labels _ Hne) in Htrace.
    assert (forall ev, ev ∈ trace ->
              is_popup ev \/ ev = MakeDirs (save_path env) \/
              ev = WriteFailed (sorted_packing_slips_path env) \/
              exists pages, ev = WriteFile (sorted_packing_slips_path env) pages) as Hevs.
    { intros ev. rewrite Htrace. intros [Hin|[Hin|[Hin|Hin]%elem_of_app]%elem_of_app]%elem_of_app.
      - destruct Hdirs as [-> | ->]; [by apply elem_of_nil in Hin|].
        apply list_elem_of_singleton in Hin. auto.
      - left. by eapply not_popup_in.
      - unfold slips_events in Hin. destruct (slips_write_error env).
        + apply elem_of_cons in Hin as [->|Hin]; [auto|].
          apply list_elem_of_singleton in Hin. left. by eexists.
        + apply list_elem_of_singleton in Hin. right; right; right. by eexists.
      - apply list_elem_of_singleton in Hin. left. by eexists. }
    split; [|split; [|split]].
    + eexists _, _. rewrite Htrace, !app_assoc. reflexivity.
    + intros pages Hin. destruct (Hevs _ Hin) as [[? ?]|[?|[?|[? ?]]]]; congruence.
    + intros path Hin. by destruct (Hevs _ Hin) as [[? ?]|[?|[?|[? ?]]]].
    + intros _ _ _ Hok. exists (dirs ++ summary_events), summary_pages.
      rewrite Htrace. unfold slips_events. rewrite Hok. by rewrite <- !app_assoc.
Qed.

(** C8, as the code has it.  A failed write of the sorted packing-slips PDF
    is reported at once in a pop-up, but [save_pdf] swallows the exception
    and the run goes on with step 7 exactly as after a successful write: the
    label count is compared and the shipping-labels PDF is written and both
    files are opened.  A failed write of the sorted shipping-labels PDF is
    reported at once and ends the run: nothing is opened afterwards. *)
Theorem failed_write_is_reported env deck labels warehouse_map :
  let trace := process_packing_slips_and_labels add_area_identifier_to_page
                 build_summary_pdf env deck labels warehouse_map in
  let sorted_indices :=
    map info_index
      (pages_with_info_sorted add_area_identifier_to_page warehouse_map deck
         (select_pages warehouse_map deck)) in
  (forall e, slips_write_error env = Some e ->
     WriteFailed (sorted_packing_slips_path env) ∈ trace ->
     exists pre,
       trace = pre ++ [WriteFailed (sorted_packing_slips_path env);
                       PopupError ("Error saving PDF:" ++ nl ++ e)]
                   ++ labels_events env (length deck) labels sorted_indices) /\
  (length labels = length deck -> labels_write_error env = None ->
     labels_events env (length deck) labels sorted_indices
     = [WriteFile (sorted_shipping_labels_path env) (pick_labels labels sorted_indices);
        OpenFile (sorted_packing_slips_path env);
        OpenFile (sorted_shipping_labels_path env)]) /\
  (forall e, labels_write_error env = Some e ->
     WriteFailed (sorted_shipping_labels_path env) ∈ trace ->
     exists pre,
       trace = pre ++ [WriteFailed (sorted_shipping_labels_path env);
                       PopupError ("An error occurred during processing:" ++ nl ++ e)]).
Proof.
  intros trace sorted_indices.
  pose proof (output_paths_distinct env) as Hpaths.
  destruct (process_trace add_area_identifier_to_page build_summary_pdf
              env deck labels warehouse_map)
    as [(pre & message & Htrace & Hpre & Hwhy)
       |(dirs & summary_pages & summary_events & Hsp & _ & Hkeep & Hdirs & Hpop & Htrace)];
    fold trace in Htrace.
  - assert (forall path, WriteFailed path ∉ trace) as Hnone.
    { intros path. rewrite Htrace. intros [Hin|Hin]%elem_of_app.
      - destruct Hpre as [-> | ->]; [by apply elem_of_nil in Hin|].
        by apply list_elem_of_singleton in Hin.
      - by apply list_elem_of_singleton in Hin. }
    split; [|split].
    + intros e _ Hin. by apply Hnone in Hin.
    + intros Hlen Hok. unfold labels_events.
      apply Nat.eqb_eq in Hlen. by rewrite Hlen, Hok.
    + intros e _ Hin. by apply Hnone in Hin.
  - fold sorted_indices in Htrace. split; [|split].
    + intros e He _. exists (dirs ++ summary_events).
      rewrite Htrace. unfold slips_events. rewrite He. by rewrite <- !app_assoc.
    + intros Hlen Hok. unfold labels_events.
      apply Nat.eqb_eq in Hlen. by rewrite Hlen, Hok.
    + intros e He Hin.
      assert (labels_events env (length deck) labels sorted_indices
              = [WriteFailed (sorted_shipping_labels_path env);
                 PopupError ("An error occurred during processing:" ++ nl ++ e)]) as Hl.
      { unfold labels_events in *. rewrite He in *.
        destruct (negb (length labels =? length deck)%nat); [|done]. exfalso.
        rewrite Htrace in Hin.
        apply elem_of_app in Hin as [Hin|[Hin|[Hin|Hin]%elem_of_app]%elem_of_app].
        - destruct Hdirs as [-> | ->]; [by apply elem_of_nil in Hin|].
          by apply list_elem_of_singleton in Hin.
        - by destruct (not_popup_in _ _ Hpop Hin).
        - unfold slips_events in Hin. destruct (slips_write_error env).
          + apply elem_of_cons in Hin as [[= ?]|Hin]; [done|].
            by apply list_elem_of_singleton in Hin.
          + by apply list_elem_of_singleton in Hin.
        - by apply list_elem_of_singleton in Hin. }
      rewrite Htrace, Hl. eexists. by rewrite !app_assoc.
Qed.
End AbortTheorems.

(** ** The primary area of a page with several areas *)

Lemma split_hd_prefix (a r : string) :
  Py.contains "," a = false ->
  r = ""%string \/ (exists r', r = String "," r') ->
  hd ""%string (Py.split "," (a ++ r)) = a.
Proof.
  intros Ha Hr. induction a as [|c a IH].
  - rewrite string_app_nil_l. destruct Hr as [->|[r' ->]]; [done|].
    cbn [Py.split]. by rewrite Ascii.eqb_refl.
  - rewrite contains_char_cons in Ha. apply orb_false_iff in Ha as [Hc Ha].
    rewrite string_app_cons. cbn [Py.split].
    rewrite Ascii.eqb_sym, Hc.
    destruct (Py.split "," (a ++ r)) as [|w ws] eqn:Hs; [by apply split_nonempty in Hs|].
    cbn [hd] in *. by rewrite (IH Ha).
Qed.

Lemma join_cons (sep a : string) (l : list string) :
  Py.join sep (a :: l)
  = (a ++ match l with [] => "" | _ => sep ++ Py.join sep l end)%string.
Proof.
  unfold Py.join. cbn [String.concat]. destruct l; [by rewrite string_app_nil_r|done].
Qed.

(** C10, as the code has it.  For a page with two or more distinct areas
    whose codes contain no comma and have no white space around them, the
    primary area used by the sort is the alphabetically smallest of the areas
    written on the page (after the removal of "B16"), whatever the ranks of
    the areas are: {"B11", "D16"} is labelled "B11, D16" and sorts with the
    rank of "B11", although "D16" comes before "B11" in [AREA_SORT_ORDER]. *)
Theorem primary_area_is_alphabetically_smallest (s : gset string) :
  1 < size s ->
  (forall a, a ∈ s -> Py.contains "," a = false /\ Py.strip a = a) ->
  (exists smallest,
      smallest ∈ composed_areas s /\
      (forall b, b ∈ composed_areas s -> String.leb smallest b = true) /\
      get_primary_area (determine_area_identifier s) = smallest) /\
  determine_area_identifier {["B11"; "D16"]} = "B11, D16" /\
  area_sort_value (get_primary_area "B11, D16") = area_sort_value "B11" /\
  area_sort_value "D16" < area_sort_value "B11".
Proof.
  intros Hsize Hclean. split; [|by vm_compute].
  assert (composed_areas s ⊆ s) as Hsub.
  { unfold composed_areas. destruct (decide _); set_solver. }
  assert (composed_areas s <> ∅) as Hne.
  { unfold composed_areas. destruct (decide _) as [[Hin _]|_].
    - intros Hempty. apply (f_equal size) in Hempty.
      rewrite size_difference, size_singleton, size_empty in Hempty by set_solver. lia.
    - intros ->. rewrite size_empty in Hsize. lia. }
  rewrite determine_area_identifier_composed.
  pose proof (sorted_set_ascending (composed_areas s)) as Hsorted.
  pose proof (elem_of_sorted_set (composed_areas s)) as Helem.
  destruct (sorted_set (composed_areas s)) as [|a l] eqn:Hl.
  { exfalso. apply Hne. apply set_eq. intros x. rewrite <- Helem.
    split; [by intros ?%elem_of_nil|by intros ?%elem_of_empty]. }
  exists a. assert (a ∈ composed_areas s) as Ha by (apply Helem; left).
  split; [done|]. split.
  - intros b [->|Hb]%Helem%elem_of_cons; [apply string_leb_refl|].
    apply StronglySorted_inv in Hsorted as [_ Hall].
    by eapply Forall_forall in Hall.
  - destruct (Hclean a (Hsub a Ha)) as [Hcomma Hstrip].
    unfold get_primary_area. rewrite join_cons, split_hd_prefix; [done|done|].
    destruct l; [by left|right]. by eexists.
Qed.

(** ** Concrete checks *)

Example example_run :
  process_packing_slips_and_labels Sample.add_area_identifier_to_page
    Sample.build_summary_pdf Sample.env Sample.deck Sample.labels Sample.warehouse_map
  = [WriteFile "/out/sorted_packing_slips.pdf"
       ["Locker: A13"; "Locker: B11"; "slip 1 @ A13"; "slip 0 @ B11"];
     WriteFile "/out/sorted_shipping_labels.pdf" ["label 1"; "label 0"];
     OpenFile "/out/sorted_packing_slips.pdf";
     OpenFile "/out/sorted_shipping_labels.pdf"].
Proof. by vm_compute. Qed.

Example example_merge :
  area_table [("Tee", "M", "2"); ("Tee", "M", "3")]
  = [["Product Title"; "Size"; "Quantity"]; ["Tee"; "M"; "5"]].
Proof. by vm_compute. Qed.

Example example_not_an_integer :
  area_table [("Tee", "M", "many")] = [["Product Title"; "Size"; "Quantity"]].
Proof. by vm_compute. Qed.

Example example_parse :
  extract_product_details
    (Sample.slip ["Order 1"; "ITEMS QUANTITY"; "Tee"; "M 2 of 2"; "SKU: 123";
                   "Hat"; "Size 1 1 of 1"; "LB-123"; "Unknown thing";
                   "Free Sample size 39"; "nothing"; "Mystery"; "42";
                   "Thank you for shopping with us!"; "Tee"; "M 1 of 1"])
    Sample.warehouse_map
  = [("Tee", "M", "2"); ("Hat", "Size 1", "1"); ("Free Sample size 39", "39", "1");
     ("Mystery", "42", "1")].
Proof. by vm_compute. Qed.

(** ** The theorems at the sample decks *)

(** C1 at the three-page deck: both files are written, and the sorted indices
    [1; 0] rule both. *)
Lemma decks_share_permutation_witness :
  let slips_out := ["Locker: A13"; "Locker: B11"; "slip 1 @ A13"; "slip 0 @ B11"] in
  let labels_out := ["label 1"; "label 0"] in
  exists (summary_pages : list string) (sorted_indices : list nat),
    sorted_indices
      = map info_index
          (pages_with_info_sorted Sample.add_area_identifier_to_page
             Sample.warehouse_map Sample.deck
             (select_pages Sample.warehouse_map Sample.deck)) /\
    sorted_indices ≡ₚ indices_to_keep (select_pages Sample.warehouse_map Sample.deck) /\
    length slips_out = length summary_pages + length sorted_indices /\
    length labels_out = length sorted_indices /\
    forall i idx, sorted_indices !! i = Some idx ->
      exists slip_page text label_page,
        Sample.deck !! idx = Some (slip_page, text) /\
        Sample.labels !! idx = Some label_page /\
        slips_out !! (length summary_pages + i)
          = Some (Sample.add_area_identifier_to_page slip_page
                    (page_label Sample.warehouse_map Sample.deck idx)) /\
        labels_out !! i = Some label_page.
Proof.
  intros slips_out labels_out.
  apply (decks_share_permutation Sample.add_area_identifier_to_page
           Sample.build_summary_pdf Sample.env Sample.deck Sample.labels
           Sample.warehouse_map slips_out labels_out).
  - apply (list_elem_of_lookup_2 _ 0). by vm_compute.
  - apply (list_elem_of_lookup_2 _ 1). by vm_compute.
Defined.

(** C4 at a sample title that has an entry of its own, at a catalogued title
    and at an unknown one. *)
Lemma get_warehouse_area_cases_witness :
  get_warehouse_area "free sample tee" {["free sample tee" := "B11"]} = "garage" /\
  get_warehouse_area "tee" Sample.warehouse_map = "B11" /\
  get_warehouse_area "tee shirt" Sample.warehouse_map = "Unknown Area".
Proof.
  assert (forall product, Py.contains "sample" (Py.lower product) = false ->
            ~ exists pre post, Py.lower product = (pre ++ "sample" ++ post)%string) as Hno.
  { intros product Hc H. apply contains_spec in H. congruence. }
  split; [|split].
  - apply (proj1 (get_warehouse_area_cases "free sample tee" {["free sample tee" := "B11"]})).
    by exists "free "%string, " tee"%string.
  - apply (proj1 (proj2 (get_warehouse_area_cases "tee" Sample.warehouse_map)));
      [apply Hno|]; by vm_compute.
  - apply (proj2 (proj2 (get_warehouse_area_cases "tee shirt" Sample.warehouse_map)));
      [apply Hno|]; by vm_compute.
Defined.

(** C6 at the page without items of the three-page deck. *)
Lemma page_kept_iff_witness :
  let idx := 2 in
  let items := extract_product_details
                 (Sample.slip ["Order 1003"; "Thank you for shopping with us!"])
                 Sample.warehouse_map in
  let sel := select_pages Sample.warehouse_map Sample.deck in
  (idx ∈ indices_to_keep sel <->
     page_areas Sample.warehouse_map items <> ∅ \/
     exists it, it ∈ items /\ Py.contains "sample" (normalized_title it) = true) /\
  (items = [] ->
     (idx ∉ indices_to_keep sel) /\
     (idx ∉ map info_index
              (pages_with_info_sorted Sample.add_area_identifier_to_page
                 Sample.warehouse_map Sample.deck sel)) /\
     forall area products it,
       collect_summary_data Sample.warehouse_map Sample.deck (indices_to_keep sel) !! area
         = Some products ->
       it ∈ products ->
       exists idx', idx' <> idx /\ idx' ∈ indices_to_keep sel /\
                    it ∈ page_items Sample.warehouse_map Sample.deck idx').
Proof.
  apply (page_kept_iff Sample.add_area_identifier_to_page Sample.warehouse_map
           Sample.deck 2 "slip 2"
           (Sample.slip ["Order 1003"; "Thank you for shopping with us!"])).
  reflexivity.
Defined.

(** C7 at a bucket with two entries to merge and one without a quantity. *)
Lemma manifest_rows_merged_witness :
  exists products,
    Sample.summary_data !! "B11" = Some products /\
    let rows := unique_products_of products in
    [table_header; ["Tee"; "M"; "5"]] = table_header :: map table_row rows /\
    NoDup (map fst rows) /\
    forall k q, (k, q) ∈ rows <->
                valid_quantities k products <> [] /\
                q = sum_Z (valid_quantities k products).
Proof.
  apply (manifest_rows_merged Sample.summary_data
           (AreaSection "B11" "Locker: B11" [table_header; ["Tee"; "M"; "5"]])).
  apply (list_elem_of_lookup_2 _ 0). by vm_compute.
Defined.

(** C9 at a deck whose first page holds only a product of the area
    "Unknown Area": the page is kept, stands last, and is not in the manifest. *)
Lemma unknown_area_page_witness :
  let deck := Sample.unlisted_deck in
  let warehouse_map := Sample.warehouse_map in
  let items := page_items warehouse_map deck 0 in
  let sel := select_pages warehouse_map deck in
  let plan := pages_with_info_sorted Sample.add_area_identifier_to_page
                warehouse_map deck sel in
  let summary_data := collect_summary_data warehouse_map deck (indices_to_keep sel) in
  items = [("Mystery", "M", "1")] /\
  page_areas warehouse_map items <> ∅ /\
  page_label warehouse_map deck 0 = "Unknown Area" /\
  map info_index plan = [1; 0] /\
  (forall i e, plan !! i = Some e -> info_index e = 0 ->
     fst (sort_key e) = length AREA_SORT_ORDER /\
     forall j e', plan !! j = Some e' ->
                  get_primary_area (info_area_identifier e') ∈ AREA_SORT_ORDER ->
                  j < i) /\
  (forall sec, sec ∈ summary_elements summary_data ->
     section_area sec ∈ AREA_SORT_ORDER /\ section_area sec <> "Unknown Area") /\
  (forall area products,
     area ∈ AREA_SORT_ORDER -> summary_data !! area = Some products ->
     forall it, it ∈ items ->
       (it ∉ products) /\ forall q, (item_key it, q) ∉ unique_products_of products).
Proof.
  intros deck warehouse_map items sel plan summary_data.
  assert (items = [("Mystery", "M", "1")]) as Hitems by (by vm_compute).
  destruct (unknown_area_page_kept_but_not_in_manifest
              Sample.add_area_identifier_to_page warehouse_map deck 0)
    as (_ & Hareas & Hunknown).
  { apply (list_elem_of_lookup_2 _ 0). by vm_compute. }
  destruct Hunknown as (Hlabel & _ & Hlast & Hsections & Hbuckets).
  { fold items. rewrite Hitems. intros it ->%list_elem_of_singleton. by vm_compute. }
  split; [done|]. split; [done|]. split; [done|]. split; [by vm_compute|].
  split; [done|]. split; done.
Defined.

(** C2 at the three-page deck with a label deck of two pages. *)
Lemma label_count_mismatch_aborts_witness :
  let trace := process_packing_slips_and_labels Sample.add_area_identifier_to_page
                 Sample.build_summary_pdf Sample.env Sample.deck Sample.short_labels
                 Sample.warehouse_map in
  let sel := select_pages Sample.warehouse_map Sample.deck in
  (exists pre message, trace = pre ++ [PopupError message]) /\
  (forall pages, WriteFile (sorted_shipping_labels_path Sample.env) pages ∉ trace) /\
  (forall path, OpenFile path ∉ trace) /\
  exists pre summary_pages,
    trace = pre ++ [WriteFile (sorted_packing_slips_path Sample.env)
                      (summary_pages
                       ++ map info_page
                            (pages_with_info_sorted Sample.add_area_identifier_to_page
                               Sample.warehouse_map Sample.deck sel));
                    PopupError mismatch_message].
Proof.
  intros trace sel.
  destruct (label_count_mismatch_aborts Sample.add_area_identifier_to_page
              Sample.build_summary_pdf Sample.env Sample.deck Sample.short_labels
              Sample.warehouse_map) as (Herr & Hlabels & Hopen & Hslips).
  { by vm_compute. }
  split; [done|]. split; [done|]. split; [done|].
  apply Hslips; [done|by left|by vm_compute|done].
Defined.

(** The claim of C2 fails at the same input: the page counts differ, and the
    sorted packing-slips PDF has been written when the run is aborted. *)
Lemma label_count_mismatch_after_slips_written :
  length Sample.short_labels <> length Sample.deck /\
  process_packing_slips_and_labels Sample.add_area_identifier_to_page
    Sample.build_summary_pdf Sample.env Sample.deck Sample.short_labels
    Sample.warehouse_map
  = [WriteFile "/out/sorted_packing_slips.pdf"
       ["Locker: A13"; "Locker: B11"; "slip 1 @ A13"; "slip 0 @ B11"];
     PopupError mismatch_message].
Proof. split; by vm_compute. Qed.

(** C8 at the three-page deck when the first write fails, and when the
    second write fails. *)
Lemma failed_write_is_reported_witness :
  (exists pre,
     process_packing_slips_and_labels Sample.add_area_identifier_to_page
       Sample.build_summary_pdf Sample.env_slips_write_fails Sample.deck Sample.labels
       Sample.warehouse_map
     = pre ++ [WriteFailed "/out/sorted_packing_slips.pdf";
               PopupError ("Error saving PDF:" ++ nl ++ "disk full");
               WriteFile "/out/sorted_shipping_labels.pdf" ["label 1"; "label 0"];
               OpenFile "/out/sorted_packing_slips.pdf";
               OpenFile "/out/sorted_shipping_labels.pdf"]) /\
  (exists pre,
     process_packing_slips_and_labels Sample.add_area_identifier_to_page
       Sample.build_summary_pdf Sample.env_labels_write_fails Sample.deck Sample.labels
       Sample.warehouse_map
     = pre ++ [WriteFailed "/out/sorted_shipping_labels.pdf";
               PopupError ("An error occurred during processing:" ++ nl ++ "disk full")]).
Proof.
  split.
  - destruct (failed_write_is_reported Sample.add_area_identifier_to_page
                Sample.build_summary_pdf Sample.env_slips_write_fails Sample.deck
                Sample.labels Sample.warehouse_map) as (Hslips & Hgoes_on & _).
    destruct (Hslips "disk full"%string) as [pre Hpre].
    + reflexivity.
    + apply (list_elem_of_lookup_2 _ 0). by vm_compute.
    + exists pre. rewrite Hpre, Hgoes_on by done. reflexivity.
  - destruct (failed_write_is_reported Sample.add_area_identifier_to_page
                Sample.build_summary_pdf Sample.env_labels_write_fails Sample.deck
                Sample.labels Sample.warehouse_map) as (_ & _ & Hlabels).
    apply (Hlabels "disk full"%string).
    + reflexivity.
    + apply (list_elem_of_lookup_2 _ 1). by vm_compute.
Defined.

(** The claim of C8 fails when the first write fails: the failure is shown,
    and the later steps are executed all the same. *)
Lemma steps_after_failed_slips_write :
  slips_write_error Sample.env_slips_write_fails = Some "disk full" /\
  process_packing_slips_and_labels Sample.add_area_identifier_to_page
    Sample.build_summary_pdf Sample.env_slips_write_fails Sample.deck Sample.labels
    Sample.warehouse_map
  = [WriteFailed "/out/sorted_packing_slips.pdf";
     PopupError ("Error saving PDF:" ++ nl ++ "disk full");
     WriteFile "/out/sorted_shipping_labels.pdf" ["label 1"; "label 0"];
     OpenFile "/out/sorted_packing_slips.pdf";
     OpenFile "/out/sorted_shipping_labels.pdf"].
Proof. split; by vm_compute. Qed.

(** C10 at the area set of the claim's example. *)
Lemma primary_area_is_alphabetically_smallest_witness :
  (exists smallest,
      smallest ∈ composed_areas {["B11"; "D16"]} /\
      (forall b, b ∈ composed_areas {["B11"; "D16"]} -> String.leb smallest b = true) /\
      get_primary_area (determine_area_identifier {["B11"; "D16"]}) = smallest) /\
  determine_area_identifier {["B11"; "D16"]} = "B11, D16" /\
  area_sort_value (get_primary_area "B11, D16") = area_sort_value "B11" /\
  area_sort_value "D16" < area_sort_value "B11".
Proof.
  apply (primary_area_is_alphabetically_smallest {["B11"; "D16"]}).
  - by vm_compute.
  - intros a [->%elem_of_singleton | ->%elem_of_singleton]%elem_of_union; by vm_compute.
Defined.

(** The claim of C10 fails for an area code that contains a comma: a page
    with the areas "B11, B12" and "D16" is labelled "B11, B12, D16", its
    alphabetically smallest area is "B11, B12", and its primary area is "B11",
    which is not one of its areas. *)
Lemma primary_area_of_comma_area :
  let s := page_areas Sample.comma_map
             (extract_product_details Sample.comma_page Sample.comma_map) in
  s = {["B11, B12"; "D16"]} /\
  1 < size s /\
  determine_area_identifier s = "B11, B12, D16" /\
  sorted_set (composed_areas s) = ["B11, B12"; "D16"] /\
  get_primary_area (determine_area_identifier s) = "B11" /\
  ("B11" ∉ s).
Proof.
  intros s.
  assert (s = {["B11, B12"; "D16"]}) as -> by (by vm_compute).
  split; [done|]. split; [by vm_compute|]. split; [by vm_compute|].
  split; [by vm_compute|]. split; [by vm_compute|].
  intros [H%elem_of_singleton | H%elem_of_singleton]%elem_of_union; discriminate H.
Qed.



(** * Further properties of the code *)

(** ** More on strings *)

Lemma rev_app_append (s t : string) : String.rev_app s t = (String.rev s ++ t)%string.
Proof.
  unfold String.rev. revert t. induction s as [|a s IH]; intros t; [done|].
  cbn [String.rev_app]. rewrite IH, (IH (String a "")), string_app_assoc. done.
Qed.

Lemma rev_cons (a : ascii) (s : string) :
  String.rev (String a s) = (String.rev s ++ String a "")%string.
Proof. unfold String.rev at 1. cbn [String.rev_app]. apply rev_app_append. Qed.

Lemma rev_append (s t : string) :
  String.rev (s ++ t) = (String.rev t ++ String.rev s)%string.
Proof.
  induction s as [|a s IH]; [by rewrite string_app_nil_r|].
  rewrite string_app_cons, !rev_cons, IH, string_app_assoc. done.
Qed.

Lemma rev_involutive (s : string) : String.rev (String.rev s) = s.
Proof.
  induction s as [|a s IH]; [done|].
  rewrite rev_cons, rev_append, IH. done.
Qed.

Lemma all_chars_append p (s t : string) :
  all_chars p (s ++ t) = all_chars p s && all_chars p t.
Proof.
  induction s as [|a s IH]; [done|].
  rewrite string_app_cons. cbn [all_chars]. by rewrite IH, andb_assoc.
Qed.

Lemma all_chars_rev p (s : string) : all_chars p (String.rev s) = all_chars p s.
Proof.
  induction s as [|a s IH]; [done|].
  rewrite rev_cons, all_chars_append, IH. cbn [all_chars].
  rewrite andb_true_r. apply andb_comm.
Qed.

Lemma all_chars_impl (p q : ascii -> bool) (s : string) :
  (forall c, p c = true -> q c = true) -> all_chars p s = true -> all_chars q s = true.
Proof.
  intros Hpq. induction s as [|a s IH]; [done|]. cbn [all_chars].
  intros [Ha Hs]%andb_true_iff. by rewrite (Hpq a Ha), IH.
Qed.

(** [lstrip] removes a prefix of white space and stops at a visible character. *)
Lemma lstrip_spec (s : string) :
  exists pre, s = (pre ++ Py.lstrip s)%string /\ all_chars Py.is_space pre = true /\
              match Py.lstrip s with
              | EmptyString => True
              | String c _ => Py.is_space c = false
              end.
Proof.
  induction s as [|a s (pre & Hs & Hpre & Hhd)]; [by exists ""%string|].
  cbn [Py.lstrip]. destruct (Py.is_space a) eqn:Ha.
  - exists (String a pre). rewrite string_app_cons, <- Hs. cbn [all_chars]. by rewrite Ha.
  - by exists ""%string.
Qed.

Lemma lstrip_visible (c : ascii) (s : string) :
  Py.is_space c = false -> Py.lstrip (String c s) = String c s.
Proof. intros H. cbn [Py.lstrip]. by rewrite H. Qed.

Lemma lstrip_idempotent (s : string) : Py.lstrip (Py.lstrip s) = Py.lstrip s.
Proof.
  destruct (lstrip_spec s) as (_ & _ & _ & H).
  destruct (Py.lstrip s) as [|c t]; [done|]. by apply lstrip_visible.
Qed.

Lemma lstrip_append_visible (s : string) (c : ascii) (t : string) :
  Py.is_space c = false ->
  exists u, Py.lstrip (s ++ String c t) = (u ++ String c t)%string.
Proof.
  intros Hc. induction s as [|a s [u IH]].
  - exists ""%string. by apply lstrip_visible.
  - rewrite string_app_cons. cbn [Py.lstrip]. destruct (Py.is_space a).
    + by exists u.
    + by exists (String a s).
Qed.

Lemma rstrip_spec (s : string) :
  exists post, s = (Py.rstrip s ++ post)%string /\ all_chars Py.is_space post = true.
Proof.
  unfold Py.rstrip. destruct (lstrip_spec (String.rev s)) as (pre & Hs & Hpre & _).
  exists (String.rev pre). split; [|by rewrite all_chars_rev].
  rewrite <- rev_append, <- Hs. by rewrite rev_involutive.
Qed.

Lemma rstrip_idempotent (s : string) : Py.rstrip (Py.rstrip s) = Py.rstrip s.
Proof. unfold Py.rstrip. by rewrite rev_involutive, lstrip_idempotent. Qed.

(** A string that starts with a visible character still starts with it after
    [rstrip]. *)
Lemma rstrip_keeps_head (c : ascii) (s : string) :
  Py.is_space c = false -> exists t, Py.rstrip (String c s) = String c t.
Proof.
  intros Hc. unfold Py.rstrip. rewrite rev_cons.
  destruct (lstrip_append_visible (String.rev s) c "" Hc) as [u ->].
  rewrite rev_append. by eexists.
Qed.

Lemma lstrip_rstrip_lstrip (s : string) :
  Py.lstrip (Py.rstrip (Py.lstrip s)) = Py.rstrip (Py.lstrip s).
Proof.
  destruct (lstrip_spec s) as (_ & _ & _ & H).
  destruct (Py.lstrip s) as [|c t]; [done|].
  destruct (rstrip_keeps_head c t H) as [u ->]. by apply lstrip_visible.
Qed.

Lemma strip_idempotent (s : string) : Py.strip (Py.strip s) = Py.strip s.
Proof. unfold Py.strip. by rewrite lstrip_rstrip_lstrip, rstrip_idempotent. Qed.

(** [strip] cuts white space off both ends and nothing else. *)
Lemma strip_spec (s : string) :
  exists pre post, s = (pre ++ Py.strip s ++ post)%string /\
                   all_chars Py.is_space pre = true /\ all_chars Py.is_space post = true.
Proof.
  unfold Py.strip. destruct (lstrip_spec s) as (pre & Hs & Hpre & _).
  destruct (rstrip_spec (Py.lstrip s)) as (post & Hl & Hpost).
  exists pre, post. by rewrite <- Hl.
Qed.

Lemma strip_no_space (s : string) :
  all_chars (fun c => negb (Py.is_space c)) s = true -> Py.strip s = s.
Proof.
  intros Hs. assert (forall t, all_chars (fun c => negb (Py.is_space c)) t = true ->
                         Py.lstrip t = t) as Hl.
  { intros [|c t]; [done|]. cbn [all_chars]. intros [Hc _]%andb_true_iff.
    apply lstrip_visible. by destruct (Py.is_space c). }
  unfold Py.strip, Py.rstrip. rewrite (Hl s Hs), Hl; [apply rev_involutive|].
  by rewrite all_chars_rev.
Qed.

Lemma contains_strip (needle s : string) :
  Py.contains needle (Py.strip s) = true -> Py.contains needle s = true.
Proof.
  rewrite !contains_spec. intros (a & b & H).
  destruct (strip_spec s) as (pre & post & Hs & _).
  exists (pre ++ a)%string, (b ++ post)%string.
  rewrite Hs, H, !string_app_assoc. done.
Qed.

Lemma lower_char_space (c : ascii) : Py.is_space (Py.lower_char c) = Py.is_space c.
Proof. by destruct c as [[] [] [] [] [] [] [] []]. Qed.

Lemma lower_char_idempotent (c : ascii) : Py.lower_char (Py.lower_char c) = Py.lower_char c.
Proof. by destruct c as [[] [] [] [] [] [] [] []]. Qed.

Lemma lower_append (s t : string) : Py.lower (s ++ t) = (Py.lower s ++ Py.lower t)%string.
Proof.
  induction s as [|a s IH]; [done|].
  rewrite string_app_cons. cbn [Py.lower Py.map_chars]. fold (Py.lower (s ++ t)).
  fold (Py.lower s). by rewrite IH.
Qed.

Lemma lower_rev (s : string) : Py.lower (String.rev s) = String.rev (Py.lower s).
Proof.
  induction s as [|a s IH]; [done|].
  cbn [Py.lower Py.map_chars]. fold (Py.lower s). rewrite !rev_cons, lower_append, IH. done.
Qed.

Lemma lower_lstrip (s : string) : Py.lower (Py.lstrip s) = Py.lstrip (Py.lower s).
Proof.
  induction s as [|a s IH]; [done|].
  cbn [Py.lower Py.map_chars Py.lstrip]. fold (Py.lower s).
  rewrite lower_char_space. destruct (Py.is_space a); [done|].
  cbn [Py.lower Py.map_chars]. done.
Qed.

(** [lower] and [strip] commute: the two normalisations of the code,
    [s.strip().lower()] and [s.lower().strip()], agree. *)
Lemma lower_strip (s : string) : Py.lower (Py.strip s) = Py.strip (Py.lower s).
Proof.
  unfold Py.strip, Py.rstrip. by rewrite lower_rev, lower_lstrip, lower_rev, lower_lstrip.
Qed.

Lemma lower_idempotent (s : string) : Py.lower (Py.lower s) = Py.lower s.
Proof.
  induction s as [|a s IH]; [done|].
  cbn [Py.lower Py.map_chars]. fold (Py.lower s). fold (Py.lower (Py.lower s)).
  by rewrite lower_char_idempotent, IH.
Qed.

Lemma digit_not_space (c : ascii) : Py.is_digit c = true -> Py.is_space c = false.
Proof. by destruct c as [[] [] [] [] [] [] [] []]. Qed.

Lemma int_digits_of_digits (s : string) (acc : Z) (prev : bool) :
  all_chars Py.is_digit s = true -> (0 <= acc)%Z ->
  (s <> "" \/ prev = true) ->
  exists n, Py.int_digits acc prev s = Some n /\ (0 <= n)%Z.
Proof.
  revert acc prev. induction s as [|c s IH]; intros acc prev Hs Hacc Hne.
  - destruct Hne as [? | ->]; [done|]. by exists acc.
  - cbn [all_chars] in Hs. apply andb_true_iff in Hs as [Hc Hs].
    cbn [Py.int_digits]. rewrite Hc. apply IH; [done| |by right].
    unfold Py.digit_value. lia.
Qed.

Lemma digit_not_int_space (c : ascii) : Py.is_digit c = true -> Py.is_int_space c = false.
Proof. by destruct c as [[] [] [] [] [] [] [] []]. Qed.

Lemma digit_string_last (d : string) :
  digit_string d -> exists c t, String.rev d = String c t /\ Py.is_digit c = true.
Proof.
  intros [Hne Hd]. destruct (String.rev d) as [|c t] eqn:Hr.
  { apply (f_equal String.rev) in Hr. rewrite rev_involutive in Hr. done. }
  exists c, t. split; [done|].
  rewrite <- all_chars_rev, Hr in Hd. cbn [all_chars] in Hd.
  by apply andb_true_iff in Hd as [? _].
Qed.

Lemma int_strip_digits (d : string) : digit_string d -> Py.int_strip d = d.
Proof.
  intros Hd. destruct (digit_string_last d Hd) as (c' & t' & Hr & Hc').
  destruct Hd as [Hne Hd]. unfold Py.int_strip.
  destruct d as [|c t]; [done|]. cbn [all_chars] in Hd.
  apply andb_true_iff in Hd as [Hc _].
  cbn [Py.skip]. rewrite (digit_not_int_space c Hc), Hr.
  cbn [Py.skip]. rewrite (digit_not_int_space c' Hc'), <- Hr. apply rev_involutive.
Qed.

Lemma string_length_append (s t : string) :
  String.length (s ++ t) = String.length s + String.length t.
Proof.
  induction s as [|c s IH]; [done|].
  rewrite string_app_cons. cbn [String.length]. lia.
Qed.

Lemma count_digits_digits (d : string) :
  all_chars Py.is_digit d = true -> Py.count_digits d = Z.of_nat (String.length d).
Proof.
  induction d as [|c d IH]; [done|]. cbn [all_chars].
  intros [Hc Hd]%andb_true_iff. cbn [Py.count_digits String.length].
  rewrite Hc, IH by done. lia.
Qed.

(** [int] reads a non-empty string of at most 4300 digits, with a value that
    is not negative, and refuses a longer one. *)
Lemma int_of_digit_string (s : string) :
  digit_string s ->
  if (Py.max_str_digits <? Z.of_nat (String.length s))%Z
  then Py.int s = None
  else exists n, Py.int s = Some n /\ (0 <= n)%Z.
Proof.
  intros Hs. unfold Py.int. rewrite (int_strip_digits s Hs).
  destruct Hs as [Hne Hd]. rewrite (count_digits_digits s Hd).
  destruct (Py.max_str_digits <? Z.of_nat (String.length s))%Z; [done|].
  destruct s as [|c s]; [done|].
  pose proof Hd as Hd'. cbn [all_chars] in Hd'. apply andb_true_iff in Hd' as [Hc _].
  destruct c as [[] [] [] [] [] [] [] []]; try (by vm_compute in Hc);
    lazy beta iota; (apply int_digits_of_digits; [done|done|by left]).
Qed.


(** ** The matcher finds only matches *)

Lemma drop_prefix_Some (l s s' : string) :
  Re.drop_prefix l s = Some s' -> s = (l ++ s')%string.
Proof.
  revert s. induction l as [|a l IH]; intros s; cbn [Re.drop_prefix].
  - by intros [= ->].
  - destruct s as [|b s]; [done|]. destruct (Ascii.eqb a b) eqn:Hab; [|done].
    apply Ascii.eqb_eq in Hab as ->. intros H%IH. by rewrite string_app_cons, H.
Qed.

Lemma plus_Some {A} (p : ascii -> bool) (s : string) (k : string -> option A) (a : A) :
  Re.plus p s k = Some a ->
  exists pre rest, pre <> ""%string /\ all_chars p pre = true /\
                   s = (pre ++ rest)%string /\ k rest = Some a.
Proof.
  induction s as [|c s IH]; cbn [Re.plus]; [done|].
  destruct (p c) eqn:Hc; [|done].
  destruct (Re.plus p s k) as [a'|] eqn:Hplus.
  - intros [= ->]. destruct (IH eq_refl) as (pre & rest & _ & Hpre & -> & Hk).
    exists (String c pre), rest. split; [done|]. split; [|done].
    cbn [all_chars]. by rewrite Hc, Hpre.
  - intros Hk. exists (String c ""), s. split; [done|]. split; [|done].
    cbn [all_chars]. by rewrite Hc.
Qed.

Lemma run_Some {A} (r : Re.regex) (s : string) (cs : Re.captures)
    (k : string -> Re.captures -> option A) (a : A) :
  Re.run r s cs k = Some a ->
  exists rest new, re_matches r s rest new /\ k rest (new ++ cs) = Some a.
Proof.
  revert s cs k a. induction r as [l|p|r1 IH1 r2 IH2|r IH|n r IH]; intros s cs k a;
    cbn [Re.run re_matches].
  - destruct (Re.drop_prefix l s) as [s'|] eqn:Hl; [|done].
    apply drop_prefix_Some in Hl. intros Hk. by exists s', [].
  - intros (pre & rest & Hne & Hpre & Hs & Hk)%plus_Some.
    exists rest, []. split; [by exists pre|done].
  - intros (mid & n1 & H1 & (rest & n2 & H2 & Hk)%IH2)%IH1.
    exists rest, (n2 ++ n1). split; [by exists mid, n1, n2|]. by rewrite <- app_assoc.
  - destruct (Re.run r s cs k) as [a'|] eqn:Hr.
    + intros [= ->]. apply IH in Hr as (rest & new & Hm & Hk).
      exists rest, new. split; [by left|done].
    + intros Hk. exists s, []. split; [by right|done].
  - intros (rest & n1 & Hm & Hk)%IH.
    exists rest, ((n, Re.consumed s rest) :: n1). split; [by exists n1|done].
Qed.

Lemma consumed_append (pre rest : string) : Re.consumed (pre ++ rest) rest = pre.
Proof.
  unfold Re.consumed.
  assert (String.length (pre ++ rest) = String.length pre + String.length rest) as ->.
  { induction pre as [|c pre IH]; [done|].
    rewrite string_app_cons. cbn [String.length]. lia. }
  replace (String.length pre + String.length rest - String.length rest)
    with (String.length pre) by lia.
  induction pre as [|c pre IH]; [by destruct rest|].
  rewrite string_app_cons. cbn [String.length String.substring]. by rewrite IH.
Qed.

Section GreedyPlus.
Context {A : Type}.
Implicit Types (p : ascii -> bool) (k : string -> option A).

Lemma plus_stops p (rest : string) k :
  (forall c t, rest = String c t -> p c = false) -> Re.plus p rest k = None.
Proof.
  intros Hrest. destruct rest as [|c t]; [done|].
  cbn [Re.plus]. by rewrite (Hrest c t).
Qed.

(** The longest run of the class is tried first. *)
Lemma plus_greedy p (pre rest : string) k (a : A) :
  pre <> "" -> all_chars p pre = true ->
  (forall c t, rest = String c t -> p c = false) ->
  k rest = Some a ->
  Re.plus p (pre ++ rest) k = Some a.
Proof.
  intros Hne Hpre Hrest Hk. induction pre as [|c pre IH]; [done|].
  cbn [all_chars] in Hpre. apply andb_true_iff in Hpre as [Hc Hpre].
  rewrite string_app_cons. cbn [Re.plus]. rewrite Hc.
  destruct pre as [|c' pre].
  - rewrite string_app_nil_l, plus_stops by done. done.
  - by rewrite IH.
Qed.

(** A run of the class fails when the rest of the pattern fails after every
    non-empty part of the run. *)
Lemma plus_fails p (pre rest : string) k :
  all_chars p pre = true ->
  (forall c t, rest = String c t -> p c = false) ->
  (forall pre1 pre2, pre = (pre1 ++ pre2)%string -> pre1 <> "" -> k (pre2 ++ rest)%string = None) ->
  Re.plus p (pre ++ rest) k = None.
Proof.
  intros Hpre Hrest. induction pre as [|c pre IH]; intros Hk.
  - rewrite string_app_nil_l. by apply plus_stops.
  - cbn [all_chars] in Hpre. apply andb_true_iff in Hpre as [Hc Hpre].
    rewrite string_app_cons. cbn [Re.plus]. rewrite Hc, IH; [|done|].
    + by apply (Hk (String c "") pre).
    + intros pre1 pre2 -> Hne. apply (Hk (String c pre1) pre2); [|done].
      by rewrite string_app_cons.
Qed.
End GreedyPlus.

Lemma digit_string_head (d : string) :
  digit_string d -> exists c t, d = String c t /\ Py.is_digit c = true.
Proof.
  intros [Hne Hd]. destruct d as [|c t]; [done|]. cbn [all_chars] in Hd.
  apply andb_true_iff in Hd as [Hc _]. by exists c, t.
Qed.

Lemma digits_then_space (d : string) :
  all_chars Py.is_digit d = true -> all_chars Re.nonspace d = true.
Proof.
  apply all_chars_impl. intros c Hc. unfold Re.nonspace. by rewrite digit_not_space.
Qed.

(** Some run of the class is found when the rest of the pattern can go on
    behind one. *)
Lemma plus_succeeds {A} (p : ascii -> bool) (pre rest : string) (k : string -> option A) :
  pre <> "" -> all_chars p pre = true -> is_Some (k rest) ->
  is_Some (Re.plus p (pre ++ rest) k).
Proof.
  intros Hne Hpre Hk. induction pre as [|c pre IH]; [done|].
  cbn [all_chars] in Hpre. apply andb_true_iff in Hpre as [Hc Hpre].
  rewrite string_app_cons. cbn [Re.plus]. rewrite Hc.
  destruct pre as [|c' pre].
  - rewrite string_app_nil_l. by destruct (Re.plus p rest k).
  - destruct (IH ltac:(done) Hpre) as [a ->]. by eexists.
Qed.

(** A string is its longest run of a class and a rest. *)
Lemma span (p : ascii -> bool) (s : string) :
  exists pre rest, s = (pre ++ rest)%string /\ all_chars p pre = true /\
                   forall c t, rest = String c t -> p c = false.
Proof.
  induction s as [|c s (pre & rest & -> & Hpre & Hrest)].
  - by exists "", "".
  - destruct (p c) eqn:Hc.
    + exists (String c pre), rest. rewrite string_app_cons. split; [done|].
      split; [|done]. cbn [all_chars]. by rewrite Hc.
    + exists "", (String c (pre ++ rest)). split; [done|]. split; [done|].
      by intros c' t [= <- _].
Qed.

Lemma span_unique (p : ascii -> bool) (pre1 rest1 pre2 rest2 : string) :
  (pre1 ++ rest1)%string = (pre2 ++ rest2)%string ->
  all_chars p pre1 = true -> all_chars p pre2 = true ->
  (forall c t, rest1 = String c t -> p c = false) ->
  (forall c t, rest2 = String c t -> p c = false) ->
  pre1 = pre2 /\ rest1 = rest2.
Proof.
  revert pre2. induction pre1 as [|c1 pre1 IH]; intros pre2 Heq H1 H2 Hr1 Hr2.
  - destruct pre2 as [|c2 pre2]; [by rewrite !string_app_nil_l in Heq|].
    rewrite string_app_nil_l, string_app_cons in Heq.
    cbn [all_chars] in H2. apply andb_true_iff in H2 as [Hc2 _].
    rewrite (Hr1 _ _ Heq) in Hc2. done.
  - cbn [all_chars] in H1. apply andb_true_iff in H1 as [Hc1 H1].
    destruct pre2 as [|c2 pre2].
    + rewrite string_app_nil_l, string_app_cons in Heq. symmetry in Heq.
      rewrite (Hr2 _ _ Heq) in Hc1. done.
    + rewrite !string_app_cons in Heq. injection Heq as <- Heq.
      cbn [all_chars] in H2. apply andb_true_iff in H2 as [_ H2].
      destruct (IH pre2 Heq H1 H2 Hr1 Hr2) as [-> ->]. done.
Qed.

Lemma drop_prefix_append (l s : string) : Re.drop_prefix l (l ++ s) = Some s.
Proof.
  induction l as [|a l IH]; [by rewrite string_app_nil_l|].
  rewrite string_app_cons. cbn [Re.drop_prefix]. by rewrite Ascii.eqb_refl.
Qed.

Lemma string_app_inv_head (l s t : string) : (l ++ s)%string = (l ++ t)%string -> s = t.
Proof.
  induction l as [|a l IH]; [by rewrite !string_app_nil_l|].
  rewrite !string_app_cons. intros [= H]. by apply IH.
Qed.

(** The quantity that the size line pattern captures is a string of digits. *)
Lemma size_quantity_re_quantity (size_line : string) (m : Re.captures) :
  Re.match_ size_quantity_re size_line = Some m -> digit_string (Re.group 2 m).
Proof.
  unfold Re.match_. intros (rest & new & Hm & [= <-])%run_Some.
  rewrite app_nil_r. unfold size_quantity_re in Hm. cbn [re_matches] in Hm.
  destruct Hm as (mid1 & n1 & n2 & (g1 & _ & ->) & Hm & ->).
  destruct Hm as (mid2 & n3 & n4 & (_ & _ & _ & _ & ->) & Hm & ->).
  destruct Hm as (mid3 & n5 & n6 & (g2 & (digits & Hne & Hd & -> & ->) & ->) & Hm & ->).
  destruct Hm as (mid4 & n7 & n8 & (_ & _ & _ & _ & ->) & Hm & ->).
  destruct Hm as (mid5 & n9 & n10 & (_ & ->) & Hm & ->).
  destruct Hm as (mid6 & n11 & n12 & (_ & _ & _ & _ & ->) & (_ & _ & _ & _ & ->) & ->).
  rewrite consumed_append. cbn. done.
Qed.

(** The title pattern at the head of [s]: it finds the number behind "size"
    and white space, all of its digits, and fails when there is none. *)
Lemma match_title_size_re (s : string) :
  match Re.match_ title_size_re s with
  | Some m => exists size, m = [(1, size)] /\ size_named_at s "" size
  | None => forall size, ~ size_named_at s "" size
  end.
Proof.
  unfold Re.match_, title_size_re. cbn [Re.run].
  destruct (Re.drop_prefix "size" s) as [s1|] eqn:Hdrop.
  2:{ intros size (ws & post & -> & _). rewrite string_app_nil_l in Hdrop.
      by rewrite drop_prefix_append in Hdrop. }
  apply drop_prefix_Some in Hdrop as ->.
  destruct (span Re.space s1) as (W & r1 & -> & HW & Hr1).
  destruct (span Re.digit r1) as (D & r2 & -> & HD & Hr2).
  assert (forall size, size_named_at ("size" ++ W ++ D ++ r2) "" size ->
                       W <> "" /\ size = D /\ D <> "") as Hnamed.
  { intros size (ws & post & Heq & Hws & Hspace & [Hne Hdigits] & Hpost).
    rewrite string_app_nil_l in Heq. apply string_app_inv_head in Heq.
    destruct (digit_string_head size (conj Hne Hdigits)) as (c & t & -> & Hc).
    symmetry in Heq.
    apply (span_unique Re.space) in Heq as [-> Heq]; [|done|done| |done].
    2:{ intros c' t' Hc'. rewrite string_app_cons in Hc'. injection Hc' as <- _.
        by apply digit_not_space. }
    apply (span_unique Re.digit) in Heq as [<- _]; done. }
  destruct W as [|w W].
  { rewrite string_app_nil_l, plus_stops by done.
    intros size [? _]%Hnamed. done. }
  destruct D as [|d D].
  { rewrite plus_fails; [| done | done |].
    - intros size (_ & _ & ?)%Hnamed. done.
    - intros W1 W2 HW12 HW1. destruct W2 as [|w2 W2].
      + rewrite !string_app_nil_l. by apply plus_stops.
      + apply plus_stops. intros c t Hc. rewrite string_app_cons in Hc.
        injection Hc as <- _. rewrite HW12, all_chars_append in HW.
        apply andb_true_iff in HW as [_ HW2]. cbn [all_chars] in HW2.
        apply andb_true_iff in HW2 as [Hw2 _].
        unfold Re.digit. destruct (Py.is_digit w2) eqn:Hd; [|done].
        apply digit_not_space in Hd. unfold Re.space in Hw2. congruence. }
  rewrite (plus_greedy Re.space (String w W) (String d D ++ r2) _
             [(1, String d D)]); [| done | done | |].
  - exists (String d D). split; [done|]. exists (String w W), r2.
    rewrite string_app_nil_l. split; [done|]. split; [done|]. split; [done|].
    split; [by split|done].
  - intros c t Hc. rewrite string_app_cons in Hc. injection Hc as <- _.
    cbn [all_chars] in HD. apply andb_true_iff in HD as [Hd _].
    unfold Re.space. by apply digit_not_space.
  - rewrite (plus_greedy Re.digit (String d D) r2 _ [(1, String d D)]);
      [done|done|done|done|].
    by rewrite consumed_append.
Qed.

Lemma size_named_at_cons (c : ascii) (s pre size : string) :
  size_named_at (String c s) (String c pre) size <-> size_named_at s pre size.
Proof.
  unfold size_named_at. split; intros (ws & post & Heq & H); exists ws, post; (split; [|done]).
  - rewrite string_app_cons in Heq. by injection Heq.
  - by rewrite string_app_cons, Heq.
Qed.

(** The title pattern anywhere in [s]: the leftmost place counts. *)
Lemma search_title_size_re (s : string) :
  match Re.search title_size_re s with
  | Some m =>
      exists pre size,
        m = [(1, size)] /\ size_named_at s pre size /\
        forall pre' size', size_named_at s pre' size' ->
                           String.length pre <= String.length pre'
  | None => forall pre size, ~ size_named_at s pre size
  end.
Proof.
  induction s as [|c s IH]; cbn [Re.search];
    pose proof (match_title_size_re) as Hhead.
  - specialize (Hhead ""). destruct (Re.match_ title_size_re "") as [m|].
    + destruct Hhead as (size & -> & Hsize). exists "", size.
      split; [done|]. split; [done|]. intros pre' size' _. cbn. lia.
    + intros pre size Hn. destruct pre as [|c pre]; [by apply (Hhead size)|].
      destruct Hn as (ws & post & Heq & _). by rewrite string_app_cons in Heq.
  - specialize (Hhead (String c s)).
    destruct (Re.match_ title_size_re (String c s)) as [m|].
    + destruct Hhead as (size & -> & Hsize). exists "", size.
      split; [done|]. split; [done|]. intros pre' size' _. cbn. lia.
    + assert (forall pre size, size_named_at (String c s) pre size ->
                exists pre', pre = String c pre' /\ size_named_at s pre' size) as Hshift.
      { intros pre size Hn. destruct pre as [|c' pre]; [by apply Hhead in Hn|].
        assert (c' = c) as ->.
        { destruct Hn as (ws & post & Heq & _). rewrite string_app_cons in Heq.
          by injection Heq. }
        exists pre. split; [done|]. by apply size_named_at_cons in Hn. }
      destruct (Re.search title_size_re s) as [m|].
      * destruct IH as (pre & size & -> & Hn & Hleft).
        exists (String c pre), size. split; [done|].
        split; [by apply size_named_at_cons|].
        intros pre' size' (pre'' & -> & Hn')%Hshift.
        specialize (Hleft pre'' size' Hn'). cbn [String.length]. lia.
      * intros pre size (pre' & -> & Hn)%Hshift. by apply (IH pre' size).
Qed.

(** ** What the parser returns *)

Lemma size_of_line_ok (size_line size quantity : string) :
  size_of_line size_line = Some (size, quantity) ->
  size ∈ acceptable_sizes /\ digit_string quantity.
Proof.
  unfold size_of_line, Py.mem.
  destruct (Re.match_ size_quantity_re size_line) as [m|] eqn:Hm.
  - destruct (bool_decide (Re.group 1 m ∈ acceptable_sizes)) eqn:Hin; [|done].
    intros [= <- <-]. split; [by apply bool_decide_eq_true in Hin|].
    by eapply size_quantity_re_quantity.
  - destruct (bool_decide (size_line ∈ acceptable_sizes)) eqn:Hin; [|done].
    intros [= <- <-]. split; [by apply bool_decide_eq_true in Hin|done].
Qed.

Lemma size_of_sample_title_ok (title size quantity : string) :
  size_of_sample_title title = (size, quantity) -> sample_size title size quantity.
Proof.
  unfold size_of_sample_title. pose proof (search_title_size_re title) as Hsearch.
  destruct (Re.search title_size_re title) as [m|]; intros [= <- <-].
  - destruct Hsearch as (pre & size & -> & Hn & Hleft).
    split; [done|]. right. by exists pre.
  - split; [done|]. by left.
Qed.

Lemma items_section_ok (warehouse_map : gmap string string) (lines : list string) :
  Forall (parsed_item_ok warehouse_map) (items_section warehouse_map lines).
Proof.
  assert (forall n lines, length lines <= n ->
            Forall (parsed_item_ok warehouse_map) (items_section warehouse_map lines)) as H;
    [|by apply (H (length lines))].
  clear lines. induction n as [|n IH]; intros lines Hlen.
  { destruct lines; [constructor|cbn in Hlen; lia]. }
  destruct lines as [|title_line after_title]; [constructor|].
  cbn [length] in Hlen. cbn [items_section].
  destruct (is_stop (Py.strip title_line)) eqn:Hstop; [constructor|].
  set (normalized := Py.strip (Py.lower (Py.strip title_line))).
  destruct (bool_decide (is_Some (warehouse_map !! normalized))) eqn:Hknown;
    destruct (Py.contains "sample" normalized) eqn:Hsample; cbn [negb andb].
  4:{ apply IH. lia. }
  all: destruct after_title as [|raw_size_line after_size]; [constructor|];
    cbn [length] in Hlen.
  all: assert (is_Some (warehouse_map !! normalized) \/
               Py.contains "sample" normalized = true) as Haccept
         by (first [ by right | left; by apply bool_decide_eq_true in Hknown ]).
  all: assert (forall size quantity,
         (size ∈ acceptable_sizes \/
          (Py.contains "sample" normalized = true /\
           sample_size normalized size quantity)) ->
         digit_string quantity ->
         Forall (parsed_item_ok warehouse_map)
           (if nonempty (Py.strip title_line) && nonempty size && nonempty quantity
            then [(Py.strip title_line, size, quantity)] else [])) as Hthis
         by (intros size quantity Hsize Hq; destruct (_ && _); [|by constructor];
             constructor; [|by constructor];
             unfold parsed_item_ok, normalized_title, item_title, item_size, item_quantity;
             cbn [fst snd]; fold normalized;
             split; [done|]; split; [apply strip_idempotent|]; done).
  all: assert (forall sq : string * string,
         (fst sq ∈ acceptable_sizes \/
          (Py.contains "sample" normalized = true /\
           sample_size normalized (fst sq) (snd sq))) ->
         digit_string (snd sq) ->
         Forall (parsed_item_ok warehouse_map)
           (let (size, quantity) := sq in
            match after_size with
            | [] => if nonempty (Py.strip title_line) && nonempty size && nonempty quantity
                    then [(Py.strip title_line, size, quantity)] else []
            | sku :: after_sku =>
                if is_sku_line sku
                then (if nonempty (Py.strip title_line) && nonempty size && nonempty quantity
                      then [(Py.strip title_line, size, quantity)] else [])
                     ++ items_section warehouse_map after_sku
                else (if nonempty (Py.strip title_line) && nonempty size && nonempty quantity
                      then [(Py.strip title_line, size, quantity)] else [])
                     ++ items_section warehouse_map after_size
            end)) as Hrest
         by (intros [size quantity] Hsize Hq; cbn [fst snd] in *;
             destruct after_size as [|sku after_sku]; [by apply Hthis|];
             cbn [length] in Hlen;
             destruct (is_sku_line sku); (apply Forall_app; split; [by apply Hthis|]);
             apply IH; cbn [length]; lia).
  all: destruct (size_of_line (Py.strip raw_size_line)) as [[size quantity]|] eqn:Hline.
  all: try (apply size_of_line_ok in Hline as [Hsize Hq];
            apply (Hrest (size, quantity)); [by left|done]).
  all: try (apply IH; lia).
  all: destruct (size_of_sample_title normalized) as [size quantity] eqn:Htitle;
    apply size_of_sample_title_ok in Htitle;
    apply (Hrest (size, quantity)); [right; by split|];
    destruct Htitle as [Hq _]; cbn [snd]; by rewrite Hq.
Qed.

Lemma find_items_section_ok (warehouse_map : gmap string string) (lines : list string) :
  Forall (parsed_item_ok warehouse_map) (find_items_section warehouse_map lines).
Proof.
  induction lines as [|line lines IH]; [constructor|].
  cbn [find_items_section]. destruct (Py.contains "ITEMS" (Py.strip line)); [|done].
  apply items_section_ok.
Qed.

Lemma extract_product_details_ok (text : string) (warehouse_map : gmap string string) it :
  it ∈ extract_product_details text warehouse_map -> parsed_item_ok warehouse_map it.
Proof.
  intros Hin. eapply Forall_forall in Hin; [exact Hin|]. apply find_items_section_ok.
Qed.

Lemma contains_empty_needle (s : string) : Py.contains "" s = true.
Proof. destruct s; cbn [Py.contains String.prefix]; done. Qed.

Lemma contains_cons (needle : string) (c : ascii) (s : string) :
  Py.contains needle s = true -> Py.contains needle (String c s) = true.
Proof. intros H. cbn [Py.contains]. rewrite H. apply orb_true_r. Qed.

(** A line of a text is a part of the text. *)
Lemma contains_split_line (needle : string) (sep : ascii) (text line : string) :
  line ∈ Py.split sep text -> Py.contains needle line = true ->
  Py.contains needle text = true.
Proof.
  revert line. induction text as [|c text IH]; intros line; cbn [Py.split].
  - by intros ->%list_elem_of_singleton.
  - destruct (Ascii.eqb c sep) eqn:Hc.
    + intros [->|Hin]%elem_of_cons Hline.
      * destruct needle; [apply contains_empty_needle|done].
      * apply contains_cons. by eapply IH.
    + pose proof (split_hd sep text) as [_ Hhd].
      destruct (Py.split sep text) as [|w ws] eqn:Hs; [by apply split_nonempty in Hs|].
      cbn [hd] in Hhd. intros [->|Hin]%elem_of_cons Hline.
      * apply contains_spec in Hline as (pre & post & Hline).
        apply contains_spec. destruct Hhd as [->|[rest ->]].
        -- by exists pre, post.
        -- exists pre, (post ++ String sep rest)%string.
           rewrite <- string_app_cons, Hline, !string_app_assoc. done.
      * apply contains_cons. eapply IH; [by right|done].
Qed.

Lemma find_items_section_no_marker (warehouse_map : gmap string string) (lines : list string) :
  Forall (fun line => Py.contains "ITEMS" (Py.strip line) = false) lines ->
  find_items_section warehouse_map lines = [].
Proof.
  induction 1 as [|line lines Hline _ IH]; [done|].
  cbn [find_items_section]. by rewrite Hline.
Qed.

(** X1.  A page whose text does not contain "ITEMS" has no items, whatever
    the warehouse map is. *)
Theorem no_marker_no_items (text : string) (warehouse_map : gmap string string) :
  Py.contains "ITEMS" text = false ->
  extract_product_details text warehouse_map = [].
Proof.
  intros Htext. apply find_items_section_no_marker, Forall_forall.
  intros line Hline. destruct (Py.contains "ITEMS" (Py.strip line)) eqn:Hc; [|done].
  apply contains_strip in Hc.
  by rewrite (contains_split_line "ITEMS" "010" text line Hline Hc) in Htext.
Qed.

Lemma normalized_title_lower (it : item) :
  Py.lower (normalized_title it) = normalized_title it.
Proof. unfold normalized_title. by rewrite lower_strip, lower_idempotent. Qed.

(** X2.  For ASCII text, every item the parser returns has a title that is
    not empty and has no white space around it, and it never resolves by the
    fallback: its area is "garage" when its normalised title contains
    "sample", and otherwise the area of its own entry in the warehouse map. *)
Theorem parsed_items_resolve (text : string) (warehouse_map : gmap string string)
    (it : item) :
  ascii_text text ->
  it ∈ extract_product_details text warehouse_map ->
  let area := get_warehouse_area (normalized_title it) warehouse_map in
  item_title it <> "" /\
  Py.strip (item_title it) = item_title it /\
  (if Py.contains "sample" (normalized_title it)
   then area = "garage"
   else warehouse_map !! normalized_title it = Some area).
Proof.
  intros _ (Hstop & Hstrip & Haccept & _)%extract_product_details_ok area.
  split; [by intros Ht; rewrite Ht in Hstop|]. split; [done|].
  unfold area, get_warehouse_area. rewrite normalized_title_lower.
  destruct (Py.contains "sample" (normalized_title it)); [done|].
  destruct Haccept as [[a Ha]|?]; [|done]. by rewrite Ha.
Qed.

(** X3.  For ASCII text, the quantity of every item the parser returns is a
    non-empty string of digits.  [int(quantity)] reads it, with a value that
    is not negative, when it has at most 4300 digits; a longer one is refused,
    and the manifest skips the entry. *)
Theorem parsed_quantity_is_a_number (text : string) (warehouse_map : gmap string string)
    (it : item) :
  ascii_text text ->
  it ∈ extract_product_details text warehouse_map ->
  digit_string (item_quantity it) /\
  if (Py.max_str_digits <? Z.of_nat (String.length (item_quantity it)))%Z
  then Py.int (item_quantity it) = None /\
       forall unique_products rest,
         merge_products (it :: rest) unique_products = merge_products rest unique_products
  else exists q, Py.int (item_quantity it) = Some q /\ (0 <= q)%Z.
Proof.
  intros _ (_ & _ & _ & Hq & _)%extract_product_details_ok.
  split; [done|]. pose proof (int_of_digit_string _ Hq) as Hint.
  destruct (Py.max_str_digits <? _)%Z; [|done].
  split; [done|]. intros unique_products rest.
  destruct it as [[product_title size] quantity]. cbn [merge_products].
  cbn [item_quantity snd] in Hint. by rewrite Hint.
Qed.

(** X4.  For ASCII text, the size of every item the parser returns belongs
    to the vocabulary of acceptable sizes, except for a sample whose size line
    gave nothing: its quantity is 1 and its size is the number that follows
    the leftmost "size" and white space in its normalised title, with all of
    its digits, or "Sample" when the title names no size in this way. *)
Theorem parsed_size_is_acceptable (text : string) (warehouse_map : gmap string string)
    (it : item) :
  ascii_text text ->
  it ∈ extract_product_details text warehouse_map ->
  item_size it ∈ acceptable_sizes \/
  (Py.contains "sample" (normalized_title it) = true /\
   sample_size (normalized_title it) (item_size it) (item_quantity it)).
Proof. by intros _ (_ & _ & _ & _ & Hsize)%extract_product_details_ok. Qed.

Lemma items_section_length (warehouse_map : gmap string string) (lines : list string) :
  2 * length (items_section warehouse_map lines) <= length lines.
Proof.
  assert (forall n lines, length lines <= n ->
            2 * length (items_section warehouse_map lines) <= length lines) as H;
    [|by apply (H (length lines))].
  clear lines. induction n as [|n IH]; intros lines Hlen.
  { destruct lines; [cbn; lia|cbn in Hlen; lia]. }
  destruct lines as [|title_line after_title]; [cbn; lia|].
  cbn [length] in Hlen. cbn [items_section].
  destruct (is_stop (Py.strip title_line)); [cbn; lia|].
  destruct (_ && _).
  { specialize (IH after_title). cbn [length]. lia. }
  destruct after_title as [|raw_size_line after_size]; [cbn; lia|].
  cbn [length] in Hlen |- *.
  destruct (match size_of_line (Py.strip raw_size_line) with
            | Some sq => Some sq
            | None => _
            end) as [[size quantity]|].
  2:{ specialize (IH after_size). lia. }
  assert (forall this : list item, length this <= 1 ->
            forall rest, length rest <= length after_size ->
                         2 * length (this ++ items_section warehouse_map rest)
                         <= S (S (length after_size))) as Hthis.
  { intros this Hone rest Hrest. rewrite length_app.
    specialize (IH rest). lia. }
  destruct after_size as [|sku after_sku].
  - destruct (_ && _); cbn; lia.
  - cbn [length] in *. destruct (is_sku_line sku); apply Hthis;
      try (destruct (_ && _); cbn; lia); cbn [length]; lia.
Qed.

(** X5.  Every item takes at least two lines after the marker line: a text
    of [n] lines gives at most [(n - 1) / 2] items. *)
Theorem items_bounded_by_lines (text : string) (warehouse_map : gmap string string) :
  2 * length (extract_product_details text warehouse_map) + 1
  <= length (Py.split "010" text).
Proof.
  unfold extract_product_details.
  pose proof (split_nonempty "010" text) as Hne.
  induction (Py.split "010" text) as [|line lines IH]; [done|].
  cbn [find_items_section length].
  destruct (Py.contains "ITEMS" (Py.strip line)).
  - pose proof (items_section_length warehouse_map lines). lia.
  - destruct lines as [|l ls]; [cbn; lia|]. specialize (IH ltac:(done)). lia.
Qed.

(** ** More on the selection and the page plan *)

Lemma StronglySorted_sublist {A} (R : A -> A -> Prop) (l1 l2 : list A) :
  l1 `sublist_of` l2 -> StronglySorted R l2 -> StronglySorted R l1.
Proof.
  induction 1 as [|x l1 l2 Hsub IH|x l1 l2 Hsub IH]; intros Hs; [constructor|..].
  - apply StronglySorted_inv in Hs as [Hs Hx]. constructor; [by apply IH|].
    apply Forall_forall. intros y Hy. eapply Forall_forall in Hx; [exact Hx|].
    by eapply elem_of_sublist.
  - apply StronglySorted_inv in Hs as [Hs _]. by apply IH.
Qed.

Lemma StronglySorted_seq (j n : nat) : StronglySorted lt (seq j n).
Proof.
  revert j. induction n as [|n IH]; intros j; [constructor|].
  cbn [seq]. constructor; [apply IH|].
  apply Forall_forall. intros i Hi%elem_of_seq. lia.
Qed.

Section SelectionInvariants.
Context {Page : Type}.
Variable add_area_identifier_to_page : Page -> string -> Page.
Implicit Types (deck : list (Page * string)) (warehouse_map : gmap string string).

Lemma kept_indices_sublist warehouse_map deck (l : list nat) :
  map (fun e => snd (fst e)) (omap (kept_entry warehouse_map deck) l) `sublist_of` l.
Proof.
  induction l as [|idx l IH]; [constructor|].
  cbn [omap list_omap]. fold (omap (kept_entry warehouse_map deck) l).
  destruct (kept_entry warehouse_map deck idx) as [e|] eqn:He.
  - apply kept_entry_Some in He as (page & text & _ & _ & ->).
    cbn [map fst snd]. by constructor.
  - by constructor.
Qed.

Lemma selection_lengths warehouse_map deck :
  length (pages_to_keep (select_pages warehouse_map deck))
  = length (indices_to_keep (select_pages warehouse_map deck)) /\
  length (page_areas_list (select_pages warehouse_map deck))
  = length (indices_to_keep (select_pages warehouse_map deck)).
Proof.
  rewrite select_pages_kept. cbn [pages_to_keep indices_to_keep page_areas_list].
  by rewrite !length_map.
Qed.

Lemma indices_to_keep_ascending warehouse_map deck :
  StronglySorted lt (indices_to_keep (select_pages warehouse_map deck)).
Proof.
  rewrite select_pages_kept. cbn [indices_to_keep].
  eapply StronglySorted_sublist; [apply kept_indices_sublist|apply StronglySorted_seq].
Qed.

(** X6.  The three lists of the selection loop stay in step: they have the
    same length, the kept indices are strictly increasing and within the deck,
    and position [j] of each list belongs to the page of the [j]-th kept
    index.  So [zip] never cuts a list, and no page is kept twice. *)
Theorem selection_lists_in_step warehouse_map deck :
  let sel := select_pages warehouse_map deck in
  length (pages_to_keep sel) = length (indices_to_keep sel) /\
  length (page_areas_list sel) = length (indices_to_keep sel) /\
  StronglySorted lt (indices_to_keep sel) /\
  forall j idx, indices_to_keep sel !! j = Some idx ->
    exists page text,
      deck !! idx = Some (page, text) /\
      pages_to_keep sel !! j = Some page /\
      page_areas_list sel !! j
        = Some (page_areas warehouse_map (extract_product_details text warehouse_map)).
Proof.
  intros sel. unfold sel.
  split; [apply selection_lengths|]. split; [apply selection_lengths|].
  split; [apply indices_to_keep_ascending|].
  rewrite select_pages_kept. cbn [pages_to_keep indices_to_keep page_areas_list].
  intros j idx Hj.
  change (map ?f ?l) with (f <$> l) in *.
  apply list_lookup_fmap_Some in Hj as (e & -> & He).
  pose proof (list_elem_of_lookup_2 _ _ _ He) as Hin.
  apply elem_of_kept in Hin as (page & text & Hd & _ & Heq).
  exists page, text. split; [done|].
  rewrite !list_lookup_fmap, He. cbn. by rewrite Heq.
Qed.

(** X7.  The sorted plan has exactly one entry for every kept page: the
    sorted indices have no duplicates, are as many as the kept indices, lie
    within the deck, and the sorted pages are as many again. *)
Theorem sorted_plan_one_entry_per_kept_page warehouse_map deck :
  let sel := select_pages warehouse_map deck in
  let plan := pages_with_info_sorted add_area_identifier_to_page warehouse_map deck sel in
  NoDup (map info_index plan) /\
  length (map info_index plan) = length (indices_to_keep sel) /\
  length (map info_page plan) = length (pages_to_keep sel) /\
  Forall (fun idx => idx < length deck) (map info_index plan).
Proof.
  intros sel plan.
  pose proof (sorted_indices_perm add_area_identifier_to_page warehouse_map deck) as Hperm.
  fold sel in Hperm. fold plan in Hperm.
  destruct (selection_lengths warehouse_map deck) as [Hlen _].
  pose proof (indices_to_keep_ascending warehouse_map deck) as Hsorted.
  fold sel in Hlen, Hsorted.
  split; [|split; [|split]].
  - rewrite Hperm. clear Hperm Hlen.
    induction Hsorted as [|i l Hl IH Hi]; [constructor|].
    constructor; [|done]. intros Hin. eapply Forall_forall in Hi; [|exact Hin]. lia.
  - by rewrite Hperm.
  - rewrite length_map, Hlen, <- Hperm, length_map. done.
  - apply Forall_forall. intros idx Hidx. by eapply sorted_indices_lt.
Qed.

(** X8.  When the label deck has as many pages as the packing-slip deck,
    every sorted index is a valid label index: the list of invalid indices is
    empty, so the "Invalid shipping label indices" error cannot arise, and
    the label output has one page for every sorted index. *)
Theorem sorted_indices_valid_for_labels warehouse_map deck (labels : list Page) :
  length labels = length deck ->
  let sorted_indices :=
    map info_index
      (pages_with_info_sorted add_area_identifier_to_page warehouse_map deck
         (select_pages warehouse_map deck)) in
  List.filter (fun i => negb (i <? length labels)%nat) sorted_indices = [] /\
  length (pick_labels labels sorted_indices) = length sorted_indices /\
  forall i idx, sorted_indices !! i = Some idx ->
                pick_labels labels sorted_indices !! i = labels !! idx /\
                is_Some (labels !! idx).
Proof.
  intros Hlen sorted_indices.
  split; [by apply invalid_indices_none|].
  assert (Forall (fun idx => idx < length labels) sorted_indices) as Hrange.
  { apply Forall_forall. intros idx Hidx. rewrite Hlen. by eapply sorted_indices_lt. }
  destruct (pick_labels_lookup labels sorted_indices Hrange) as [Hl Hpick].
  split; [done|]. intros i idx Hi.
  destruct (Hpick i idx Hi) as (label_page & Hlp & Hout).
  rewrite Hout, Hlp. split; [done|by eexists].
Qed.
End SelectionInvariants.

(** ** Runs that stop early and runs that complete *)

Section RunOutcomes.
Context {Page : Type}.
Variable add_area_identifier_to_page : Page -> string -> Page.
Variable build_summary_pdf : list area_section -> list Page + string.
Implicit Types (deck : list (Page * string)) (warehouse_map : gmap string string)
  (env : environment) (labels : list Page).

Lemma no_items_no_pages warehouse_map deck :
  (forall idx, idx < length deck -> page_items warehouse_map deck idx = []) ->
  pages_to_keep (select_pages warehouse_map deck) = [].
Proof.
  intros Hnone.
  destruct (selection_lengths warehouse_map deck) as [Hlen _].
  destruct (indices_to_keep (select_pages warehouse_map deck)) as [|idx l] eqn:Hidx.
  - destruct (pages_to_keep _); [done|cbn in Hlen; lia].
  - assert (idx ∈ indices_to_keep (select_pages warehouse_map deck)) as Hin
      by (rewrite Hidx; left).
    apply elem_of_indices_to_keep in Hin as [Hlt Hne]. by rewrite Hnone in Hne.
Qed.

Lemma early_abort_trace env deck labels warehouse_map :
  save_path env = "" \/
  (save_path_exists env = false /\ is_Some (makedirs_error env)) \/
  deck = [] \/
  pages_to_keep (select_pages warehouse_map deck) = [] ->
  exists dirs message,
    process_packing_slips_and_labels add_area_identifier_to_page build_summary_pdf
      env deck labels warehouse_map
    = dirs ++ [PopupError message] /\
    (dirs = [] \/ dirs = [MakeDirs (save_path env)]) /\
    (message = "Please select a directory to save the output files." \/
     (exists e, makedirs_error env = Some e /\
                message = ("Failed to create directory " ++ save_path env
                           ++ ":" ++ nl ++ e)%string) \/
     message = "The packing slips PDF is empty." \/
     message = no_valid_products_message).
Proof.
  intros Hwhy. unfold process_packing_slips_and_labels, process_body.
  cbv beta delta [mbind proc_mbind mret proc_mret proc_ret popup_error emit return_].
  destruct (save_path env) as [|c sp] eqn:Hsp; cbn [nonempty negb].
  { eexists [], _. split; [reflexivity|]. split; [by left|by left]. }
  rewrite bind_ret_l.
  set (dirstep := if negb (save_path_exists env) then _ else _).
  assert (exists dirs,
    (dirs = [] \/ dirs = [MakeDirs (save_path env)]) /\
    ((dirstep = (Next tt, dirs) /\
      ~ (save_path_exists env = false /\ is_Some (makedirs_error env))) \/
     exists e, makedirs_error env = Some e /\
       dirstep = (Return, [PopupError ("Failed to create directory " ++ save_path env
                                       ++ ":" ++ nl ++ e)])))
    as (dirs & Hdirs & Hstep).
  { unfold dirstep. destruct (save_path_exists env); cbn [negb].
    - exists []. split; [by left|]. left. split; [done|]. by intros [? _].
    - destruct (makedirs_error env) as [e|].
      + exists []. split; [by left|]. right. exists e. split; [done|].
        by rewrite abort_step, Hsp.
      + exists [MakeDirs (save_path env)]. split; [by right|]. left.
        split; [by rewrite Hsp|]. intros [_ [? ?]]. done. }
  clearbody dirstep. rewrite Hsp in Hdirs.
  destruct Hstep as [[-> Hdirok]|(e & He & ->)].
  2:{ rewrite bind_return. eexists [], _. split; [reflexivity|]. split; [by left|].
      right. left. exists e. split; [done|]. by rewrite Hsp. }
  rewrite bind_next, try_except_prepend, trace_prepend.
  destruct (length deck =? 0)%nat eqn:Hzero.
  { rewrite abort_step, bind_return.
    eexists dirs, _. split; [reflexivity|]. split; [done|]. auto. }
  rewrite bind_ret_l.
  destruct (pages_to_keep (select_pages warehouse_map deck)) as [|kp kps] eqn:Hkeep.
  { rewrite abort_step, bind_return.
    eexists dirs, _. split; [reflexivity|]. split; [done|]. auto. }
  exfalso. destruct Hwhy as [?|[?|[->|?]]]; done.
Qed.


Lemma no_file_in_dirs env (dirs : list (@event Page)) :
  dirs = [] \/ dirs = [MakeDirs (save_path env)] -> List.filter touches_file dirs = [].
Proof. by intros [-> | ->]. Qed.

(** X9.  A run without a save directory, with a save directory that cannot
    be created, with an empty packing-slip deck or with no page that has an
    item stops before step 6: it writes and opens no file, and the last thing
    it does is to show the error pop-up of one of these four checks. *)
Theorem early_abort_writes_nothing env deck labels warehouse_map :
  save_path env = "" \/
  (save_path_exists env = false /\ is_Some (makedirs_error env)) \/
  deck = [] \/
  (forall idx, idx < length deck -> page_items warehouse_map deck idx = []) ->
  let trace := process_packing_slips_and_labels add_area_identifier_to_page
                 build_summary_pdf env deck labels warehouse_map in
  List.filter touches_file trace = [] /\
  exists pre message,
    trace = pre ++ [PopupError message] /\
    (message = "Please select a directory to save the output files." \/
     (exists e, makedirs_error env = Some e /\
                message = ("Failed to create directory " ++ save_path env
                           ++ ":" ++ nl ++ e)%string) \/
     message = "The packing slips PDF is empty." \/
     message = no_valid_products_message).
Proof.
  intros Hwhy trace.
  destruct (early_abort_trace env deck labels warehouse_map)
    as (dirs & message & Htrace & Hdirs & Hmessage).
  { destruct Hwhy as [?|[?|[?|Hnone]]]; auto.
    right. right. right. by apply no_items_no_pages. }
  unfold trace. rewrite Htrace. split; [|by exists dirs, message].
  rewrite List.filter_app. cbn [List.filter touches_file].
  rewrite app_nil_r. by eapply no_file_in_dirs.
Qed.

End RunOutcomes.

(** ** The buckets of the manifest data *)

Section BucketFacts.
Context {Page : Type}.
Implicit Types (deck : list (Page * string)) (warehouse_map : gmap string string)
  (summary_data : gmap string (list item)).

Lemma bucket_of_app (l1 l2 : list item) :
  bucket_of (l1 ++ l2)
  = match l2 with
    | [] => bucket_of l1
    | _ => Some (default [] (bucket_of l1) ++ l2)
    end.
Proof.
  destruct l2 as [|y l2]; [by rewrite app_nil_r|].
  destruct l1 as [|x l1]; [done|done].
Qed.

Lemma lookup_add_to_summary warehouse_map summary_data (seen : list item) it :
  (forall area, summary_data !! area = bucket_of (items_of_area warehouse_map area seen)) ->
  forall area, add_to_summary warehouse_map summary_data it !! area
               = bucket_of (items_of_area warehouse_map area (seen ++ [it])).
Proof.
  intros Hsd area. unfold add_to_summary, items_of_area.
  rewrite filter_app, bucket_of_app.
  destruct (decide (get_warehouse_area (normalized_title it) warehouse_map = area))
    as [<-|Hne].
  - rewrite lookup_insert_eq, filter_cons_True by done.
    rewrite filter_nil. by rewrite Hsd.
  - rewrite lookup_insert_ne by done. rewrite filter_cons_False by done.
    rewrite filter_nil. apply Hsd.
Qed.

Lemma lookup_foldl_add_to_summary warehouse_map (items : list item) :
  forall summary_data (seen : list item),
  (forall area, summary_data !! area = bucket_of (items_of_area warehouse_map area seen)) ->
  forall area, foldl (add_to_summary warehouse_map) summary_data items !! area
               = bucket_of (items_of_area warehouse_map area (seen ++ items)).
Proof.
  induction items as [|it items IH]; intros sd seen Hsd area.
  - by rewrite app_nil_r.
  - cbn [foldl]. rewrite (cons_middle it seen items), app_assoc.
    apply IH. by apply lookup_add_to_summary.
Qed.

Lemma collect_summary_data_lookup warehouse_map deck (indices : list nat) (area : string) :
  collect_summary_data warehouse_map deck indices !! area
  = bucket_of (items_of_area warehouse_map area
                 (flat_map (page_items warehouse_map deck) indices)).
Proof.
  unfold collect_summary_data.
  assert (forall (l : list nat) sd (seen : list item),
    (forall area, sd !! area = bucket_of (items_of_area warehouse_map area seen)) ->
    forall area,
      foldl (fun summary_data idx =>
               let text := extract_text_from_page deck idx in
               foldl (add_to_summary warehouse_map) summary_data
                     (extract_product_details text warehouse_map)) sd l !! area
      = bucket_of (items_of_area warehouse_map area
                     (seen ++ flat_map (page_items warehouse_map deck) l))) as H.
  { induction l as [|idx l IH]; intros sd seen Hsd a.
    - cbn [foldl flat_map]. by rewrite app_nil_r.
    - cbn [foldl flat_map]. rewrite app_assoc. apply IH.
      intros a'. by apply lookup_foldl_add_to_summary. }
  apply (H indices ∅ []). intros a. by rewrite lookup_empty.
Qed.

(** X11.  The manifest data has one bucket for every area that an item of a
    kept page resolves to, and no other: the bucket of an area holds exactly
    the items that resolve to it, page after page in the order of the kept
    indices and, within a page, in the order of the page. *)
Theorem buckets_hold_items_in_page_order warehouse_map deck (indices : list nat)
    (area : string) :
  let items := flat_map (page_items warehouse_map deck) indices in
  let summary_data := collect_summary_data warehouse_map deck indices in
  (summary_data !! area = None <->
     forall it, it ∈ items -> get_warehouse_area (normalized_title it) warehouse_map <> area) /\
  (forall products, summary_data !! area = Some products ->
     products <> [] /\ products = items_of_area warehouse_map area items).
Proof.
  intros items summary_data. unfold summary_data.
  rewrite collect_summary_data_lookup. fold items. unfold items_of_area. split.
  - split.
    + intros Hnone it Hit Harea.
      assert (it ∈ filter (fun it => get_warehouse_area (normalized_title it) warehouse_map
                                     = area) items) as Hin
        by (by apply list_elem_of_filter).
      destruct (filter _ items); [by apply elem_of_nil in Hin|done].
    + intros Hnone. destruct (filter _ items) as [|it l] eqn:Hf; [done|exfalso].
      assert (it ∈ filter (fun it => get_warehouse_area (normalized_title it) warehouse_map
                                     = area) items) as Hin
        by (rewrite Hf; left).
      apply list_elem_of_filter in Hin as [Harea Hit]. by apply (Hnone it).
  - intros products Hp. destruct (filter _ items) as [|it l]; [done|].
    injection Hp as <-. done.
Qed.
End BucketFacts.

(** ** The rows of one area *)

Lemma sum_Z_add_quantity k q d :
  sum_Z (map snd (add_quantity k q d)) = (sum_Z (map snd d) + q)%Z.
Proof.
  induction d as [|[k' q'] d IH]; cbn [add_quantity map snd sum_Z foldr]; [lia|].
  destruct (bool_decide (k' = k)); cbn [map snd sum_Z foldr].
  - fold (sum_Z (map snd d)). lia.
  - fold (sum_Z (map snd (add_quantity k q d))). fold (sum_Z (map snd d)). lia.
Qed.

Lemma sum_Z_merge_products l d :
  sum_Z (map snd (merge_products l d))
  = (sum_Z (map snd d) + sum_Z (integer_quantities l))%Z.
Proof.
  revert d. induction l as [|[[title size] quantity] l IH]; intros d.
  - change (sum_Z (map snd d) = (sum_Z (map snd d) + 0)%Z). lia.
  - cbn [merge_products]. unfold integer_quantities.
    cbn [omap list_omap item_quantity snd].
    fold (omap (fun it : item => Py.int (item_quantity it)) l).
    fold (integer_quantities l).
    destruct (Py.int quantity) as [q|]; rewrite IH.
    + rewrite sum_Z_add_quantity. cbn [sum_Z foldr]. fold (sum_Z (integer_quantities l)). lia.
    + done.
Qed.

(** X12.  Merging loses no quantity: the quantities of the rows of an area
    add up to the sum of the integer quantities of its entries. *)
Theorem merge_conserves_quantities (products : list item) :
  sum_Z (map snd (unique_products_of products)) = sum_Z (integer_quantities products).
Proof.
  unfold unique_products_of. rewrite sum_Z_merge_products. cbn [map sum_Z foldr].
  rewrite Z.add_0_l. apply sum_Z_perm. unfold integer_quantities.
  by rewrite (sorted_perm str_int_leb product_sort_key products).
Qed.

Lemma merge_products_keys l d :
  exists l', map fst (merge_products l d) = map fst d ++ l' /\
             l' `sublist_of` map item_key l.
Proof.
  revert d. induction l as [|[[title size] quantity] l IH]; intros d.
  - exists []. by rewrite app_nil_r.
  - cbn [merge_products map]. destruct (Py.int quantity) as [q|].
    + destruct (IH (add_quantity (title, size) q d)) as (l' & -> & Hsub).
      rewrite add_quantity_keys.
      destruct (bool_decide ((title, size) ∈ map fst d)).
      * exists l'. split; [done|]. by apply sublist_cons.
      * exists ((title, size) :: l'). rewrite <- app_assoc. split; [done|].
        by apply sublist_skip.
    + destruct (IH d) as (l' & -> & Hsub). exists l'. split; [done|]. by apply sublist_cons.
Qed.

(** X13.  The rows of an area stand in ascending order of
    (title.lower(), size_sort_key(size)): the order of the sorted entries
    survives the merge, since a dict keeps a key where it was first inserted. *)
Theorem manifest_rows_ascending (products : list item) :
  StronglySorted row_key_le (map fst (unique_products_of products)).
Proof.
  unfold unique_products_of.
  destruct (merge_products_keys (sorted str_int_leb product_sort_key products) [])
    as (l' & -> & Hsub).
  cbn [map app]. eapply StronglySorted_sublist; [exact Hsub|].
  apply (StronglySorted_fmap item_key (key_le str_int_leb product_sort_key)).
  - intros x y Hxy. by apply str_int_leb_spec in Hxy.
  - apply sorted_sorted; [apply str_int_leb_total|apply str_int_leb_trans].
Qed.

(** ** The sections of the manifest *)

Lemma area_order_NoDup : NoDup AREA_SORT_ORDER.
Proof. apply (bool_decide_unpack _). by vm_compute. Qed.

Lemma listed_area_title (area : string) :
  area ∈ AREA_SORT_ORDER ->
  area_title area = if decide (area = "garage") then "Garage" else ("Locker: " ++ area)%string.
Proof.
  unfold AREA_SORT_ORDER. intros Hin.
  repeat (apply elem_of_cons in Hin as [-> | Hin]; [by vm_compute|]).
  by apply elem_of_nil in Hin.
Qed.

Lemma summary_areas_sublist (summary_data : gmap string (list item)) (areas : list string) :
  map section_area
    (flat_map (fun area =>
       match summary_data !! area with
       | Some products =>
           let data := area_table products in
           if (1 <? length data)%nat
           then [AreaSection area (area_title area) data]
           else []
       | None => []
       end) areas) `sublist_of` areas.
Proof.
  induction areas as [|area areas IH]; [constructor|].
  cbn [flat_map]. rewrite map_app.
  destruct (summary_data !! area) as [products|]; cbn zeta.
  - destruct (1 <? length (area_table products))%nat; cbn [map app section_area].
    + by apply sublist_skip.
    + by apply sublist_cons.
  - by apply sublist_cons.
Qed.

(** X14.  The sections of the manifest follow [AREA_SORT_ORDER]: their areas
    are a sub-sequence of it, so no area has two sections; the section of
    'garage' is headed "Garage" and every other one "Locker: <area>"; and the
    table of a section has the header row and at least one product row. *)
Theorem manifest_sections_in_area_order (summary_data : gmap string (list item)) :
  let sections := summary_elements summary_data in
  map section_area sections `sublist_of` AREA_SORT_ORDER /\
  NoDup (map section_area sections) /\
  forall sec, sec ∈ sections ->
    section_title sec
    = (if decide (section_area sec = "garage") then "Garage"
       else ("Locker: " ++ section_area sec)%string) /\
    exists row rows, section_table sec = table_header :: row :: rows.
Proof.
  intros sections.
  assert (map section_area sections `sublist_of` AREA_SORT_ORDER) as Hsub
    by apply summary_areas_sublist.
  split; [done|]. split.
  - eapply sublist_NoDup; [apply area_order_NoDup|exact Hsub].
  - intros sec (area & products & Harea & _ & Hlen & ->)%elem_of_summary_elements.
    cbn [section_title section_area section_table]. split; [by apply listed_area_title|].
    unfold area_table in *. cbn [length] in Hlen.
    destruct (map _ (unique_products_of products)) as [|row rows]; [cbn in Hlen; lia|].
    by exists row, rows.
Qed.

(** ** From the packing slips to the manifest *)


Section ManifestCoverage.
Context {Page : Type}.
Implicit Types (deck : list (Page * string)) (warehouse_map : gmap string string).

End ManifestCoverage.

(** ** Searching in a trimmed string *)

Lemma contains_lstrip (c0 : ascii) (rest s : string) :
  Py.is_space c0 = false ->
  Py.contains (String c0 rest) (Py.lstrip s) = Py.contains (String c0 rest) s.
Proof.
  intros Hc0. induction s as [|c s IH]; [done|].
  cbn [Py.lstrip]. destruct (Py.is_space c) eqn:Hc; [|done].
  rewrite IH. cbn [Py.contains].
  destruct (String.prefix (String c0 rest) (String c s)) eqn:Hp; [|done].
  apply prefix_spec in Hp as [post Hp]. rewrite string_app_cons in Hp.
  injection Hp as -> _. congruence.
Qed.

Lemma contains_rev (needle s : string) :
  Py.contains (String.rev needle) (String.rev s) = Py.contains needle s.
Proof.
  assert (forall n t, Py.contains n t = true ->
                      Py.contains (String.rev n) (String.rev t) = true) as H.
  { intros n t (pre & post & ->)%contains_spec. apply contains_spec.
    exists (String.rev post), (String.rev pre).
    by rewrite !rev_append, string_app_assoc. }
  destruct (Py.contains needle s) eqn:Hc; [by apply H|].
  destruct (Py.contains (String.rev needle) (String.rev s)) eqn:Hr; [|done].
  apply H in Hr. rewrite !rev_involutive in Hr. congruence.
Qed.

(** A needle that begins and ends with a visible character is found in a
    string exactly when it is found in the trimmed string. *)
Lemma contains_visible_strip (needle s : string) :
  match needle, String.rev needle with
  | String c0 _, String c1 _ => Py.is_space c0 = false /\ Py.is_space c1 = false
  | _, _ => False
  end ->
  Py.contains needle (Py.strip s) = Py.contains needle s.
Proof.
  destruct needle as [|c0 rest]; [done|].
  destruct (String.rev (String c0 rest)) as [|c1 rest'] eqn:Hr; [done|].
  intros [Hc0 Hc1]. unfold Py.strip, Py.rstrip.
  transitivity (Py.contains (String.rev (String c0 rest))
                  (Py.lstrip (String.rev (Py.lstrip s)))).
  { by rewrite <- (contains_rev (String c0 rest)), rev_involutive. }
  rewrite Hr, contains_lstrip by done.
  rewrite <- Hr, contains_rev. by apply contains_lstrip.
Qed.

(** ** The warehouse map loader *)

Lemma load_row_entry (warehouse_map : gmap string string) (row : list string) :
  load_row warehouse_map row
  = match row_entry row with
    | Some (k, v) => <[k := v]> warehouse_map
    | None => warehouse_map
    end.
Proof. by destruct row as [|product [|area rest]]. Qed.

Lemma lookup_foldl_load_row (l : list (list string)) (k v : string) :
  foldl load_row ∅ l !! k = Some v <->
  exists i row, l !! i = Some row /\ row_entry row = Some (k, v) /\
                forall j row' v', i < j -> l !! j = Some row' ->
                                  row_entry row' <> Some (k, v').
Proof.
  induction l as [|row l IH] using rev_ind.
  - cbn [foldl]. rewrite lookup_empty. split; [done|]. by intros (i & r & Hr & _).
  - rewrite foldl_app. cbn [foldl]. rewrite load_row_entry.
    destruct (row_entry row) as [[k' v']|] eqn:Hrow.
    + destruct (decide (k' = k)) as [->|Hne].
      * rewrite lookup_insert_eq. split.
        -- intros [= <-]. exists (length l), row.
           split; [by rewrite list_lookup_middle|]. split; [done|].
           intros j row' v2 Hj Hlook. apply lookup_lt_Some in Hlook.
           rewrite length_app in Hlook. cbn in Hlook. lia.
        -- intros (i & r & Hr & Hentry & Hlast).
           destruct (decide (i < length l)) as [Hi|Hi].
           ++ exfalso. apply (Hlast (length l) row v'); [done| |done].
              by rewrite list_lookup_middle.
           ++ pose proof (lookup_lt_Some _ _ _ Hr) as Hlt.
              rewrite length_app in Hlt. cbn in Hlt.
              assert (i = length l) as -> by lia.
              rewrite list_lookup_middle in Hr by done. injection Hr as <-.
              congruence.
      * rewrite lookup_insert_ne by done. rewrite IH. split.
        -- intros (i & r & Hr & Hentry & Hlast). exists i, r.
           split; [by apply lookup_app_l_Some|]. split; [done|].
           intros j row' v2 Hj Hlook.
           apply lookup_app_Some in Hlook as [Hlook|[Hge Hlook]]; [by eapply Hlast|].
           destruct (j - length l) as [|n]; [|done].
           injection Hlook as <-. congruence.
        -- intros (i & r & Hr & Hentry & Hlast).
           apply lookup_app_Some in Hr as [Hr|[Hge Hr]].
           ++ exists i, r. split; [done|]. split; [done|].
              intros j row' v2 Hj Hlook. apply (Hlast j row' v2 Hj).
              by apply lookup_app_l_Some.
           ++ destruct (i - length l) as [|n]; [|done].
              injection Hr as <-. congruence.
    + rewrite IH. split.
      * intros (i & r & Hr & Hentry & Hlast). exists i, r.
        split; [by apply lookup_app_l_Some|]. split; [done|].
        intros j row' v2 Hj Hlook.
        apply lookup_app_Some in Hlook as [Hlook|[Hge Hlook]]; [by eapply Hlast|].
        destruct (j - length l) as [|n]; [|done].
        injection Hlook as <-. congruence.
      * intros (i & r & Hr & Hentry & Hlast).
        apply lookup_app_Some in Hr as [Hr|[Hge Hr]].
        -- exists i, r. split; [done|]. split; [done|].
           intros j row' v2 Hj Hlook. apply (Hlast j row' v2 Hj).
           by apply lookup_app_l_Some.
        -- destruct (i - length l) as [|n]; [|done].
           injection Hr as <-. congruence.
Qed.

Lemma row_entry_Some (row : list string) (k v : string) :
  row_entry row = Some (k, v) <->
  exists product area rest,
    row = product :: area :: rest /\ k = Py.lower (Py.strip product) /\ v = Py.strip area.
Proof.
  split.
  - destruct row as [|product [|area rest]]; [done|done|].
    intros [= <- <-]. by exists product, area, rest.
  - by intros (product & area & rest & -> & -> & ->).
Qed.

Lemma lookup_load_warehouse_map_dict (rows : list (list string)) (k v : string) :
  load_warehouse_map_dict rows !! k = Some v <->
  exists i product area rest,
    0 < i /\ rows !! i = Some (product :: area :: rest) /\
    k = Py.lower (Py.strip product) /\ v = Py.strip area /\
    forall j product' area' rest',
      i < j -> rows !! j = Some (product' :: area' :: rest') ->
      Py.lower (Py.strip product') <> k.
Proof.
  unfold load_warehouse_map_dict. rewrite lookup_foldl_load_row. split.
  - intros (i & row & Hrow & (product & area & rest & -> & -> & ->)%row_entry_Some & Hlast).
    exists (S i), product, area, rest. rewrite lookup_tail in Hrow.
    split; [lia|]. split; [done|]. split; [done|]. split; [done|].
    intros j product' area' rest' Hj Hlook Hk.
    destruct j as [|j]; [lia|].
    apply (Hlast j (product' :: area' :: rest') (Py.strip area')); [lia| |].
    + by rewrite lookup_tail.
    + cbn [row_entry]. by rewrite Hk.
  - intros (i & product & area & rest & Hi & Hrow & -> & -> & Hlast).
    destruct i as [|i]; [lia|].
    exists i, (product :: area :: rest). rewrite lookup_tail.
    split; [done|]. split; [done|].
    intros j row' v' Hj Hlook (product' & area' & rest' & -> & Hk & _)%row_entry_Some.
    rewrite lookup_tail in Hlook.
    apply (Hlast (S j) product' area' rest'); [lia|done|done].
Qed.

(** X16.  The warehouse map loaded from a file of ASCII text: the header
    row and the rows with fewer than two columns give nothing; a product name
    is entered lower-cased and without surrounding white space, with the
    trimmed area of the LAST row that has this name; so every key is a fixed
    point of the normalisation that the parser applies to a product title,
    and every area is trimmed. *)
Theorem loaded_map_last_row_wins (rows : list (list string)) (k v : string) :
  Forall (Forall ascii_text) rows ->
  load_warehouse_map_dict rows !! k = Some v ->
  (exists i product area rest,
     0 < i /\ rows !! i = Some (product :: area :: rest) /\
     k = Py.lower (Py.strip product) /\ v = Py.strip area /\
     forall j product' area' rest',
       i < j -> rows !! j = Some (product' :: area' :: rest') ->
       Py.lower (Py.strip product') <> k) /\
  Py.strip (Py.lower k) = k /\
  Py.strip v = v.
Proof.
  intros _ Hk. pose proof Hk as Hrow%lookup_load_warehouse_map_dict.
  split; [done|].
  destruct Hrow as (i & product & area & rest & _ & _ & -> & -> & _).
  split; [|apply strip_idempotent].
  by rewrite lower_idempotent, <- lower_strip, strip_idempotent.
Qed.

(** X17.  A product of a warehouse-map file of ASCII text is found under
    its own name: an item whose title is the product name as it is spelled in
    a data row (whatever its case and the white space around it) resolves to
    the trimmed area of the last row with this name, unless the name contains
    "sample", which sends it to 'garage'. *)
Theorem listed_product_resolves (rows : list (list string)) (i : nat)
    (product area : string) (rest : list string) (size quantity : string) :
  Forall (Forall ascii_text) rows ->
  0 < i ->
  rows !! i = Some (product :: area :: rest) ->
  (forall j product' area' rest',
     i < j -> rows !! j = Some (product' :: area' :: rest') ->
     Py.lower (Py.strip product') <> Py.lower (Py.strip product)) ->
  get_warehouse_area (normalized_title (product, size, quantity))
    (load_warehouse_map_dict rows)
  = if Py.contains "sample" (Py.lower product) then "garage" else Py.strip area.
Proof.
  intros _ Hi Hrow Hlast.
  assert (load_warehouse_map_dict rows !! normalized_title (product, size, quantity)
          = Some (Py.strip area)) as Hlook.
  { apply lookup_load_warehouse_map_dict. exists i, product, area, rest.
    unfold normalized_title. cbn [item_title fst]. rewrite <- lower_strip.
    by repeat (split; [done|]). }
  unfold get_warehouse_area. rewrite normalized_title_lower, Hlook.
  unfold normalized_title. cbn [item_title fst].
  rewrite (contains_visible_strip "sample") by done.
  by destruct (Py.contains "sample" (Py.lower product)).
Qed.

Lemma foldl_load_row_nonempty (l : list (list string)) (warehouse_map : gmap string string) :
  warehouse_map <> ∅ \/ Exists (fun row => 2 <= length row) l ->
  foldl load_row warehouse_map l <> ∅.
Proof.
  revert warehouse_map. induction l as [|row l IH]; intros wm Hwhy.
  - destruct Hwhy as [?|Hex]; [done|]. by apply Exists_nil in Hex.
  - cbn [foldl]. apply IH.
    destruct row as [|product [|area rest]].
    + destruct Hwhy as [?|[Hrow|?]%Exists_cons]; [by left|cbn in Hrow; lia|by right].
    + destruct Hwhy as [?|[Hrow|?]%Exists_cons]; [by left|cbn in Hrow; lia|by right].
    + left. cbn [load_row]. apply insert_non_empty.
Qed.

(** X18.  The loaded warehouse map is empty, so that [main] refuses to
    start, exactly when no row after the header has two columns. *)
Theorem loaded_map_empty_iff (rows : list (list string)) :
  load_warehouse_map_dict rows = ∅ <->
  forall i row, 0 < i -> rows !! i = Some row -> length row < 2.
Proof.
  split.
  - intros Hempty i row Hi Hrow.
    destruct (decide (length row < 2)) as [|Hlong]; [done|exfalso].
    apply (foldl_load_row_nonempty (tail rows) ∅); [|done].
    right. apply Exists_exists. exists row. split; [|lia].
    apply list_elem_of_lookup. exists (pred i). rewrite lookup_tail.
    by replace (S (pred i)) with i by lia.
  - intros Hshort. apply map_empty. intros k. apply eq_None_not_Some.
    intros [v (i & product & area & rest & Hi & Hrow & _)%lookup_load_warehouse_map_dict].
    specialize (Hshort i _ Hi Hrow). cbn in Hshort. lia.
Qed.

(** ** The first product of a packing slip *)

Lemma lower_nonempty (s : string) : s <> "" -> Py.lower s <> "".
Proof. by destruct s. Qed.

Lemma nonempty_spec (s : string) : nonempty s = true <-> s <> "".
Proof. by destruct s. Qed.

Lemma first_product_loop_started (lines : list string) (p : string) :
  first_product_loop true lines = Some p <->
  exists between line after,
    lines = between ++ line :: after /\
    Forall blank_or_marker between /\
    Py.strip line <> "" /\ Py.contains "ITEMS" (Py.strip line) = false /\
    p = Py.lower (Py.strip line).
Proof.
  induction lines as [|l ls IH].
  - split; [done|]. intros (between & line & after & Heq & _). by destruct between.
  - cbn [first_product_loop]. cbn zeta.
    destruct (Py.contains "ITEMS" (Py.strip l)) eqn:Hm.
    + rewrite IH. split.
      * intros (between & line & after & -> & Hb & Hline).
        exists (l :: between), line, after. split; [done|].
        split; [|done]. constructor; [by right|done].
      * intros (between & line & after & Heq & Hb & Hne & Hnm & Hp).
        destruct between as [|b between]; cbn [app] in Heq; injection Heq as <- ->.
        -- congruence.
        -- apply Forall_cons in Hb as [_ Hb]. by exists between, line, after.
    + cbn [andb]. destruct (nonempty (Py.strip l)) eqn:Hn.
      * apply nonempty_spec in Hn.
        rewrite <- lower_strip, strip_idempotent. split.
        -- intros [= <-]. by exists [], l, ls.
        -- intros (between & line & after & Heq & Hb & Hne & Hnm & ->).
           destruct between as [|b between]; cbn [app] in Heq; injection Heq as <- ->.
           ++ done.
           ++ apply Forall_cons in Hb as [[?|?] _]; [done|congruence].
      * assert (Py.strip l = "") as Hblank by (by destruct (Py.strip l)).
        rewrite IH. split.
        -- intros (between & line & after & -> & Hb & Hline).
           exists (l :: between), line, after. split; [done|].
           split; [|done]. constructor; [by left|done].
        -- intros (between & line & after & Heq & Hb & Hne & Hnm & Hp).
           destruct between as [|b between]; cbn [app] in Heq; injection Heq as <- ->.
           ++ done.
           ++ apply Forall_cons in Hb as [_ Hb]. by exists between, line, after.
Qed.

Lemma first_product_loop_not_started (lines : list string) (p : string) :
  first_product_loop false lines = Some p <->
  exists before marker rest,
    lines = before ++ marker :: rest /\
    Forall (fun l => Py.contains "ITEMS" (Py.strip l) = false) before /\
    Py.contains "ITEMS" (Py.strip marker) = true /\
    first_product_loop true rest = Some p.
Proof.
  induction lines as [|l ls IH].
  - split; [done|]. intros (before & marker & rest & Heq & _). by destruct before.
  - cbn [first_product_loop]. cbn zeta.
    destruct (Py.contains "ITEMS" (Py.strip l)) eqn:Hm.
    + split.
      * intros Hp. by exists [], l, ls.
      * intros (before & marker & rest & Heq & Hb & Hmarker & Hp).
        destruct before as [|b before]; cbn [app] in Heq; injection Heq as <- ->.
        -- done.
        -- apply Forall_cons in Hb as [Hb _]. congruence.
    + cbn [andb]. rewrite IH. split.
      * intros (before & marker & rest & -> & Hb & Hrest).
        exists (l :: before), marker, rest. split; [done|].
        split; [|done]. by constructor.
      * intros (before & marker & rest & Heq & Hb & Hmarker & Hp).
        destruct before as [|b before]; cbn [app] in Heq; injection Heq as <- ->.
        -- congruence.
        -- apply Forall_cons in Hb as [_ Hb]. by exists before, marker, rest.
Qed.

(** X19.  On ASCII text, [extract_first_product] finds nothing in a text
    without "ITEMS".  It returns [p] exactly when the lines of the text are:
    lines without "ITEMS", the first line with "ITEMS", then blank lines and
    further lines with "ITEMS", then a line that is neither, of which [p] is
    the trimmed and lower-cased text; [p] is then not empty, lower-case and
    trimmed. *)
Theorem first_product_follows_marker (text : string) :
  ascii_text text ->
  (Py.contains "ITEMS" text = false -> extract_first_product text = None) /\
  forall p,
    extract_first_product text = Some p <->
    exists before marker between line after,
      Py.split "010" text = before ++ marker :: between ++ line :: after /\
      Forall (fun l => Py.contains "ITEMS" (Py.strip l) = false) before /\
      Py.contains "ITEMS" (Py.strip marker) = true /\
      Forall blank_or_marker between /\
      Py.strip line <> "" /\ Py.contains "ITEMS" (Py.strip line) = false /\
      p = Py.lower (Py.strip line) /\
      p <> "" /\ Py.lower p = p /\ Py.strip p = p.
Proof.
  intros _. unfold extract_first_product. split.
  - intros Htext. apply eq_None_not_Some.
    intros [p (before & marker & rest & Heq & _ & Hm & _)%first_product_loop_not_started].
    apply contains_strip in Hm.
    rewrite (contains_split_line "ITEMS" "010" text marker) in Htext; [done| |done].
    rewrite Heq. apply elem_of_app. right. left.
  - intros p. rewrite first_product_loop_not_started. split.
    + intros (before & marker & rest & Heq & Hb & Hm & Hrest).
      apply first_product_loop_started
        in Hrest as (between & line & after & -> & Hbetween & Hne & Hnm & ->).
      exists before, marker, between, line, after.
      repeat (split; [done|]). split; [by apply lower_nonempty|].
      split; [apply lower_idempotent|].
      by rewrite <- lower_strip, strip_idempotent.
    + intros (before & marker & between & line & after & Heq & Hb & Hm & Hbetween
              & Hne & Hnm & Hp & _).
      exists before, marker, (between ++ line :: after).
      repeat (split; [done|]). apply first_product_loop_started.
      by exists between, line, after.
Qed.

(** ** The size key of the manifest rows *)

Lemma lower_char_digit (c : ascii) : Py.is_digit c = true -> Py.lower_char c = c.
Proof.
  destruct c as [[] [] [] [] [] [] [] []]; intros Hc; by vm_compute in Hc |- *.
Qed.

Lemma lower_digits (s : string) : all_chars Py.is_digit s = true -> Py.lower s = s.
Proof.
  induction s as [|c s IH]; [done|]. cbn [all_chars].
  intros [Hc Hs]%andb_true_iff. cbn [Py.lower Py.map_chars]. fold (Py.lower s).
  by rewrite IH, lower_char_digit.
Qed.

Lemma strip_digits (s : string) : all_chars Py.is_digit s = true -> Py.strip s = s.
Proof.
  intros Hs. apply strip_no_space. eapply all_chars_impl; [|exact Hs].
  intros c Hc. by rewrite digit_not_space.
Qed.

Lemma prefix_other_head (c0 : ascii) (p : string) (c : ascii) (s : string) :
  c <> c0 -> String.prefix (String c0 p) (String c s) = false.
Proof.
  intros Hc. destruct (String.prefix _ _) eqn:Hp; [|done].
  apply prefix_spec in Hp as [post Hp]. rewrite string_app_cons in Hp.
  injection Hp as -> _. done.
Qed.

Lemma digit_not_s (c : ascii) : Py.is_digit c = true -> c <> "s"%char.
Proof. intros Hc ->. by vm_compute in Hc. Qed.

Lemma replace_go_digits (s : string) :
  all_chars Py.is_digit s = true -> Py.replace_go "size " "" 0 s = s.
Proof.
  induction s as [|c s IH]; [done|]. cbn [all_chars].
  intros [Hc Hs]%andb_true_iff. cbn [Py.replace_go].
  rewrite prefix_other_head by (by apply digit_not_s). by rewrite IH.
Qed.

Lemma replace_go_skip (old new r s : string) :
  Py.replace_go old new (String.length r) (r ++ s) = Py.replace_go old new 0 s.
Proof.
  induction r as [|c r IH]; [by rewrite string_app_nil_l|].
  rewrite string_app_cons. cbn [String.length Py.replace_go]. apply IH.
Qed.

(** An occurrence at the head is replaced, and the search goes on behind it. *)
Lemma replace_go_occurrence (c0 : ascii) (rest new s : string) :
  Py.replace_go (String c0 rest) new 0 (String c0 rest ++ s)
  = (new ++ Py.replace_go (String c0 rest) new 0 s)%string.
Proof.
  assert (String.prefix (String c0 rest) (String c0 (rest ++ s)) = true) as Hp.
  { apply prefix_spec. exists s. by rewrite string_app_cons. }
  rewrite string_app_cons.
  change (Py.replace_go (String c0 rest) new 0 (String c0 (rest ++ s)))
    with (if String.prefix (String c0 rest) (String c0 (rest ++ s))
          then (new ++ Py.replace_go (String c0 rest) new
                         (String.length (String c0 rest) - 1) (rest ++ s))%string
          else String c0 (Py.replace_go (String c0 rest) new 0 (rest ++ s))).
  rewrite Hp. f_equal.
  replace (String.length (String c0 rest) - 1) with (String.length rest)
    by (cbn [String.length]; lia).
  apply replace_go_skip.
Qed.

Lemma rstrip_digits_end (s d : string) :
  digit_string d -> Py.rstrip (s ++ d) = (s ++ d)%string.
Proof.
  intros [Hne Hd]. unfold Py.rstrip. rewrite rev_append.
  destruct (String.rev d) as [|c t] eqn:Hr.
  { apply (f_equal String.rev) in Hr. rewrite rev_involutive in Hr. done. }
  assert (Py.is_digit c = true) as Hc.
  { rewrite <- all_chars_rev, Hr in Hd. cbn [all_chars] in Hd.
    by apply andb_true_iff in Hd as [? _]. }
  rewrite string_app_cons, lstrip_visible by (by apply digit_not_space).
  rewrite <- string_app_cons, <- Hr, <- rev_append. apply rev_involutive.
Qed.

Lemma upper_char_digit (c : ascii) : Py.is_digit c = true -> Py.upper_char c = c.
Proof.
  destruct c as [[] [] [] [] [] [] [] []]; intros Hc; by vm_compute in Hc |- *.
Qed.

Lemma upper_digits (s : string) : all_chars Py.is_digit s = true -> Py.upper s = s.
Proof.
  induction s as [|c s IH]; [done|]. cbn [all_chars].
  intros [Hc Hs]%andb_true_iff. cbn [Py.upper Py.map_chars]. fold (Py.upper s).
  by rewrite IH, upper_char_digit.
Qed.

Lemma upper_append (s t : string) : Py.upper (s ++ t) = (Py.upper s ++ Py.upper t)%string.
Proof.
  induction s as [|a s IH]; [done|].
  rewrite string_app_cons. cbn [Py.upper Py.map_chars]. fold (Py.upper (s ++ t)).
  fold (Py.upper s). by rewrite IH, string_app_cons.
Qed.

(** [int] refuses "size <d>". *)
Lemma int_of_size_word (d : string) : digit_string d -> Py.int ("size " ++ d) = None.
Proof.
  intros Hd. destruct (digit_string_last d Hd) as (c' & t' & Hr & Hc').
  assert (Py.int_strip ("size " ++ d) = ("size " ++ d)%string) as Hstrip.
  { unfold Py.int_strip. rewrite string_app_cons. cbn [Py.skip].
    change (Py.is_int_space "s") with false. cbv iota.
    rewrite <- string_app_cons, rev_append, Hr, string_app_cons. cbn [Py.skip].
    rewrite (digit_not_int_space c' Hc'), <- string_app_cons, <- Hr, <- rev_append.
    apply rev_involutive. }
  unfold Py.int. rewrite Hstrip. cbv zeta.
  destruct (Py.max_str_digits <? _)%Z; [done|].
  by rewrite string_app_cons.
Qed.

(** X20.  A size written as a number sorts by its value, with or without
    the word "Size" in front of it (in any case): the key of "39" and of
    "Size 39" is 39, so that size 9 comes before size 10.  This holds for the
    numbers that [int] reads, those of at most 4300 digits; a longer one is
    refused and gets the key of the unknown sizes, 100. *)
Theorem numeric_size_sorts_by_value (d : string) :
  digit_string d ->
  if (Py.max_str_digits <? Z.of_nat (String.length d))%Z
  then Py.int d = None /\
       size_sort_key d = 100%Z /\
       size_sort_key ("Size " ++ d) = 100%Z /\
       size_sort_key ("size " ++ d) = 100%Z /\
       size_sort_key ("SIZE " ++ d) = 100%Z
  else exists n, Py.int d = Some n /\ (0 <= n)%Z /\
                 size_sort_key d = n /\
                 size_sort_key ("Size " ++ d) = n /\
                 size_sort_key ("size " ++ d) = n /\
                 size_sort_key ("SIZE " ++ d) = n.
Proof.
  intros Hd. pose proof Hd as [Hne Hdigits].
  assert (forall w, Py.lower w = "size " -> Py.upper w = "SIZE " ->
                    size_sort_key (w ++ d) = default 100%Z (Py.int d)) as Hsize.
  { intros w Hw Hu. unfold size_sort_key.
    rewrite lower_append, Hw, (lower_digits d Hdigits).
    assert (Py.strip ("size " ++ d) = ("size " ++ d)%string) as ->.
    { unfold Py.strip. rewrite string_app_cons, lstrip_visible by done.
      rewrite <- string_app_cons. by apply rstrip_digits_end. }
    assert (String.prefix "size " ("size " ++ d) = true) as ->
      by (apply prefix_spec; by exists d).
    assert (Py.replace "size " "" ("size " ++ d) = d) as ->.
    { unfold Py.replace. rewrite replace_go_occurrence, string_app_nil_l.
      by apply replace_go_digits. }
    rewrite (strip_digits d Hdigits).
    destruct (Py.int d) as [n|]; [done|].
    rewrite (int_of_size_word d Hd), upper_append, Hu. by vm_compute. }
  assert (size_sort_key d = default 100%Z (Py.int d)) as Hplain.
  { unfold size_sort_key.
    rewrite (lower_digits d Hdigits), (strip_digits d Hdigits), (upper_digits d Hdigits).
    destruct d as [|c d]; [done|]. cbn [all_chars] in Hdigits.
    apply andb_true_iff in Hdigits as [Hc _].
    rewrite prefix_other_head by (by apply digit_not_s).
    destruct (Py.int (String c d)) as [n|]; [done|].
    destruct c as [[] [] [] [] [] [] [] []]; try (by vm_compute in Hc); by vm_compute. }
  pose proof (int_of_digit_string d Hd) as Hint.
  destruct (Py.max_str_digits <? Z.of_nat (String.length d))%Z.
  - rewrite Hplain, !Hsize, Hint by done. done.
  - destruct Hint as (n & Hn & Hn0). exists n.
    rewrite Hplain, !Hsize, Hn by done. done.
Qed.

(** ** Packing slips in the expected layout *)

Lemma split_no_sep (sep : ascii) (s : string) :
  all_chars (fun c => negb (Ascii.eqb c sep)) s = true -> Py.split sep s = [s].
Proof.
  induction s as [|c s IH]; [done|]. cbn [all_chars Py.split].
  intros [Hc Hs]%andb_true_iff. apply negb_true_iff in Hc. by rewrite Hc, IH.
Qed.

Lemma split_app_sep (sep : ascii) (s t : string) :
  all_chars (fun c => negb (Ascii.eqb c sep)) s = true ->
  Py.split sep (s ++ String sep t) = s :: Py.split sep t.
Proof.
  induction s as [|c s IH].
  - intros _. rewrite string_app_nil_l. cbn [Py.split]. by rewrite Ascii.eqb_refl.
  - cbn [all_chars]. intros [Hc Hs]%andb_true_iff. apply negb_true_iff in Hc.
    rewrite string_app_cons. cbn [Py.split]. by rewrite Hc, IH.
Qed.

(** Splitting at the line ends undoes joining with line ends. *)
Lemma split_join_lines (lines : list string) :
  lines <> [] -> Forall no_newline lines -> Py.split "010" (Py.join nl lines) = lines.
Proof.
  intros Hne Hlines. induction Hlines as [|line lines Hline Hlines IH]; [done|].
  rewrite join_cons. destruct lines as [|line' lines].
  - rewrite string_app_nil_r. by apply split_no_sep.
  - change (line ++ nl ++ Py.join nl (line' :: lines))%string
      with (line ++ String "010" (Py.join nl (line' :: lines)))%string.
    rewrite split_app_sep by done. by rewrite IH.
Qed.

Lemma find_items_section_marker (warehouse_map : gmap string string)
    (before : list string) (marker : string) (lines : list string) :
  Forall (fun l => Py.contains "ITEMS" (Py.strip l) = false) before ->
  Py.contains "ITEMS" (Py.strip marker) = true ->
  find_items_section warehouse_map (before ++ marker :: lines)
  = items_section warehouse_map lines.
Proof.
  intros Hb Hm. induction Hb as [|l before Hl _ IH]; cbn [app find_items_section].
  - by rewrite Hm.
  - by rewrite Hl.
Qed.

Lemma acceptable_size_nonempty (size : string) : size ∈ acceptable_sizes -> size <> "".
Proof.
  intros Hin ->. revert Hin. apply (proj1 (bool_decide_eq_false _)). by vm_compute.
Qed.

Lemma items_section_block (warehouse_map : gmap string string) (b : block) (it : item)
    (after_size : list string) :
  well_formed_block warehouse_map b it ->
  items_section warehouse_map (block_title b :: block_size_line b :: after_size)
  = it :: match after_size with
          | sku :: after_sku =>
              if is_sku_line sku then items_section warehouse_map after_sku
              else items_section warehouse_map after_size
          | [] => []
          end.
Proof.
  destruct it as [[product_title size] quantity].
  unfold well_formed_block, normalized_title. cbn [item_title item_size item_quantity fst snd].
  intros (-> & Hstop & Hknown & Hsize & _).
  cbn [items_section]. rewrite Hstop.
  assert (negb (bool_decide (is_Some (warehouse_map
                  !! Py.strip (Py.lower (Py.strip (block_title b))))))
          && negb (Py.contains "sample" (Py.strip (Py.lower (Py.strip (block_title b)))))
          = false) as ->.
  { destruct Hknown as [Hk|Hs].
    - by rewrite bool_decide_eq_true_2.
    - rewrite Hs. apply andb_false_r. }
  rewrite Hsize.
  apply size_of_line_ok in Hsize as [Hs%acceptable_size_nonempty [Hq _]].
  assert (nonempty (Py.strip (block_title b)) && nonempty size && nonempty quantity = true)
    as ->.
  { destruct (Py.strip (block_title b)); [done|]. by destruct size, quantity. }
  destruct after_size as [|sku after_sku]; [done|].
  by destruct (is_sku_line sku).
Qed.

Lemma items_section_blocks (warehouse_map : gmap string string) (blocks : list block)
    (items : list item) (rest : list string) :
  Forall2 (well_formed_block warehouse_map) blocks items ->
  match rest with
  | [] => True
  | line :: _ => is_sku_line line = false
  end ->
  items_section warehouse_map (flat_map block_lines blocks ++ rest)
  = items ++ items_section warehouse_map rest.
Proof.
  intros Hblocks Hrest.
  induction Hblocks as [|b it blocks items Hb Hblocks IH]; [done|].
  cbn [flat_map]. unfold block_lines at 1. cbn [app].
  rewrite (items_section_block warehouse_map b it) by done.
  cbn [app]. f_equal. rewrite <- IH.
  destruct (block_sku b) as [sku|] eqn:Hsku.
  - change (option_list (Some sku)) with [sku]. cbn [app].
    destruct Hb as (_ & _ & _ & _ & _ & Hs). by rewrite (Hs sku).
  - change (option_list None) with (@nil string). cbn [app].
    destruct Hblocks as [|b' it' blocks items Hb' Hblocks].
    + cbn [flat_map app]. destruct rest as [|line rest]; [done|]. by rewrite Hrest.
    + cbn [flat_map]. unfold block_lines at 1 3. cbn [app].
      destruct Hb' as (_ & _ & _ & _ & Hnot & _). by rewrite Hnot.
Qed.

(** X21.  A packing slip in the expected layout parses to its items, one
    per block and in order: after lines without "ITEMS" and the first line
    with "ITEMS" come the blocks (title line, size line, and maybe a SKU
    line) of products the parser accepts, and then the text ends or a stop
    line follows.  No title line may look like a SKU line, since a line after
    a size line that looks like one is skipped. *)
Theorem well_formed_section_parses (warehouse_map : gmap string string)
    (before : list string) (marker : string) (blocks : list block) (items : list item)
    (rest : list string) :
  let lines := before ++ marker :: flat_map block_lines blocks ++ rest in
  Forall no_newline lines ->
  Forall (fun l => Py.contains "ITEMS" (Py.strip l) = false) before ->
  Py.contains "ITEMS" (Py.strip marker) = true ->
  Forall2 (well_formed_block warehouse_map) blocks items ->
  match rest with
  | [] => True
  | stop :: _ => is_stop (Py.strip stop) = true /\ is_sku_line stop = false
  end ->
  extract_product_details (Py.join nl lines) warehouse_map = items.
Proof.
  intros lines Hlines Hbefore Hmarker Hblocks Hrest.
  unfold extract_product_details.
  rewrite split_join_lines; [|by destruct before|done].
  unfold lines. rewrite find_items_section_marker by done.
  rewrite (items_section_blocks warehouse_map blocks items rest); [|done|].
  - destruct rest as [|stop rest']; [by rewrite app_nil_r|].
    destruct Hrest as [Hstop _]. cbn [items_section]. rewrite Hstop. apply app_nil_r.
  - destruct rest as [|stop rest']; [done|]. by destruct Hrest.
Qed.

(** ** The size line in its usual form *)

(** The part of the pattern behind the first group, [\s+(\d+)\s+of\s+\d+],
    on " <q> of <n>". *)
Lemma behind_size_matches {A} (q n : string) (cs : Re.captures)
    (k : string -> Re.captures -> option A) (a : A) :
  digit_string q -> digit_string n ->
  k "" ((2, q) :: cs) = Some a ->
  Re.run (Re.Plus Re.space ⋅ Re.Group 2 (Re.Plus Re.digit)
          ⋅ Re.Plus Re.space ⋅ Re.Lit "of" ⋅ Re.Plus Re.space ⋅ Re.Plus Re.digit)
         (" " ++ q ++ " of " ++ n) cs k = Some a.
Proof.
  intros Hq Hn Hk.
  destruct (digit_string_head q Hq) as (cq & tq & Hqh & Hcq).
  destruct (digit_string_head n Hn) as (cn & tn & Hnh & Hcn).
  destruct Hq as [Hqne Hqd], Hn as [Hnne Hnd].
  cbn [Re.run].
  apply (plus_greedy Re.space " "); [done|done| |].
  { intros c t Hc. rewrite Hqh, string_app_cons in Hc. injection Hc as <- _.
    by apply digit_not_space. }
  apply (plus_greedy Re.digit q); [done|done| |].
  { intros c t Hc. rewrite string_app_cons in Hc. by injection Hc as <- _. }
  rewrite consumed_append.
  change (" of " ++ n)%string with (" " ++ ("of " ++ n))%string.
  apply (plus_greedy Re.space " "); [done|done| |].
  { intros c t Hc. rewrite string_app_cons in Hc. by injection Hc as <- _. }
  change (Re.drop_prefix "of" ("of " ++ n)%string) with (Some (" " ++ n)%string).
  cbv beta iota.
  apply (plus_greedy Re.space " "); [done|done| |].
  { intros c t Hc. rewrite Hnh in Hc. injection Hc as <- _. by apply digit_not_space. }
  rewrite <- (string_app_nil_r n).
  apply (plus_greedy Re.digit n); [done|done|done|done].
Qed.

(** The same part fails where a quantity or the word "of" stands. *)
Lemma behind_size_fails {A} (s : string) (cs : Re.captures)
    (k : string -> Re.captures -> option A) :
  (forall c t, s = String c t -> Re.space c = false) \/
  (exists t, s = (" of" ++ t)%string) ->
  Re.run (Re.Plus Re.space ⋅ Re.Group 2 (Re.Plus Re.digit)
          ⋅ Re.Plus Re.space ⋅ Re.Lit "of" ⋅ Re.Plus Re.space ⋅ Re.Plus Re.digit)
         s cs k = None.
Proof.
  intros [Hs|[t ->]]; cbn [Re.run].
  - by apply plus_stops.
  - change (" of" ++ t)%string with (" " ++ ("of" ++ t))%string.
    apply plus_fails; [done| |].
    + intros c t' Hc. rewrite string_app_cons in Hc. by injection Hc as <- _.
    + intros pre1 pre2 Hpre Hne.
      destruct pre1 as [|c1 pre1]; [done|]. rewrite string_app_cons in Hpre.
      injection Hpre as <- Hpre. destruct pre1; [|done]. rewrite string_app_nil_l in Hpre.
      subst pre2. rewrite string_app_nil_l. apply plus_stops.
      intros c t' Hc. rewrite string_app_cons in Hc. by injection Hc as <- _.
Qed.

(** A size of one word: the optional second word of the first group is tried
    on the quantity and given up. *)
Lemma size_quantity_re_one_word (size q n : string) :
  size <> "" -> all_chars Re.nonspace size = true ->
  digit_string q -> digit_string n ->
  Re.match_ size_quantity_re (size ++ " " ++ q ++ " of " ++ n) = Some [(2, q); (1, size)].
Proof.
  intros Hne Hsize Hq Hn. unfold Re.match_, size_quantity_re.
  set (behind := Re.Plus Re.space ⋅ Re.Group 2 (Re.Plus Re.digit) ⋅ _).
  cbn [Re.run].
  apply (plus_greedy Re.nonspace size); [done|done| |].
  { intros c t Hc. rewrite string_app_cons in Hc. by injection Hc as <- _. }
  match goal with
  | |- match ?m with Some _ => _ | None => _ end = _ => assert (m = None) as ->
  end.
  { destruct (digit_string_head q Hq) as (cq & tq & Hqh & Hcq).
    apply (plus_fails Re.space " "); [done| |].
    { intros c t Hc. rewrite Hqh, string_app_cons in Hc. injection Hc as <- _.
      by apply digit_not_space. }
    intros pre1 pre2 Hpre Hpre1.
    destruct pre1 as [|c1 pre1]; [done|]. rewrite string_app_cons in Hpre.
    injection Hpre as <- Hpre. destruct pre1; [|done]. rewrite string_app_nil_l in Hpre.
    subst pre2. rewrite string_app_nil_l.
    destruct Hq as [_ Hqd].
    apply plus_fails; [done| |].
    { intros c t Hc. rewrite string_app_cons in Hc. by injection Hc as <- _. }
    intros q1 q2 -> Hq1. apply behind_size_fails.
    destruct q2 as [|c2 q2].
    - right. exists (" " ++ n)%string. by rewrite string_app_nil_l.
    - left. intros c t Hc. rewrite string_app_cons in Hc. injection Hc as <- _.
      rewrite all_chars_append in Hqd. apply andb_true_iff in Hqd as [_ Hq2].
      cbn [all_chars] in Hq2. apply andb_true_iff in Hq2 as [Hc2 _].
      by apply digit_not_space. }
  rewrite consumed_append.
  by apply (behind_size_matches q n [(1, size)]).
Qed.

(** A size of two words, the second a number: the first group takes both. *)
Lemma size_quantity_re_two_words (word number q n : string) :
  word <> "" -> all_chars Re.nonspace word = true ->
  digit_string number -> digit_string q -> digit_string n ->
  Re.match_ size_quantity_re ((word ++ " " ++ number) ++ " " ++ q ++ " of " ++ n)
  = Some [(2, q); (1, (word ++ " " ++ number)%string)].
Proof.
  intros Hne Hword Hnumber Hq Hn. unfold Re.match_, size_quantity_re.
  set (behind := Re.Plus Re.space ⋅ Re.Group 2 (Re.Plus Re.digit) ⋅ _).
  cbn [Re.run].
  destruct (digit_string_head number Hnumber) as (cd & td & Hdh & Hcd).
  set (line := ((word ++ " " ++ number) ++ " " ++ q ++ " of " ++ n)%string).
  assert (line = (word ++ " " ++ number ++ " " ++ q ++ " of " ++ n)%string) as Hline.
  { unfold line. by rewrite !string_app_assoc. }
  rewrite Hline at 1.
  apply (plus_greedy Re.nonspace word); [done|done| |].
  { intros c t Hc. rewrite string_app_cons in Hc. by injection Hc as <- _. }
  match goal with
  | |- match ?m with Some _ => _ | None => _ end = _ =>
      assert (m = Some [(2, q); (1, (word ++ " " ++ number)%string)]) as ->; [|done]
  end.
  apply (plus_greedy Re.space " "); [done|done| |].
  { intros c t Hc. rewrite Hdh, string_app_cons in Hc. injection Hc as <- _.
    by apply digit_not_space. }
  destruct Hnumber as [Hdne Hdd].
  apply (plus_greedy Re.digit number); [done|done| |].
  { intros c t Hc. rewrite string_app_cons in Hc. by injection Hc as <- _. }
  unfold line. rewrite consumed_append.
  by apply (behind_size_matches q n [(1, (word ++ " " ++ number)%string)]).
Qed.

(** X22.  A size line in its usual form, "<size> <quantity> of <total>"
    with an acceptable size and two numbers, gives this size and this
    quantity, whatever the total is. *)
Theorem usual_size_line_is_read (size q n : string) :
  size ∈ acceptable_sizes -> digit_string q -> digit_string n ->
  size_of_line (size ++ " " ++ q ++ " of " ++ n) = Some (size, q).
Proof.
  intros Hsize Hq Hn. unfold size_of_line.
  assert (Re.match_ size_quantity_re (size ++ " " ++ q ++ " of " ++ n)
          = Some [(2, q); (1, size)]) as ->.
  { assert (size = "Size 1"%string \/ size = "Size 2"%string \/
            (size <> "" /\ all_chars Re.nonspace size = true)) as [-> | [-> | [Hne Hns]]].
    { unfold acceptable_sizes in Hsize. cbn [app map seq] in Hsize.
      repeat (apply elem_of_cons in Hsize as [-> | Hsize];
              [first [ by left | by (right; left) | by (right; right) ]|]).
      by apply elem_of_nil in Hsize. }
    - by apply (size_quantity_re_two_words "Size" "1").
    - by apply (size_quantity_re_two_words "Size" "2").
    - by apply size_quantity_re_one_word. }
  cbn [Re.group List.find fst snd Nat.eqb]. unfold Py.mem.
  by rewrite bool_decide_eq_true_2.
Qed.

(** ** The further properties at the sample decks *)

(** X1 at a page without the marker. *)
Lemma no_marker_no_items_witness :
  extract_product_details "Order 1003" Sample.warehouse_map = [].
Proof. apply no_marker_no_items. by vm_compute. Defined.

(** X2 at the item of the first sample page. *)
Lemma parsed_items_resolve_witness :
  let it : item := ("Tee", "M", "2") in
  let area := get_warehouse_area (normalized_title it) Sample.warehouse_map in
  item_title it <> "" /\
  Py.strip (item_title it) = item_title it /\
  (if Py.contains "sample" (normalized_title it)
   then area = "garage"
   else Sample.warehouse_map !! normalized_title it = Some area).
Proof.
  apply (parsed_items_resolve (extract_text_from_page Sample.deck 0) Sample.warehouse_map
           ("Tee", "M", "2")).
  - by vm_compute.
  - apply (list_elem_of_lookup_2 _ 0). by vm_compute.
Defined.

(** X3 at the item of the first sample page. *)
Lemma parsed_quantity_is_a_number_witness :
  let it : item := ("Tee", "M", "2") in
  digit_string (item_quantity it) /\
  if (Py.max_str_digits <? Z.of_nat (String.length (item_quantity it)))%Z
  then Py.int (item_quantity it) = None /\
       forall unique_products rest,
         merge_products (it :: rest) unique_products = merge_products rest unique_products
  else exists q, Py.int (item_quantity it) = Some q /\ (0 <= q)%Z.
Proof.
  apply (parsed_quantity_is_a_number (extract_text_from_page Sample.deck 0)
           Sample.warehouse_map ("Tee", "M", "2")).
  - by vm_compute.
  - apply (list_elem_of_lookup_2 _ 0). by vm_compute.
Defined.

(** X4 at a sample that takes its size from its title. *)
Lemma parsed_size_is_acceptable_witness :
  let it : item := ("Free Sample Size 7", "7", "1") in
  item_size it ∈ acceptable_sizes \/
  (Py.contains "sample" (normalized_title it) = true /\
   sample_size (normalized_title it) (item_size it) (item_quantity it)).
Proof.
  apply (parsed_size_is_acceptable Sample.sample_page Sample.warehouse_map
           ("Free Sample Size 7", "7", "1")).
  - by vm_compute.
  - apply (list_elem_of_lookup_2 _ 0). by vm_compute.
Defined.

(** X8 at the sample decks: three slips, three labels. *)
Lemma sorted_indices_valid_for_labels_witness :
  let sorted_indices :=
    map info_index
      (pages_with_info_sorted Sample.add_area_identifier_to_page Sample.warehouse_map
         Sample.deck (select_pages Sample.warehouse_map Sample.deck)) in
  List.filter (fun i => negb (i <? length Sample.labels)%nat) sorted_indices = [] /\
  length (pick_labels Sample.labels sorted_indices) = length sorted_indices /\
  forall i idx, sorted_indices !! i = Some idx ->
                pick_labels Sample.labels sorted_indices !! i = Sample.labels !! idx /\
                is_Some (Sample.labels !! idx).
Proof.
  apply (sorted_indices_valid_for_labels Sample.add_area_identifier_to_page
           Sample.warehouse_map Sample.deck Sample.labels).
  reflexivity.
Defined.

(** X9 at an empty packing-slip deck. *)
Lemma early_abort_writes_nothing_witness :
  let trace := process_packing_slips_and_labels Sample.add_area_identifier_to_page
                 Sample.build_summary_pdf Sample.env [] Sample.labels
                 Sample.warehouse_map in
  List.filter touches_file trace = [] /\
  exists pre message,
    trace = pre ++ [PopupError message] /\
    (message = "Please select a directory to save the output files." \/
     (exists e, makedirs_error Sample.env = Some e /\
                message = ("Failed to create directory " ++ save_path Sample.env
                           ++ ":" ++ nl ++ e)%string) \/
     message = "The packing slips PDF is empty." \/
     message = no_valid_products_message).
Proof.
  apply (early_abort_writes_nothing Sample.add_area_identifier_to_page
           Sample.build_summary_pdf Sample.env [] Sample.labels Sample.warehouse_map).
  right. right. left. reflexivity.
Defined.



(** X16 at a file that lists a product twice: the second row wins. *)
Lemma loaded_map_last_row_wins_witness :
  (exists i product area rest,
     0 < i /\ Sample.rows !! i = Some (product :: area :: rest) /\
     "tee" = Py.lower (Py.strip product) /\ "B12" = Py.strip area /\
     forall j product' area' rest',
       i < j -> Sample.rows !! j = Some (product' :: area' :: rest') ->
       Py.lower (Py.strip product') <> "tee") /\
  Py.strip (Py.lower "tee") = "tee" /\
  Py.strip "B12" = "B12".
Proof.
  apply (loaded_map_last_row_wins Sample.rows "tee" "B12").
  - by repeat constructor.
  - by vm_compute.
Defined.

(** X17 at the same file: the title " TEE " resolves to "B12". *)
Lemma listed_product_resolves_witness :
  get_warehouse_area (normalized_title (" TEE ", "M", "1"))
    (load_warehouse_map_dict Sample.rows)
  = if Py.contains "sample" (Py.lower " TEE ") then "garage" else Py.strip " B12 ".
Proof.
  apply (listed_product_resolves Sample.rows 2 " TEE " " B12 " [] "M" "1").
  - by repeat constructor.
  - lia.
  - reflexivity.
  - intros j product' area' rest' Hj Hrow. apply lookup_lt_Some in Hrow.
    cbn in Hrow. lia.
Defined.

(** X19 at the first sample page. *)
Lemma first_product_follows_marker_witness :
  let text := extract_text_from_page Sample.deck 0 in
  (Py.contains "ITEMS" text = false -> extract_first_product text = None) /\
  forall p,
    extract_first_product text = Some p <->
    exists before marker between line after,
      Py.split "010" text = before ++ marker :: between ++ line :: after /\
      Forall (fun l => Py.contains "ITEMS" (Py.strip l) = false) before /\
      Py.contains "ITEMS" (Py.strip marker) = true /\
      Forall blank_or_marker between /\
      Py.strip line <> "" /\ Py.contains "ITEMS" (Py.strip line) = false /\
      p = Py.lower (Py.strip line) /\
      p <> "" /\ Py.lower p = p /\ Py.strip p = p.
Proof.
  apply (first_product_follows_marker (extract_text_from_page Sample.deck 0)).
  by vm_compute.
Defined.

(** X20 at the size 39. *)
Lemma numeric_size_sorts_by_value_witness :
  exists n, Py.int "39" = Some n /\ (0 <= n)%Z /\
            size_sort_key "39" = n /\
            size_sort_key ("Size " ++ "39") = n /\
            size_sort_key ("size " ++ "39") = n /\
            size_sort_key ("SIZE " ++ "39") = n.
Proof. apply (numeric_size_sorts_by_value "39"). by split. Defined.

(** X21 at the first sample page. *)
Lemma well_formed_section_parses_witness :
  let lines := Sample.page0_before
               ++ "ITEMS QUANTITY" :: flat_map block_lines Sample.page0_blocks ++ [] in
  extract_product_details (Py.join nl lines) Sample.warehouse_map = [("Tee", "M", "2")].
Proof.
  apply (well_formed_section_parses Sample.warehouse_map Sample.page0_before
           "ITEMS QUANTITY" Sample.page0_blocks [("Tee", "M", "2")] []).
  - by repeat constructor.
  - by repeat constructor.
  - reflexivity.
  - constructor; [|constructor]. unfold well_formed_block.
    split; [reflexivity|]. split; [reflexivity|].
    split; [left; exists "B11"; by vm_compute|].
    split; [by vm_compute|]. split; [reflexivity|done].
  - exact I.
Defined.

(** X22 at the size line of the first sample page. *)
Lemma usual_size_line_is_read_witness :
  size_of_line ("M" ++ " " ++ "2" ++ " of " ++ "2") = Some ("M", "2").
Proof.
  apply (usual_size_line_is_read "M" "2" "2").
  - apply (list_elem_of_lookup_2 _ 3). reflexivity.
  - by split.
  - by split.
Defined.
